(** * Spaced-repetition scheduling and adaptive deck composition

    A shallow embedding of the flashcard core of the repository:
    - [lib/flashcard-types.ts]: the card, deck and configuration records;
    - [lib/flashcard.ts]: [calculateNextReview] (SM-2), [getDueCards],
      [sortCardsForStudy] and [getStudyStatistics];
    - [lib/gpa.ts]: [scoreTtoGPA], [calculateSubjectGPA],
      [calculateOverallGPA], [calculateGoalProgress],
      [calculateStudyEfficiency] and [analyzeCorrelation];
    - [lib/evidence-learning.ts]: [createDeliberatePracticeDeck],
      [createInterleavedDeck], [analyzeInterleavedDistribution],
      [getAdaptiveFeedback], the checklists of
      [createPreStudyMetacognition] and [createMidStudyCheck], and
      [calculateMetacognitionScore];
    - [lib/ai-enhanced.ts]: [analyzeWeaknessPatterns],
      [generateSimilarProblems] and [diagnoseUnderstanding].

    A TypeScript [number] is an IEEE 754 binary64 value, here Rocq's primitive
    [float]; the arithmetic of the source is the arithmetic of [PrimFloat].
    Objects used as dictionaries are [gmap]s with string keys: the map
    holds the object's own properties. A lookup [o[k]] is the map's
    lookup when [k] is a plain key ([plainKey]), not the name of a
    property that every object inherits (such as [constructor]); the
    statements on [analyzeInterleavedDistribution],
    [analyzeWeaknessPatterns] and the unanswered questions of
    [calculateMetacognitionScore] are made for plain keys. *)

From Stdlib Require Import ZArith Floats Lia List Permutation Sorted.
From stdpp Require Import gmap strings list pretty.

Set Warnings "-inexact-float".
#[local] Open Scope float_scope.

(** ** The host language *)

Module Js.

(** Completion of a call: a value, or an exception. *)
Inductive error := InvalidArgument | RangeError | TypeError.

Inductive outcome (A : Type) : Type :=
| Returned (a : A)
| Thrown (e : error).
Arguments Returned {A} a.
Arguments Thrown {A} e.

#[global] Instance outcome_ret : MRet outcome := fun A a => Returned a.
#[global] Instance outcome_bind : MBind outcome := fun A B k x =>
  match x with
  | Returned a => k a
  | Thrown e => Thrown e
  end.

(** ToBoolean on a number: [0], [-0] and [NaN] are falsy. *)
Definition isNaN (x : float) : bool := negb (x =? x).
Definition truthy (x : float) : bool := negb (x =? 0) && negb (isNaN x).

(** [isFinite(x)]: neither [NaN] nor an infinity. *)
Definition isFinite (x : float) : bool := abs x <? infinity.

(** [x || d] and [x ?? d] where [x] may be [undefined]. *)
Definition orElse (x : option float) (d : float) : float :=
  match x with
  | Some v => if truthy v then v else d
  | None => d
  end.
Definition nullish (x : option float) (d : float) : float :=
  match x with
  | Some v => v
  | None => d
  end.

(** The integer [n] as a number; exact for [|n| <= 2^53]. *)
Definition ofZ (n : Z) : float := SF2Prim (binary_normalize prec emax n 0 false).
Definition ofNat (n : nat) : float := ofZ (Z.of_nat n).

(** An integer result [n] computed from the number [x]: zero keeps the
    sign of [x], as [Math.round] and [Math.floor] do. *)
Definition integral (s : bool) (n : Z) : float :=
  if (n =? 0)%Z then (if s then neg_zero else zero) else ofZ n.

(** [Math.round]: the nearest integer, ties towards [+Infinity]. A
    finite [x] is [±m * 2^e]; for [e < 0] the result is
    [floor (x + 1/2) = floor ((±2m + 2^(-e)) / 2^(1-e))]. *)
Definition Math_round (x : float) : float :=
  match Prim2SF x with
  | S754_finite s m e =>
      if (0 <=? e)%Z then x
      else integral s (Z.shiftr (2 * cond_Zopp s (Z.pos m) + 2 ^ (- e)) (1 - e))
  | _ => x
  end.

(** [Math.floor]. *)
Definition Math_floor (x : float) : float :=
  match Prim2SF x with
  | S754_finite s m e =>
      if (0 <=? e)%Z then x
      else if s then ofZ (Z.shiftr (Z.neg m) (- e))
      else integral false (Z.shiftr (Z.pos m) (- e))
  | _ => x
  end.

(** ToIntegerOrInfinity, as [Array.prototype.slice] applies it to its
    bounds: truncation towards zero, [NaN] is [0]. *)
Inductive extint := Fin (n : Z) | PlusInf | MinusInf.

Definition toIntegerOrInfinity (x : float) : extint :=
  match Prim2SF x with
  | S754_zero _ | S754_nan => Fin 0
  | S754_infinity s => if s then MinusInf else PlusInf
  | S754_finite s m e =>
      Fin (cond_Zopp s (if (0 <=? e)%Z then Z.pos m * 2 ^ e else Z.shiftr (Z.pos m) (- e)))
  end.

(** [a.slice(0, end)]: a negative [end] counts from the end of [a]. *)
Definition slice0 {A} (a : list A) (stop : extint) : list A :=
  match stop with
  | Fin n => if (n <? 0)%Z then take (Z.to_nat (Z.of_nat (length a) + n)) a
             else take (Z.to_nat n) a
  | PlusInf => a
  | MinusInf => []
  end.

(** [Array.prototype.sort] with a comparator. The host may use any
    algorithm; the result is fixed by the language only for a consistent
    comparator, where it is the stable sorted arrangement. The reference
    algorithm here is a stable insertion sort: [x] moves behind [y] only
    when [cmp x y > 0] (a [NaN] result counts as [+0]). *)
Fixpoint insertSorted {A} (cmp : A -> A -> float) (x : A) (l : list A) : list A :=
  match l with
  | [] => [x]
  | y :: l' => if 0 <? cmp x y then y :: insertSorted cmp x l' else x :: l
  end.

Definition Array_sort {A} (cmp : A -> A -> float) (l : list A) : list A :=
  foldr (insertSorted cmp) [] l.

(** [s.includes(t)] on strings. *)
Fixpoint includes (t s : string) : bool :=
  String.prefix t s ||
  match s with
  | EmptyString => false
  | String _ s' => includes t s'
  end.

End Js.
Import Js.

(** ** The order of numbers

    A binary64 number is [±m * 2^e] with [e >= -1074]. *)

(** The value of a number in units of [2^-1074]; the infinities lie
    beyond every finite value. *)
Definition scaled (x : spec_float) : Z :=
  match x with
  | S754_zero _ | S754_nan => 0
  | S754_infinity s => cond_Zopp s (2 ^ 2098)
  | S754_finite s m e => cond_Zopp s (Z.pos m * 2 ^ (e + 1074))
  end.

Definition notNaN (x : spec_float) : Prop := x <> S754_nan.

(** [rank x]: the value of the number [x] in units of [2^-1074]. *)
Definition rank (x : float) : Z := scaled (Prim2SF x).

(** ** [lib/flashcard-types.ts] *)

Inductive Difficulty := easy | medium | hard.

Inductive MediaType := image | diagram | chart | formula.

Record VisualMedia := {
  media_type : MediaType;
  url : option string;
  alt : option string;
  caption : option string;
  latexFormula : option string;
}.

Record Flashcard := {
  card_id : string;
  front : string;
  back : string;
  chapter : option string;
  card_section : option string;
  difficulty : Difficulty;
  easeFactor : float;
  interval : float;
  repetitions : float;
  nextReviewDate : string;
  lastReviewDate : option string;
  card_tags : option (list string);
  visualMedia : option VisualMedia;
}.

Record FlashcardDeck := {
  deck_id : string;
  name : string;
  description : string;
  cards : list Flashcard;
  createdAt : string;
  updatedAt : string;
  deck_tags : option (list string);
  category : option string;
}.

(** The configuration fields that the composers test for absence
    ([focusAreas && ...], [maxCards || 20], [adaptiveThreshold ?? 0],
    [cardsPerDeck ? ... : ...]) are options: [None] is [undefined].
    [shuffleMode] is the string the caller passed. *)
Record DeliberatePracticeConfig := {
  focusAreas : option (list string);
  difficultyLevel : option Difficulty;
  maxCards : option float;
  adaptiveThreshold : option float;
  sourceDeckIds : option (list string);
}.

Record InterleavedConfig := {
  deckIds : option (list string);
  cardsPerDeck : option float;
  shuffleMode : string;
  difficultyRange : option (Difficulty * Difficulty);
}.

(** Neither record declares the properties [card.category] and
    [deck.title] that the source reads; a deck built anywhere in the
    repository carries [name], never [title]. Reading them yields
    [undefined]. *)
Definition card_category (card : Flashcard) : option string := None.
Definition title (deck : FlashcardDeck) : option string := None.

(** [s || t] on optional strings: [undefined] and the empty string are falsy. *)
Definition strOr (s t : option string) : option string :=
  match s with
  | Some v => if bool_decide (v = "") then t else s
  | None => t
  end.

(** ** The environment: clock, locale and random source

    [isoNow] is [new Date().toISOString()]; [isoAfterDays n] is the ISO
    rendering of the date [n] days after now ([setDate (getDate () + n)]),
    or [None] when that date is not a valid one ([n] is not finite, or
    the date lies outside the range of [Date]): [toISOString] then
    raises a [RangeError];
    [getTime s] is [new Date(s).getTime()], [dateNow] is [Date.now()],
    and [random k] the value of the [k]-th call of [Math.random()]. *)
Class Host := {
  isoNow : string;
  isoAfterDays : float -> option string;
  getTime : string -> float;
  dateNow : N;
  toLowerCase : string -> string;
  random : nat -> float;
}.

(** ** [lib/flashcard.ts] *)

(** The six grades of a review. *)
Definition qualityScores : list float := [0; 1; 2; 3; 4; 5].

Section flashcard.
Context `{Host}.

(** SM-2, first step: the new interval and repetition count. *)
Definition reschedule (card : Flashcard) (quality : float) : float * float :=
  if quality <? 3 then (1, 0)
  else ((if repetitions card =? 0 then 1
         else if repetitions card =? 1 then 6
         else Math_round (interval card * easeFactor card)),
        repetitions card + 1).

(** SM-2: the next review state of [card] after a review graded
    [quality]. The only step that can fail is the rendering of the next
    review date. *)
Definition calculateNextReview (card : Flashcard) (quality : float) : outcome Flashcard :=
  let '(interval', repetitions') := reschedule card quality in
  let easeFactor' :=
    easeFactor card + (0.1 - (5 - quality) * (0.08 + (5 - quality) * 0.02)) in
  let easeFactor' := if easeFactor' <? 1.3 then 1.3 else easeFactor' in
  match isoAfterDays interval' with
  | None => Thrown RangeError
  | Some nextDate =>
      Returned {|
        card_id := card_id card;
        front := front card;
        back := back card;
        chapter := chapter card;
        card_section := card_section card;
        difficulty := if 4 <=? quality then easy else if 3 <=? quality then medium else hard;
        easeFactor := easeFactor';
        interval := interval';
        repetitions := repetitions';
        nextReviewDate := nextDate;
        lastReviewDate := Some isoNow;
        card_tags := card_tags card;
        visualMedia := visualMedia card;
      |}
  end.

(** A study history: the reviews [qualities] applied one after another. *)
Fixpoint reviewAll (card : Flashcard) (qualities : list float) : outcome Flashcard :=
  match qualities with
  | [] => Returned card
  | q :: qs => card' ← calculateNextReview card q; reviewAll card' qs
  end.

Definition getDueCards (now : float) (cs : list Flashcard) : list Flashcard :=
  List.filter (fun card => getTime (nextReviewDate card) <=? now) cs.

Definition diffMap (d : Difficulty) : float :=
  match d with
  | hard => 0
  | medium => 1
  | easy => 2
  end.

(** The comparator of [sortCardsForStudy]. *)
Definition compareForStudy (a b : Flashcard) : float :=
  let dateDiff := getTime (nextReviewDate a) - getTime (nextReviewDate b) in
  if negb (dateDiff =? 0) then dateDiff
  else
    let diffDiff := diffMap (difficulty a) - diffMap (difficulty b) in
    if negb (diffDiff =? 0) then diffDiff
    else easeFactor a - easeFactor b.

Definition sortCardsForStudy (cs : list Flashcard) : list Flashcard :=
  Array_sort compareForStudy cs.

End flashcard.

(** *** The order of study, for the properties of [sortCardsForStudy] *)

#[global] Instance Difficulty_eq_dec : EqDecision Difficulty.
Proof. solve_decision. Defined.

(** Severity of a difficulty label: hard above medium above easy. *)
Definition severity (d : Difficulty) : nat :=
  match d with
  | hard => 2
  | medium => 1
  | easy => 0
  end.

Section study_order_defs.
Context `{Host}.

Definition dueTime (c : Flashcard) : float := getTime (nextReviewDate c).

(** A card with a valid review date and a numeric ease factor. *)
Definition wellFormed (c : Flashcard) : Prop :=
  isFinite (dueTime c) = true /\ isNaN (easeFactor c) = false.

(** [studyOrder a b]: [a] may be studied before [b]: it is due earlier,
    or at the same time and more severe, or at the same time, as severe,
    and of no larger ease factor. *)
Definition studyOrder (a b : Flashcard) : Prop :=
  (dueTime a <? dueTime b) = true
  \/ ((dueTime a =? dueTime b) = true
      /\ (severity (difficulty b) < severity (difficulty a))%nat)
  \/ ((dueTime a =? dueTime b) = true
      /\ difficulty a = difficulty b
      /\ (easeFactor a <=? easeFactor b) = true).

(** [sameKeys c x]: [x] has the three sort keys of [c]. *)
Definition sameKeys (c x : Flashcard) : bool :=
  (dueTime x =? dueTime c)
  && bool_decide (difficulty x = difficulty c)
  && (easeFactor x =? easeFactor c).

End study_order_defs.

(** ** [lib/evidence-learning.ts] *)

Inductive FeedbackLevel := excellent | good | needs_review | struggling.

Record AdaptiveFeedback := {
  level : FeedbackLevel;
  message : string;
  suggestedAction : string;
  adjustedDifficulty : Difficulty;
}.

Inductive QuestionType := rating | yesno | selection | text.

Record MetacognitionQuestion := {
  question_id : string;
  question_text : string;
  question_type : QuestionType;
  scale : option float;
  options : option (list string);
}.

(** An answer of the checklist: [number | string | boolean]. *)
Inductive Answer :=
| ANumber (x : float)
| AString (s : string)
| ABoolean (b : bool).

Definition difficultyToNumber (d : Difficulty) : float :=
  match d with
  | easy => 1
  | medium => 2
  | hard => 3
  end.

Definition difficultyName (d : Difficulty) : string :=
  match d with
  | easy => "easy"
  | medium => "medium"
  | hard => "hard"
  end.

(** [a.join(sep)]. *)
Fixpoint join (sep : string) (a : list string) : string :=
  match a with
  | [] => ""
  | [s] => s
  | s :: a' => s +:+ sep +:+ join sep a'
  end.

Section evidence_learning.
Context `{Host}.

(** The test of the [focusAreas] filter on one card of [deck]. *)
Definition matchesFocus (areas : list string) (deck : FlashcardDeck) (card : Flashcard) : bool :=
  let cardTags := map toLowerCase (default [] (card_tags card)) in
  let cardCategory :=
    toLowerCase (default "" (strOr (strOr (card_category card) (category deck)) (Some ""))) in
  existsb (fun area =>
             bool_decide (toLowerCase area ∈ cardTags)
             || includes (toLowerCase area) cardCategory) areas.

(** The cards collected from the pool, in encounter order. *)
Definition collectCards (allDecks : list FlashcardDeck) (focus : option (list string)) : list Flashcard :=
  flat_map (fun deck =>
    List.filter (fun card =>
      match focus with
      | Some areas => if (0 <? length areas)%nat then matchesFocus areas deck card else true
      | None => true
      end) (cards deck)) allDecks.

(** The [difficultyLevel] filter: the ease factor gives a card its rank. *)
Definition withinDifficulty (level : Difficulty) (threshold : option float) (card : Flashcard) : bool :=
  let diffNum := difficultyToNumber level in
  let ef := easeFactor card in
  let cardDiffNum := if ef <? 2.0 then 3 else if ef <? 2.5 then 2 else 1 in
  abs (cardDiffNum - diffNum) <=? nullish threshold 0.

(** The cards that pass both filters, before truncation. *)
Definition matchingCards (allDecks : list FlashcardDeck) (config : DeliberatePracticeConfig) : list Flashcard :=
  let allCards := collectCards allDecks (focusAreas config) in
  match difficultyLevel config with
  | Some lvl => List.filter (withinDifficulty lvl (adaptiveThreshold config)) allCards
  | None => allCards
  end.

Definition createDeliberatePracticeDeck (allDecks : list FlashcardDeck)
    (config : DeliberatePracticeConfig) : outcome FlashcardDeck :=
  let allCards := matchingCards allDecks config in
  let limit := orElse (maxCards config) 20 in
  let selectedCards := slice0 allCards (toIntegerOrInfinity limit) in
  let areas := default "" (join ", " <$> focusAreas config) in
  Returned {|
    deck_id := "deliberate-practice-" +:+ pretty dateNow;
    name := "의도적 연습 덱 (" +:+ (if bool_decide (areas = "") then "전체" else areas) +:+ ")";
    description :=
      from_option difficultyName "전체" (difficultyLevel config)
      +:+ " 난이도 / " +:+ pretty (length selectedCards) +:+ "장";
    cards := selectedCards;
    createdAt := isoNow;
    updatedAt := isoNow;
    deck_tags := None;
    category := Some "deliberate-practice";
  |}.

(** The decks a configuration selects, and the group of cards taken from each. *)
Definition targetDecks (allDecks : list FlashcardDeck) (config : InterleavedConfig) : list FlashcardDeck :=
  match deckIds config with
  | Some ids =>
      if (0 <? length ids)%nat
      then List.filter (fun d => bool_decide (deck_id d ∈ ids)) allDecks
      else allDecks
  | None => allDecks
  end.

Definition cardGroup (perDeck : option float) (deck : FlashcardDeck) : list Flashcard :=
  match perDeck with
  | Some n => if truthy n then slice0 (cards deck) (toIntegerOrInfinity n) else cards deck
  | None => cards deck
  end.

Definition cardGroups (allDecks : list FlashcardDeck) (config : InterleavedConfig) : list (list Flashcard) :=
  map (cardGroup (cardsPerDeck config)) (targetDecks allDecks config).

End evidence_learning.

(** Round-robin: for [i] from [0] below the longest group, every group
    that has an [i]-th card contributes it, in group order. *)
Definition maxLen {A} (groups : list (list A)) : nat :=
  foldr Nat.max 0%nat (map length groups).

Definition roundAt {A} (groups : list (list A)) (i : nat) : list A :=
  flat_map (fun group => match group !! i with Some c => [c] | None => [] end) groups.

Definition roundRobin {A} (groups : list (list A)) : list A :=
  flat_map (roundAt groups) (seq 0 (maxLen groups)).

(** Fisher-Yates: [i] runs from the last index down to [1]; [k] counts the
    draws made so far. [Math.random ()] lies in [0, 1), which keeps
    [j <= i]; a swap whose index falls outside the array is left out. *)
Definition arrayIndex (j : float) : option nat :=
  match toIntegerOrInfinity j with
  | Fin n => if (0 <=? n)%Z && (ofZ n =? j) then Some (Z.to_nat n) else None
  | _ => None
  end.

Definition swap {A} (a : list A) (i : nat) (j : option nat) : list A :=
  match a !! i, j ≫= (a !!.) with
  | Some x, Some y => <[default i j := x]> (<[i := y]> a)
  | _, _ => a
  end.

Fixpoint shuffleFrom {A} (rand : nat -> float) (i k : nat) (a : list A) : list A :=
  match i with
  | O => a
  | S i' =>
      let j := Math_floor (rand k * ofNat (i + 1)) in
      shuffleFrom rand i' (S k) (swap a i (arrayIndex j))
  end.

Definition fisherYates {A} (rand : nat -> float) (a : list A) : list A :=
  shuffleFrom rand (length a - 1) 0 a.

(** The first [n] rounds; [roundRobin] runs [maxLen groups] of them. *)
Definition rounds {A} (n : nat) (groups : list (list A)) : list A :=
  flat_map (roundAt groups) (seq 0 n).

(** Source decks.

    [sourcedFrom o groups] pairs every card with the index of its group,
    counted from [o]; the cards of the output then carry their source. *)
Definition sourcedFrom {A} (o : nat) (groups : list (list A)) : list (list (nat * A)) :=
  imap (fun k group => (fun c => ((o + k)%nat, c)) <$> group) groups.

Definition sourced {A} (groups : list (list A)) : list (list (nat * A)) :=
  sourcedFrom 0 groups.

(** [tagged o G]: the cards of the [k]-th group of [G] carry the tag [o + k]. *)
Fixpoint tagged {A} (o : nat) (G : list (list (nat * A))) : Prop :=
  match G with
  | [] => True
  | g :: G' => Forall (fun x => x.1 = o) g /\ tagged (S o) G'
  end.

(** [settled out]: once two consecutive cards of [out] share their
    source, every later card has that source: no other group has a card
    left. *)
Definition settled {A} (out : list (nat * A)) : Prop :=
  forall pre x y post,
    out = pre ++ x :: y :: post -> x.1 = y.1 -> Forall (fun z => z.1 = x.1) post.

Section evidence_learning_decks.
Context `{Host}.

Definition createInterleavedDeck (allDecks : list FlashcardDeck)
    (config : InterleavedConfig) : outcome FlashcardDeck :=
  let groups := cardGroups allDecks config in
  let interleavedCards :=
    if bool_decide (shuffleMode config = "round-robin")
    then roundRobin groups
    else fisherYates random (concat groups) in
  Returned {|
    deck_id := "interleaved-" +:+ pretty dateNow;
    name := "교차 학습 덱";
    description :=
      pretty (length (targetDecks allDecks config)) +:+ "개 덱 혼합 / "
      +:+ pretty (length interleavedCards) +:+ "장";
    cards := interleavedCards;
    createdAt := isoNow;
    updatedAt := isoNow;
    deck_tags := None;
    category := Some "interleaved";
  |}.

End evidence_learning_decks.

(** [responseTimeMs] and [streak] are optional arguments with defaults. *)
Definition getAdaptiveFeedback (card : Flashcard) (isCorrect : bool)
    (responseTimeMs streak : option float) : AdaptiveFeedback :=
  let responseTimeMs := nullish responseTimeMs 10000 in
  let streak := nullish streak 0 in
  let fastThreshold := 8000 in
  if isCorrect && (responseTimeMs <? fastThreshold) && (2 <=? streak) then
    {| level := excellent;
       message := "탁월합니다! 빠르고 정확하게 답변했습니다.";
       suggestedAction := "이 카드의 복습 간격을 늘려도 됩니다.";
       adjustedDifficulty := easy |}
  else if isCorrect && (responseTimeMs <? fastThreshold) then
    {| level := good;
       message := "잘 했습니다! 정확한 답변입니다.";
       suggestedAction := "현재 복습 간격을 유지하세요.";
       adjustedDifficulty := easy |}
  else if isCorrect then
    {| level := good;
       message := "정답입니다. 조금 더 빠르게 떠올릴 수 있도록 복습해보세요.";
       suggestedAction := "복습 간격을 약간 줄여서 빠른 회상을 연습하세요.";
       adjustedDifficulty := medium |}
  else if streak =? 0 then
    {| level := struggling;
       message := "이 개념은 아직 어려운 부분인 것 같습니다.";
       suggestedAction := "정답을 확인한 후, 내일 다시 복습해보세요.";
       adjustedDifficulty := hard |}
  else
    {| level := needs_review;
       message := "틀렸지만, 이전에 잘 했던 내용입니다. 다시 복습하세요.";
       suggestedAction := "카드를 다시 보고 24시간 후에 재복습하세요.";
       adjustedDifficulty := medium |}.

(** [options.indexOf(answer)]: the position of the first equal option. *)
Fixpoint indexOf (s : string) (l : list string) : option nat :=
  match l with
  | [] => None
  | o :: l' => if bool_decide (o = s) then Some 0%nat else S <$> indexOf s l'
  end.

(** One question of the checklist adds to [(totalScore, maxScore)];
    a question with no answer, or the empty string, is passed over. *)
Definition scoreQuestion (answers : gmap string Answer)
    (acc : float * float) (q : MetacognitionQuestion) : float * float :=
  let '(totalScore, maxScore) := acc in
  match answers !! question_id q with
  | None | Some (AString "") => acc
  | Some answer =>
      match question_type q with
      | rating =>
          let scale := orElse (scale q) 5 in
          (totalScore + match answer with ANumber x => x | _ => 0 end, maxScore + scale)
      | yesno =>
          (totalScore + match answer with ABoolean true => 1 | _ => 0 end, maxScore + 1)
      | selection =>
          let options := default [] (options q) in
          let idx := match answer with AString s => indexOf s options | _ => None end in
          (totalScore + match idx with
                        | Some i => ofNat (length options) - ofNat i
                        | None => 0
                        end,
           maxScore + ofNat (length options))
      | text =>
          (totalScore + match answer with
                        | AString s => if (0 <? String.length s)%nat then 1 else 0
                        | _ => 0
                        end,
           maxScore + 1)
      end
  end.

Definition calculateMetacognitionScore (answers : gmap string Answer)
    (questions : list MetacognitionQuestion) : float :=
  if (length questions =? 0)%nat then 0
  else
    let '(totalScore, maxScore) := foldl (scoreQuestion answers) (0, 0) questions in
    if 0 <? maxScore then Math_round (totalScore / maxScore * 100) else 0.

(** ** [lib/ai-enhanced.ts] *)

Record ChapterStat := {
  total : float;
  correct : float;
  stat_cards : list string;
}.

(** The property key an optional string denotes: [undefined] is the key
    ["undefined"]. *)
Definition propertyKey (s : option string) : string := default "undefined" s.

Definition addCard (stat : ChapterStat) (card : Flashcard) : ChapterStat :=
  let reps := orElse (Some (repetitions card)) 0 in
  let ef := easeFactor card in
  let successRate := if 2.5 <=? ef then 0.8 else if 2.0 <=? ef then 0.5 else 0.2 in
  {| total := total stat + reps;
     correct := correct stat + Math_round (reps * successRate);
     stat_cards := stat_cards stat ++ [card_id card] |}.

(** The statistics of a topic start empty when its label is first met. *)
Definition addDeck (chapterStats : gmap string ChapterStat) (deck : FlashcardDeck)
    : gmap string ChapterStat :=
  let chapterLabel := propertyKey (strOr (category deck) (title deck)) in
  let stat := default {| total := 0; correct := 0; stat_cards := [] |} (chapterStats !! chapterLabel) in
  <[chapterLabel := foldl addCard stat (cards deck)]> chapterStats.

(** The table [chapterStats] that [analyzeWeaknessPatterns] builds from
    the decks before it ranks the topics. *)
Definition chapterStats (decks : list FlashcardDeck) : gmap string ChapterStat :=
  foldl addDeck ∅ decks.

(** The decision table of the feedback classifier as the specification
    words it: five rows, tried in order, the first row that applies
    gives the tier and the difficulty adjustment. *)
Record TableRow := {
  applies : bool -> float -> float -> bool;
  tier : FeedbackLevel;
  adjustment : Difficulty;
}.

Definition decisionTable : list TableRow := [
  {| applies := fun isCorrect ms streak => isCorrect && (ms <? 8000) && (2 <=? streak);
     tier := excellent; adjustment := easy |};
  {| applies := fun isCorrect ms _ => isCorrect && (ms <? 8000);
     tier := good; adjustment := easy |};
  {| applies := fun isCorrect _ _ => isCorrect;
     tier := good; adjustment := medium |};
  {| applies := fun isCorrect _ streak => negb isCorrect && (streak =? 0);
     tier := struggling; adjustment := hard |};
  {| applies := fun isCorrect _ _ => negb isCorrect;
     tier := needs_review; adjustment := medium |}
].

Definition classify (isCorrect : bool) (ms streak : float) : option (FeedbackLevel * Difficulty) :=
  (fun row => (tier row, adjustment row))
    <$> List.find (fun row => applies row isCorrect ms streak) decisionTable.

(** ** More of the host language *)

(** The number nearest to [±n/d], for [n >= 0] and [d > 0]: the
    quotient rounded as a division rounds it, ties to even. A zero
    keeps its sign. *)
Definition nearest (s : bool) (n d : Z) : float :=
  if (n =? 0)%Z then (if s then neg_zero else zero)
  else
    let '(q, e, l) := SFdiv_core_binary prec emax n 0 d 0 in
    SF2Prim (binary_round_aux prec emax s q e l).

(** [parseFloat(x.toFixed(f))]. [toFixed] prints [NaN] and the
    infinities by name, and [-0] as [0]; of a finite [x = ±m * 2^e] it
    prints the sign and [n / 10^f], where [n] is the integer nearest to
    [|x| * 10^f], the larger one of two. An integer [x] ([e >= 0]) is
    printed exactly. [parseFloat] reads the decimal back as the nearest
    number. *)
Definition parseFloat_toFixed (f : nat) (x : float) : float :=
  match Prim2SF x with
  | S754_zero _ => zero
  | S754_finite s m e =>
      if (0 <=? e)%Z then x
      else nearest s (Z.shiftr (2 * (Z.pos m * 10 ^ Z.of_nat f) + 2 ^ (- e)) (1 - e))
                   (10 ^ Z.of_nat f)
  | _ => x
  end.

(** [[...new Set(a)]]: the first occurrence of every element, in order. *)
Definition uniq (a : list string) : list string :=
  foldl (fun seen x => if bool_decide (x ∈ seen) then seen else seen ++ [x]) [] a.

(** The names that every object inherits from [Object.prototype]: for
    such a key [k] the lookup [o[k]] of an object without that property
    of its own finds the inherited value, not [undefined]. *)
Definition inheritedKeys : list string := [
  "constructor"; "hasOwnProperty"; "isPrototypeOf"; "propertyIsEnumerable";
  "toLocaleString"; "toString"; "valueOf"; "__proto__";
  "__defineGetter__"; "__defineSetter__"; "__lookupGetter__"; "__lookupSetter__"
].

(** A plain key: on an object used as a dictionary, [o[k]] is
    [undefined] unless [k] was stored. *)
Definition plainKey (k : string) : bool := bool_decide (k ∉ inheritedKeys).

(** The double-quote character. *)
Definition dquote : string := String (Ascii.ascii_of_nat 34) EmptyString.

(** [Math.max(a, b)] and [Math.min(a, b)]: [NaN] if an argument is
    [NaN]; [+0] is larger than [-0]. *)
Definition Math_max (a b : float) : float :=
  if isNaN a || isNaN b then nan
  else if a <? b then b
  else if b <? a then a
  else match Prim2SF a with
       | S754_zero true => b
       | _ => a
       end.

Definition Math_min (a b : float) : float :=
  if isNaN a || isNaN b then nan
  else if a <? b then a
  else if b <? a then b
  else match Prim2SF b with
       | S754_zero true => b
       | _ => a
       end.

(** ** [lib/gpa.ts] *)

Inductive GradeType := assignment | exam.

Record SubjectGrade := {
  grade_id : string;
  grade_type : GradeType;
  grade_title : string;
  score : float;
  weight : float;
  grade_date : string;
}.

(** [currentGrade] is [number | null]; the two lists are read as
    [subject.assignments || []]: [None] is an absent list. *)
Record Subject := {
  subject_id : string;
  subject_name : string;
  credits : float;
  targetGPA : float;
  currentGrade : option float;
  semester : string;
  assignments : option (list SubjectGrade);
  exams : option (list SubjectGrade);
}.

Record StudyRecord := {
  record_id : option string;
  record_date : string;
  duration : float;
  record_subject : option string;
  record_deckId : option string;
  cardsStudied : option float;
  correctRate : option float;
}.

(** A score out of 100 as a grade point; [scale] defaults to [4.5]. *)
Definition scoreTtoGPA (score : float) (scale : option float) : float :=
  let scale := nullish scale 4.5 in
  if 95 <=? score then scale
  else if 90 <=? score then scale - 0.2
  else if 85 <=? score then scale - 0.5
  else if 80 <=? score then scale - 1.0
  else if 75 <=? score then scale - 1.3
  else if 70 <=? score then scale - 1.5
  else if 65 <=? score then scale - 2.0
  else if 60 <=? score then scale - 2.3
  else if 55 <=? score then scale - 2.5
  else if 50 <=? score then scale - 3.0
  else 0.

(** The grades of a subject, assignments first. *)
Definition allGrades (subject : Subject) : list SubjectGrade :=
  default [] (assignments subject) ++ default [] (exams subject).

(** One grade adds to [(totalWeightedScore, totalWeight)]. *)
Definition addGrade (acc : float * float) (g : SubjectGrade) : float * float :=
  (acc.1 + score g * weight g, acc.2 + weight g).

Definition calculateSubjectGPA (subject : Subject) : option float :=
  match currentGrade subject with
  | Some grade => Some grade
  | None =>
      if (length (allGrades subject) =? 0)%nat then None
      else
        let '(totalWeightedScore, totalWeight) := foldl addGrade (0, 0) (allGrades subject) in
        if totalWeight =? 0 then None
        else
          let averageScore := totalWeightedScore / totalWeight in
          Some (parseFloat_toFixed 2 (scoreTtoGPA averageScore None))
  end.

(** One subject adds to [(totalWeightedGPA, totalCredits)], unless it
    has no grade point. *)
Definition addSubject (acc : float * float) (s : Subject) : float * float :=
  match calculateSubjectGPA s with
  | Some gpa => (acc.1 + gpa * credits s, acc.2 + credits s)
  | None => acc
  end.

Definition calculateOverallGPA (subjects : list Subject) : float :=
  if (length subjects =? 0)%nat then 0
  else
    let '(totalWeightedGPA, totalCredits) := foldl addSubject (0, 0) subjects in
    if 0 <? totalCredits then parseFloat_toFixed 2 (totalWeightedGPA / totalCredits) else 0.

Definition calculateGoalProgress (subject : Subject) : float :=
  match calculateSubjectGPA subject with
  | None => 0
  | Some currentGPA => parseFloat_toFixed 1 (currentGPA / targetGPA subject * 100)
  end.

(** A record counts when it has a positive duration and a positive
    number of cards. *)
Definition countedRecord (r : StudyRecord) : bool :=
  truthy (duration r) && (0 <? duration r)
  && match cardsStudied r with
     | Some n => truthy n && (0 <? n)
     | None => false
     end.

(** One record adds to [(totalEfficiency, validRecords)]. *)
Definition addRecord (acc : float * float) (r : StudyRecord) : float * float :=
  if countedRecord r then
    let rate := orElse (correctRate r) 0.5 in
    let efficiency := rate * nullish (cardsStudied r) 0 / (duration r / 60) in
    (acc.1 + efficiency, acc.2 + 1)
  else acc.

Definition calculateStudyEfficiency (studyRecords : list StudyRecord) : float :=
  if (length studyRecords =? 0)%nat then 0
  else
    let '(totalEfficiency, validRecords) := foldl addRecord (0, 0) studyRecords in
    if 0 <? validRecords then parseFloat_toFixed 2 (totalEfficiency / validRecords) else 0.

(** ** [lib/gpa.ts]: study time against grades *)

Module Correlation.

Inductive trend := positive | neutral | negative.

End Correlation.

Record SubjectCorrelation := {
  subjectName : string;
  correlation : float;
  studyHours : float;
  averageScore : float;
}.

Record CorrelationResult := {
  overallCorrelation : float;
  subjectCorrelations : list SubjectCorrelation;
  trend : Correlation.trend;
  summary : string;
}.

(** The records of a subject: those filed under its name or its id. *)
Definition recordsOf (studyRecords : list StudyRecord) (s : Subject) : list StudyRecord :=
  List.filter (fun r => bool_decide (record_subject r = Some (subject_name s))
                        || bool_decide (record_subject r = Some (subject_id s)))
              studyRecords.

(** What [analyzeCorrelation] pushes for one subject. *)
Definition correlate (studyRecords : list StudyRecord) (s : Subject) : SubjectCorrelation :=
  let subjectRecords := recordsOf studyRecords s in
  let studyHours :=
    foldl (fun sum r => sum + orElse (Some (duration r)) 0) 0 subjectRecords / 60 in
  let allGrades := allGrades s in
  let averageScore :=
    if (0 <? length allGrades)%nat
    then foldl (fun sum g => sum + score g) 0 allGrades / ofNat (length allGrades)
    else match currentGrade s with
         | Some grade => if truthy grade then grade * 25 else 0
         | None => 0
         end in
  let correlation :=
    if (0 <? studyHours) && (0 <? averageScore) then
      let normalizedHours := Math_min (studyHours / 20) 1 in
      let normalizedScore := Math_min (averageScore / 100) 1 in
      parseFloat_toFixed 2 (normalizedHours * 0.5 + normalizedScore * 0.5)
    else 0 in
  {| subjectName := subject_name s;
     correlation := correlation;
     studyHours := parseFloat_toFixed 1 studyHours;
     averageScore := parseFloat_toFixed 1 averageScore |}.

Definition analyzeCorrelation (studyRecords : list StudyRecord) (subjects : list Subject)
    : CorrelationResult :=
  let subjectCorrelations := correlate studyRecords <$> subjects in
  let overallCorrelation :=
    if (0 <? length subjectCorrelations)%nat
    then foldl (fun sum sc => sum + correlation sc) 0 subjectCorrelations
         / ofNat (length subjectCorrelations)
    else 0 in
  let trend :=
    if 0.6 <=? overallCorrelation then Correlation.positive
    else if 0.3 <=? overallCorrelation then Correlation.neutral
    else Correlation.negative in
  {| overallCorrelation := parseFloat_toFixed 2 overallCorrelation;
     subjectCorrelations := subjectCorrelations;
     trend := trend;
     summary :=
       match trend with
       | Correlation.positive =>
           "학습 시간과 성적 사이에 양의 상관관계가 보입니다. 현재 학습 패턴이 효과적입니다."
       | Correlation.neutral =>
           "학습 시간과 성적의 관계가 불분명합니다. 학습 방법의 효율도를 검토해보세요."
       | Correlation.negative =>
           "학습 시간이 성적 향상과 연결되지 않는 경우가 있습니다. 학습 전략을 조정하세요."
       end |}.

(** ** [lib/flashcard.ts]: the statistics of a session *)

Record ReviewResult := {
  cardId : string;
  quality : float;
  reviewedAt : string;
  timeTaken : option float;
  isCorrect : option bool;
}.

Inductive StudyMode := normal | interleaved | deliberate | dual_coding.

Record StudySession := {
  session_id : string;
  deckId : string;
  startedAt : string;
  endedAt : option string;
  results : list ReviewResult;
  mode : StudyMode;
}.

Record StudyStatistics := {
  totalReviews : float;
  correctCount : float;
  incorrectCount : float;
  averageQuality : float;
  completionRate : float;
  averageTime : float;
  streakCount : float;
  hardCards : list string;
}.

(** The loop that counts the streak: from the last result backwards,
    as long as the grade is at least 3. *)
Fixpoint streakFrom (reversed : list ReviewResult) (streakCount : float) : float :=
  match reversed with
  | [] => streakCount
  | r :: earlier =>
      if 3 <=? quality r then streakFrom earlier (streakCount + 1) else streakCount
  end.

(** The positive response times of a session. *)
Definition timings (rs : list ReviewResult) : list float :=
  omap (fun r => match timeTaken r with
                 | Some t => if truthy t && (0 <? t) then Some t else None
                 | None => None
                 end) rs.

Definition getStudyStatistics (session : StudySession) : StudyStatistics :=
  let results := results session in
  if (length results =? 0)%nat then
    {| totalReviews := 0; correctCount := 0; incorrectCount := 0; averageQuality := 0;
       completionRate := 0; averageTime := 0; streakCount := 0; hardCards := [] |}
  else
    let totalReviews := ofNat (length results) in
    let correctCount := ofNat (length (List.filter (fun r => 3 <=? quality r) results)) in
    let totalQuality := foldl (fun sum r => sum + quality r) 0 results in
    let timings := timings results in
    {| totalReviews := totalReviews;
       correctCount := correctCount;
       incorrectCount := totalReviews - correctCount;
       averageQuality := parseFloat_toFixed 2 (totalQuality / totalReviews);
       completionRate := parseFloat_toFixed 1 (correctCount / totalReviews * 100);
       averageTime :=
         if (0 <? length timings)%nat
         then Math_round (foldl (fun a b => a + b) 0 timings / ofNat (length timings))
         else 0;
       streakCount := streakFrom (rev results) 0;
       hardCards := uniq (cardId <$> List.filter (fun r => quality r <? 3) results) |}.

(** ** [lib/evidence-learning.ts]: distribution and checklists *)

(** The table from card ids to [d.title]; a later deck overwrites the
    entry of an id it shares with an earlier one. *)
Definition cardToDeck (allDecks : list FlashcardDeck) : gmap string (option string) :=
  foldl (fun table d => foldl (fun table c => <[card_id c := title d]> table) table (cards d))
        ∅ allDecks.

(** One card adds [1] to the count of its deck name, ['기타'] when the
    table has none. *)
Definition countCard (table : gmap string (option string))
    (distribution : gmap string float) (card : Flashcard) : gmap string float :=
  let deckName := default "" (strOr (mjoin (table !! card_id card)) (Some "기타")) in
  <[deckName := orElse (distribution !! deckName) 0 + 1]> distribution.

Definition analyzeInterleavedDistribution (deck : FlashcardDeck)
    (allDecks : list FlashcardDeck) : gmap string float :=
  foldl (countCard (cardToDeck allDecks)) ∅ (cards deck).

Inductive Phase := pre | mid | post.

Record ChecklistMetadata := {
  generatedAt : string;
  context : option string;
}.

Record QuestionSet := {
  questions_of : list MetacognitionQuestion;
}.

Record MetacognitionChecklist := {
  phase : Phase;
  questions : list MetacognitionQuestion;
  metadata : option ChecklistMetadata;
  preStudy : option QuestionSet;
  postStudy : option QuestionSet;
}.

Definition preStudyQuestions : list MetacognitionQuestion := [
  {| question_id := "pre-1";
     question_text := "오늘 학습할 주제에 대해 얼마나 알고 있다고 생각하세요?";
     question_type := rating; scale := Some 5; options := None |};
  {| question_id := "pre-2";
     question_text := "오늘의 학습 목표를 떠올릴 수 있나요?";
     question_type := yesno; scale := None; options := None |};
  {| question_id := "pre-3";
     question_text := "지금 집중 상태는 어떤가요?";
     question_type := selection; scale := None;
     options := Some ["완전히 집중됨"; "어느 정도 집중됨"; "집중이 어려운 상태"] |};
  {| question_id := "pre-4";
     question_text := "오늘 학습에서 특히 어려운 부분이 있다면 적어보세요.";
     question_type := text; scale := None; options := None |}
].

Definition midStudyQuestions : list MetacognitionQuestion := [
  {| question_id := "mid-1";
     question_text := "지금까지의 학습 내용을 얼마나 이해했다고 생각하세요?";
     question_type := rating; scale := Some 5; options := None |};
  {| question_id := "mid-2";
     question_text := "집중력이 유지되고 있나요?";
     question_type := yesno; scale := None; options := None |};
  {| question_id := "mid-3";
     question_text := "가장 어려운 개념이 무엇인지 떠올릴 수 있나요?";
     question_type := selection; scale := None;
     options := Some ["명확하게 떠올릴 수 있음"; "대략적으로 떠올릴 수 있음"; "떠올릴 수 없음"] |}
].

Section checklists.
Context `{Host}.

Definition createPreStudyMetacognition (topic : option string) : MetacognitionChecklist := {|
  phase := pre;
  questions := preStudyQuestions;
  metadata := Some {| generatedAt := isoNow; context := topic |};
  preStudy := Some {| questions_of := preStudyQuestions |};
  postStudy := None;
|}.

Definition createMidStudyCheck : MetacognitionChecklist := {|
  phase := mid;
  questions := midStudyQuestions;
  metadata := Some {| generatedAt := isoNow; context := None |};
  preStudy := None;
  postStudy := None;
|}.

End checklists.

(** ** [lib/ai-enhanced.ts]: practice problems *)

Record SimilarProblem := {
  question : string;
  answer : string;
  variationType : string;
  explanation : string;
  problem_difficulty : Difficulty;
}.

Record Variation := {
  variation : string;
  template : string -> string;
}.

Definition variationTypes (back : string) : list Variation := [
  {| variation := "개념 재정의";
     template := fun q => "다음 개념을 자신의 말로 설명해보세요: " +:+ q |};
  {| variation := "역방향 질문";
     template := fun q => dquote +:+ back +:+ dquote
                          +:+ "이 답일 때, 이에 맞는 질문을 세우세요. (원래: " +:+ q +:+ ")" |};
  {| variation := "예시 적용";
     template := fun q => q +:+ "의 실제 예시 3가지를 들어보세요." |};
  {| variation := "비교 분석";
     template := fun q => q +:+ "와 관련된 유사한 개념과의 차이점을 설명하세요." |};
  {| variation := "원인-결과";
     template := fun q => q +:+ "가 발생하는 원인과 그 결과를 분석하세요." |};
  {| variation := "공식 변환";
     template := fun q => q +:+ "에 관련된 핵심 공식을 유도하고 변환하세요." |}
].

Definition explanations : list string := [
  "원래 질문의 개념을 자신의 표현으로 다시 정리하는 연습입니다.";
  "답에서 질문으로 역추적하면 이해도가 깊어집니다.";
  "실제 상황에 적용하면 이론의 활용성을 파악할 수 있습니다.";
  "유사한 개념과 비교하면 구별 능력이 높아집니다.";
  "원인과 결과를 연결하면 논리적 사고력이 강화됩니다.";
  "공식 유도와 변환은 깊은 이해의 증거입니다."
].

(** The problem that the loop pushes at index [i]. *)
Definition similarProblem (front back : string) (i : nat) : SimilarProblem :=
  let idx := (i mod length (variationTypes back))%nat in
  let v := default {| variation := ""; template := fun q => q |} (variationTypes back !! idx) in
  {| question := template v front;
     answer := back;
     variationType := variation v;
     explanation := default "" (explanations !! idx);
     problem_difficulty :=
       if (i =? 0)%nat then easy else if (i =? 1)%nat then medium else hard |}.

(** The loop [for (i = 0; i < count && i < variationTypes.length; i++)],
    entered at [i] with [left] variations to go. *)
Fixpoint similarFrom (front back : string) (count : float) (i left : nat)
    : list SimilarProblem :=
  match left with
  | O => []
  | S left' =>
      if ofNat i <? count
      then similarProblem front back i :: similarFrom front back count (S i) left'
      else []
  end.

(** [count] defaults to [3]. *)
Definition generateSimilarProblems (card : Flashcard) (count : option float)
    : list SimilarProblem :=
  similarFrom (front card) (back card) (nullish count 3) 0 (length (variationTypes (back card))).

(** ** [lib/ai-enhanced.ts]: strong and weak topics *)

(** The order of [Object.entries]: the keys that are array indices (a
    decimal numeral without a leading zero, below [2^32 - 1]) come
    first, in ascending order, and the other keys follow in the order
    in which they were created. *)
Definition digit (c : Ascii.ascii) : option N :=
  let n := Ascii.N_of_ascii c in
  if (48 <=? n)%N && (n <=? 57)%N then Some (n - 48)%N else None.

Fixpoint decimal (s : string) (acc : N) : option N :=
  match s with
  | EmptyString => Some acc
  | String c s' => d ← digit c; decimal s' (10 * acc + d)%N
  end.

Definition indexKey (key : string) : option N :=
  match key with
  | EmptyString => None
  | String c rest =>
      if bool_decide (key = "0") then Some 0%N
      else if bool_decide (c = Ascii.ascii_of_nat 48) then None
      else n ← decimal key 0; if (n <? 2 ^ 32 - 1)%N then Some n else None
  end.

Fixpoint insertIndex (k : N * string) (l : list (N * string)) : list (N * string) :=
  match l with
  | [] => [k]
  | k' :: l' => if (k'.1 <? k.1)%N then k' :: insertIndex k l' else k :: l
  end.

Definition ownKeys (created : list string) : list string :=
  let keys := uniq created in
  (snd <$> foldr insertIndex [] (omap (fun k => (fun n => (n, k)) <$> indexKey k) keys))
  ++ List.filter (fun k => bool_decide (indexKey k = None)) keys.

Module Weakness.

Inductive priority := high | medium | low.

Inductive trend := improving | stable | declining.

End Weakness.

Record WeakArea := {
  weak_chapter : string;
  errorRate : float;
  priority : Weakness.priority;
  recommendedActions : list string;
}.

Record WeaknessAnalysisResult := {
  averageAccuracy : float;
  strongAreas : list string;
  overallWeakAreas : list WeakArea;
  improvementTrend : Weakness.trend;
  recommendations : list string;
}.

(** The labels of the decks, in the order of the decks, and the
    entries of the statistics in the order of [Object.entries]. *)
Definition chapterLabels (decks : list FlashcardDeck) : list string :=
  (fun deck => propertyKey (strOr (category deck) (title deck))) <$> decks.

Definition chapterEntries (decks : list FlashcardDeck) : list (string * ChapterStat) :=
  omap (fun k => (fun stats => (k, stats)) <$> chapterStats decks !! k)
       (ownKeys (chapterLabels decks)).

Definition actionsFor (p : Weakness.priority) : list string :=
  match p with
  | Weakness.high =>
      ["기본 개념 재학습 권장"; "관련 카드 집중 복습"; "단순 암기 → 이해 중심으로 전환"]
  | Weakness.medium => ["복습 간격 줄이기"; "유사 문제 연습"]
  | Weakness.low => ["정기 복습 유지"]
  end.

(** The four variables that the loop over the entries updates. *)
Record Tally := {
  strong : list string;
  weak : list WeakArea;
  totalCards : float;
  totalCorrectCards : float;
}.

Definition tallyChapter (t : Tally) (entry : string * ChapterStat) : Tally :=
  let '(chapter, stats) := entry in
  if total stats =? 0 then t
  else
    let accuracy := correct stats / total stats in
    let totalCards := totalCards t + total stats in
    let totalCorrectCards := totalCorrectCards t + correct stats in
    if 0.8 <=? accuracy then
      {| strong := strong t ++ [chapter]; weak := weak t;
         totalCards := totalCards; totalCorrectCards := totalCorrectCards |}
    else
      let errorRate := 1 - accuracy in
      let priority :=
        if 0.6 <=? errorRate then Weakness.high
        else if 0.4 <=? errorRate then Weakness.medium
        else Weakness.low in
      {| strong := strong t;
         weak := weak t ++ [{| weak_chapter := chapter; errorRate := errorRate;
                               priority := priority;
                               recommendedActions := actionsFor priority |}];
         totalCards := totalCards; totalCorrectCards := totalCorrectCards |}.

Definition pOrder (p : Weakness.priority) : float :=
  match p with
  | Weakness.high => 0
  | Weakness.medium => 1
  | Weakness.low => 2
  end.

Definition analyzeWeaknessPatterns (decks : list FlashcardDeck) : WeaknessAnalysisResult :=
  let entries := chapterEntries decks in
  let tally :=
    foldl tallyChapter
          {| strong := []; weak := []; totalCards := 0; totalCorrectCards := 0 |} entries in
  let strongAreas := strong tally in
  let overallWeakAreas :=
    Array_sort (fun a b => pOrder (priority a) - pOrder (priority b)) (weak tally) in
  let averageAccuracy :=
    if 0 <? totalCards tally then totalCorrectCards tally / totalCards tally else 0 in
  let weakRatio :=
    ofNat (length overallWeakAreas) / orElse (Some (ofNat (length entries))) 1 in
  {| averageAccuracy := averageAccuracy;
     strongAreas := strongAreas;
     overallWeakAreas := overallWeakAreas;
     improvementTrend :=
       if weakRatio <? 0.3 then Weakness.improving
       else if weakRatio <? 0.6 then Weakness.stable
       else Weakness.declining;
     recommendations :=
       match overallWeakAreas with
       | area :: _ =>
           ["약점 과목 " +:+ dquote +:+ weak_chapter area +:+ dquote +:+ "에 학습 시간 집중 필요"]
       | [] => []
       end
       ++ match strongAreas with
          | chapter :: _ =>
              ["강점 과목 " +:+ dquote +:+ chapter +:+ dquote +:+ "의 복습 간격을 늘려 효율 향상"]
          | [] => []
          end
       ++ (if averageAccuracy <? 0.6 then ["전체 정확도가 낮으므로 기본 개념 강화 권장"] else [])
       ++ ["매일 약 30분씩 약점 카드를 우선 복습하세요";
           "강점 과목과 약점 과목을 교대로 학습하여 효과 극대화"] |}.

(** ** [lib/ai-enhanced.ts]: the diagnosis of one answer *)

(** The rendering of text: [toFixedString x f] is [x.toFixed(f)] and
    [substring s i j] is [s.substring(i, j)], which counts UTF-16 code
    units. *)
Class Text := {
  toFixedString : float -> nat -> string;
  substring : string -> nat -> nat -> string;
}.

Module Diagnosis.

Inductive level := excellent | good | fair | poor.

(** [level.toUpperCase()]. *)
Definition upperCase (l : level) : string :=
  match l with
  | excellent => "EXCELLENT"
  | good => "GOOD"
  | fair => "FAIR"
  | poor => "POOR"
  end.

End Diagnosis.

Record DiagnosisResult := {
  understandingLevel : Diagnosis.level;
  confidenceScore : float;
  diagnosis_recommendations : list string;
  detailedAnalysis : string;
}.

(** The level of an answer and the confidence before rounding. *)
Definition gauge (responseTimeMs : float) (isCorrect : bool) : Diagnosis.level * float :=
  let thresholdFast := 8000 in
  let thresholdMedium := 15000 in
  if isCorrect then
    if responseTimeMs <? thresholdFast then
      (Diagnosis.excellent, 0.9 + (1 - responseTimeMs / thresholdFast) * 0.1)
    else if responseTimeMs <? thresholdMedium then
      (Diagnosis.good,
       0.7 + (thresholdMedium - responseTimeMs) / (thresholdMedium - thresholdFast) * 0.15)
    else
      (Diagnosis.fair, 0.5 + (1 - Math_min (responseTimeMs / 30000) 1) * 0.15)
  else
    if responseTimeMs <? thresholdFast then (Diagnosis.poor, 0.2)
    else (Diagnosis.poor, 0.25).

Definition recommendationsFor (l : Diagnosis.level) : list string :=
  match l with
  | Diagnosis.excellent =>
      ["이 개념은 잘 이해되고 있습니다. 복습 간격을 늘려도 됩니다.";
       "깊은 이해를 위해 관련 응용 문제를 도전해보세요."]
  | Diagnosis.good =>
      ["기본 이해는 되었지만, 빠른 회상을 위한 반복 복습이 좋겠습니다.";
       "관련 개념과 연결하여 기억력을 강화하세요."]
  | Diagnosis.fair =>
      ["정답은 맞았지만 시간이 많이 걸렸습니다. 복습 간격을 줄여야 합니다.";
       "이 개념의 핵심을 간결하게 정리하여 복습하세요."]
  | Diagnosis.poor =>
      ["이 개념을 다시 학습해야 합니다.";
       "기본 정의와 공식부터 차근차근 복습하세요.";
       "관련 예제 문제를 풀어보여 이해도를 높여야 합니다."]
  end.

Section diagnosis.
Context `{Text}.

Definition diagnoseUnderstanding (card : option Flashcard) (responseTimeMs : float)
    (isCorrect : bool) : DiagnosisResult :=
  let '(level, confidenceScore) := gauge responseTimeMs isCorrect in
  let confidenceScore := Math_min 1 (Math_max 0 (parseFloat_toFixed 3 confidenceScore)) in
  let front := default "" (strOr (front <$> card) (Some "이 개념")) in
  {| understandingLevel := level;
     confidenceScore := confidenceScore;
     diagnosis_recommendations := recommendationsFor level;
     detailedAnalysis :=
       "카드 " +:+ dquote +:+ substring front 0 30 +:+ "..." +:+ dquote +:+ "에 대해 "
       +:+ toFixedString (responseTimeMs / 1000) 1 +:+ "초 내에 "
       +:+ (if isCorrect then "정답" else "오답") +:+ "을 제출했습니다. "
       +:+ "이해 수준: " +:+ Diagnosis.upperCase level
       +:+ ", 신뢰도: " +:+ toFixedString (confidenceScore * 100) 0 +:+ "%" |}.

End diagnosis.

(** ** Sample values

    A concrete environment, and cards and decks for closed instances of
    the statements below. In [fixedHost] three dates parse, a date up to
    a hundred million days ahead can be rendered, and every random draw
    is one half. *)

Definition fixedHost : Host := {|
  isoNow := "2026-01-01T00:00:00.000Z";
  isoAfterDays := fun n =>
    if isFinite n && (abs n <? 100000000) then Some "2026-01-02T00:00:00.000Z" else None;
  getTime := fun s =>
    if bool_decide (s = "2026-01-01") then 1767225600000
    else if bool_decide (s = "2026-01-02") then 1767312000000
    else if bool_decide (s = "2026-01-03") then 1767398400000
    else nan;
  dateNow := 1767225600000;
  toLowerCase := fun s => s;
  random := fun _ => 0.5;
|}.

Definition mkCard (i : string) (d : Difficulty) (ef iv reps : float) (due : string) : Flashcard := {|
  card_id := i; front := "Q"; back := "A";
  chapter := None; card_section := None;
  difficulty := d; easeFactor := ef; interval := iv; repetitions := reps;
  nextReviewDate := due; lastReviewDate := None;
  card_tags := None; visualMedia := None;
|}.

Definition biologyDeck : FlashcardDeck := {|
  deck_id := "d1"; name := "Biology"; description := "";
  cards := [mkCard "c1" medium 2.5 6 3 "2026-01-01";
            mkCard "c2" hard 1.8 1 1 "2026-01-02";
            mkCard "c3" easy 2.7 15 4 "2026-01-03"];
  createdAt := ""; updatedAt := ""; deck_tags := None; category := None;
|}.

Definition twoDecks : list FlashcardDeck := [
  biologyDeck;
  {| deck_id := "d2"; name := "Chemistry"; description := "";
     cards := [mkCard "k1" medium 2.5 1 0 "2026-01-01"];
     createdAt := ""; updatedAt := ""; deck_tags := None; category := Some "science" |}
].

Definition ratingOutOf5 : MetacognitionQuestion := {|
  question_id := "q1"; question_text := "How well do you know the topic?";
  question_type := rating; scale := Some 5; options := None;
|}.

Definition studyQueue : list Flashcard := [
  mkCard "a" easy 2.5 1 1 "2026-01-02";
  mkCard "b" medium 2.5 1 1 "2026-01-01";
  mkCard "c" hard 2.0 1 1 "2026-01-01";
  mkCard "d" hard 1.5 1 1 "2026-01-01";
  mkCard "e" hard 1.5 1 1 "2026-01-01"
].

(** A session with two failed reviews, and one without. *)
Definition mkResult (i : string) (q : float) (t : option float) : ReviewResult := {|
  cardId := i; quality := q; reviewedAt := "2026-01-01T00:00:00.000Z";
  timeTaken := t; isCorrect := None;
|}.

Definition sampleSession : StudySession := {|
  session_id := "s1"; deckId := "d1"; startedAt := "2026-01-01T00:00:00.000Z";
  endedAt := None; mode := normal;
  results := [mkResult "a" 2 (Some 1000); mkResult "b" 4 (Some 2001);
              mkResult "a" 1 None; mkResult "c" 5 (Some 0)];
|}.

Definition perfectSession : StudySession := {|
  session_id := "s2"; deckId := "d1"; startedAt := "2026-01-01T00:00:00.000Z";
  endedAt := None; mode := normal;
  results := [mkResult "a" 3 None; mkResult "b" 4 None; mkResult "c" 5 None];
|}.

(** A subject with two grades and no grade set by hand. *)
Definition gradedSubject : Subject := {|
  subject_id := "math"; subject_name := "Mathematics"; credits := 3; targetGPA := 4;
  currentGrade := None; semester := "1-1";
  assignments := Some [{| grade_id := "a1"; grade_type := assignment; grade_title := "Homework";
                          score := 92; weight := 0.4; grade_date := "2026-01-01" |}];
  exams := Some [{| grade_id := "e1"; grade_type := exam; grade_title := "Final";
                    score := 81; weight := 0.6; grade_date := "2026-01-02" |}];
|}.

(** * Properties *)

Example round_15 : Math_round (6 * 2.5) = 15.
Proof. vm_compute. reflexivity. Qed.

Example round_ties : Math_round 2.5 = 3 /\ Math_round (-2.5) = (-2) /\ Math_round 0.4 = 0.
Proof. vm_compute. repeat split. Qed.

Example floor_values : Math_floor 2.7 = 2 /\ Math_floor (-2.5) = (-3) /\ Math_floor 0.4 = 0.
Proof. vm_compute. repeat split. Qed.

Example trunc_values :
  toIntegerOrInfinity 2.7 = Fin 2 /\ toIntegerOrInfinity (-2.7) = Fin (-2)
  /\ toIntegerOrInfinity 20 = Fin 20.
Proof. vm_compute. repeat split. Qed.

(** ** Facts on binary64 numbers *)

Section shift_right.
Variables prec emax : Z.

Lemma shr_1_div2 (r : shr_record) :
  (0 <= shr_m r)%Z -> shr_m (shr_1 r) = Z.div2 (shr_m r).
Proof.
  destruct r as [m r s]. simpl. destruct m as [|[p|p|]|p]; simpl; intros Hm; try reflexivity.
  lia.
Qed.

Lemma pow2_xO (p : positive) : (2 ^ Z.pos p~0 = 2 ^ Z.pos p * 2 ^ Z.pos p)%Z.
Proof. rewrite <- Z.pow_add_r by lia. f_equal. lia. Qed.

Lemma pow2_xI (p : positive) : (2 ^ Z.pos p~1 = 2 * (2 ^ Z.pos p * 2 ^ Z.pos p))%Z.
Proof. rewrite <- Z.pow_add_r, <- Z.pow_succ_r by lia. f_equal. lia. Qed.

Lemma iter_pos_shr_1 (p : positive) (r : shr_record) :
  (0 <= shr_m r)%Z -> shr_m (SpecFloat.iter_pos shr_1 p r) = (shr_m r / 2 ^ Z.pos p)%Z.
Proof.
  revert r. induction p as [p IH|p IH|]; intros r Hr; simpl SpecFloat.iter_pos.
  - assert (H1 : (0 <= shr_m (shr_1 r))%Z).
    { rewrite shr_1_div2 by assumption. rewrite Z.div2_div. apply Z.div_pos; lia. }
    assert (H2 : (0 <= shr_m (SpecFloat.iter_pos shr_1 p (shr_1 r)))%Z).
    { rewrite IH by assumption. apply Z.div_pos; lia. }
    rewrite IH by assumption. rewrite IH by assumption.
    rewrite shr_1_div2 by assumption. rewrite Z.div2_div.
    rewrite !Z.div_div by lia. rewrite pow2_xI. f_equal; ring.
  - assert (H2 : (0 <= shr_m (SpecFloat.iter_pos shr_1 p r))%Z).
    { rewrite IH by assumption. apply Z.div_pos; lia. }
    rewrite IH by assumption. rewrite IH by assumption.
    rewrite !Z.div_div by lia. rewrite pow2_xO. reflexivity.
  - rewrite shr_1_div2 by assumption. rewrite Z.div2_div. reflexivity.
Qed.

Lemma shr_m_shr (r : shr_record) (e n : Z) :
  (0 <= shr_m r)%Z ->
  shr_m (fst (shr r e n)) = (shr_m r / 2 ^ Z.max 0 n)%Z
  /\ snd (shr r e n) = (e + Z.max 0 n)%Z.
Proof.
  intros Hr. destruct n as [|p|p]; simpl.
  - rewrite Z.div_1_r. split; [reflexivity | lia].
  - rewrite iter_pos_shr_1 by assumption. split; reflexivity.
  - rewrite Z.div_1_r. split; [reflexivity | lia].
Qed.

Lemma shr_m_record_of_loc (m : Z) (l : location) : shr_m (shr_record_of_loc m l) = m.
Proof. destruct l as [|[]]; reflexivity. Qed.

Lemma shr_fexp_spec (m e : Z) (l : location) :
  (0 <= m)%Z ->
  let n := Z.max 0 (fexp prec emax (Zdigits2 m + e) - e) in
  shr_m (fst (shr_fexp prec emax m e l)) = (m / 2 ^ n)%Z
  /\ snd (shr_fexp prec emax m e l) = (e + n)%Z.
Proof.
  intros Hm n. unfold shr_fexp.
  pose proof (shr_m_shr (shr_record_of_loc m l) e (fexp prec emax (Zdigits2 m + e) - e)) as Hs.
  rewrite shr_m_record_of_loc in Hs. apply Hs. exact Hm.
Qed.

Lemma round_nearest_even_range (m : Z) (l : location) :
  (m <= round_nearest_even m l <= m + 1)%Z.
Proof. destruct l as [|[]]; simpl; try destruct (Z.even m); lia. Qed.

(** Rounding a magnitude never yields [NaN]. *)
Lemma binary_round_aux_not_nan (sx : bool) (mx ex : Z) (lx : location) :
  (0 <= mx)%Z -> binary_round_aux prec emax sx mx ex lx <> S754_nan.
Proof.
  intros Hm. unfold binary_round_aux.
  pose proof (shr_fexp_spec mx ex lx Hm) as [H1 _].
  destruct (shr_fexp prec emax mx ex lx) as [r1 e1]. simpl in H1.
  assert (H1' : (0 <= shr_m r1)%Z) by (rewrite H1; apply Z.div_pos; lia).
  pose proof (round_nearest_even_range (shr_m r1) (loc_of_shr_record r1)) as Hr.
  set (m2 := round_nearest_even (shr_m r1) (loc_of_shr_record r1)) in *.
  assert (Hm2 : (0 <= m2)%Z) by lia.
  pose proof (shr_fexp_spec m2 e1 loc_Exact Hm2) as [H2 _].
  destruct (shr_fexp prec emax m2 e1 loc_Exact) as [r2 e2]. simpl in H2.
  assert (H2' : (0 <= shr_m r2)%Z) by (rewrite H2; apply Z.div_pos; lia).
  destruct (shr_m r2) as [|p|p]; [discriminate| |lia].
  destruct (e2 <=? emax - prec)%Z; discriminate.
Qed.

Lemma binary_normalize_not_nan (m e : Z) (s : bool) :
  binary_normalize prec emax m e s <> S754_nan.
Proof.
  destruct m as [|p|p]; simpl; [discriminate| |];
    unfold binary_round; destruct (shl_align _ _ _) as [mz ez];
    apply binary_round_aux_not_nan; lia.
Qed.

End shift_right.

(** *** The order of binary64 numbers *)

Lemma eqb_0_1 (x : float) : (x =? 0) = true -> (x =? 1) = false.
Proof.
  rewrite !FloatAxioms.eqb_spec.
  replace (Prim2SF 0) with (S754_zero false) by (vm_compute; reflexivity).
  destruct (Prim2SF x) as [[]|[]| |[] m e]; try discriminate.
  all: intros _; vm_compute; reflexivity.
Qed.

Lemma SFcompare_antisym (x y : spec_float) :
  SFcompare y x = CompOpp <$> SFcompare x y.
Proof.
  destruct x as [sx|sx| |sx mx ex], y as [sy|sy| |sy my ey]; simpl;
    try destruct sx; try destruct sy; simpl; try reflexivity.
  all: rewrite (Z.compare_antisym ey ex); destruct (ey ?= ex)%Z; simpl; try reflexivity.
  all: try (rewrite (Pos.compare_cont_antisym my mx Eq); simpl; try rewrite CompOpp_involutive; reflexivity).
  all: f_equal; symmetry; apply (Pos.compare_cont_antisym mx my Eq).
Qed.

Lemma SFcompare_refl (x : spec_float) : notNaN x -> SFcompare x x = Some Eq.
Proof.
  destruct x as [sx|sx| |sx mx ex]; simpl; intros Hx; try congruence.
  - destruct sx; reflexivity.
  - rewrite Z.compare_refl. fold (Pos.compare mx mx). rewrite Pos.compare_refl.
    destruct sx; reflexivity.
Qed.

Lemma SFcompare_notNaN (x y : spec_float) :
  notNaN x -> notNaN y -> exists c, SFcompare x y = Some c.
Proof.
  destruct x, y; simpl; intros Hx Hy; try congruence; eexists; reflexivity.
Qed.

Lemma SFleb_notNaN (x y : spec_float) : SFleb x y = true -> notNaN x /\ notNaN y.
Proof. destruct x, y; simpl; try discriminate; split; discriminate. Qed.

Lemma SFleb_of_not_ltb (x y : spec_float) :
  notNaN x -> notNaN y -> SFltb x y = false -> SFleb y x = true.
Proof.
  intros Hx Hy. unfold SFltb, SFleb. rewrite (SFcompare_antisym x y).
  destruct (SFcompare_notNaN x y Hx Hy) as [c ->]. destruct c; simpl; congruence.
Qed.

(** A sum is [NaN] only for a [NaN] operand or opposite infinities. *)
Lemma SFadd_notNaN (x y : spec_float) :
  notNaN x -> notNaN y -> (forall s, y <> S754_infinity s) ->
  notNaN (SF64add x y).
Proof.
  unfold notNaN, SF64add.
  destruct x as [sx|sx| |sx mx ex], y as [sy|sy| |sy my ey]; simpl;
    intros Hx Hy Hinf; try congruence;
    try (destruct sx, sy; discriminate); try (specialize (Hinf sy); congruence).
  apply binary_normalize_not_nan.
Qed.

Lemma digits2_size (m : positive) : digits2_pos m = Pos.size m.
Proof. induction m as [m IH|m IH|]; simpl; rewrite ?IH; reflexivity. Qed.

Lemma digits2_bounds (m : positive) :
  (2 ^ (Z.pos (digits2_pos m) - 1) <= Z.pos m < 2 ^ Z.pos (digits2_pos m))%Z.
Proof.
  rewrite digits2_size. split.
  - pose proof (Pos.size_le m) as H.
    apply Pos2Z.pos_le_pos in H. rewrite Pos2Z.inj_pow in H.
    replace (Z.pos (Pos.size m)) with (Z.succ (Z.pos (Pos.size m) - 1)) in H by lia.
    rewrite Z.pow_succ_r in H by lia. lia.
  - pose proof (Pos.size_gt m) as H.
    apply Pos2Z.pos_lt_pos in H. rewrite Pos2Z.inj_pow in H. exact H.
Qed.

(** The bounds of a binary64 number [m * 2^e]. *)
Lemma valid_finite (s : bool) (m : positive) (e : Z) :
  valid_binary (S754_finite s m e) = true ->
  (-1074 <= e <= 971)%Z
  /\ (Z.pos (digits2_pos m) <= 53)%Z
  /\ (-1074 < e -> Z.pos (digits2_pos m) = 53)%Z.
Proof.
  unfold SpecFloat.valid_binary, bounded, canonical_mantissa, fexp, SpecFloat.emin, prec, emax.
  intros H. apply andb_true_iff in H as [H1 H2].
  apply Z.eqb_eq in H1. apply Z.leb_le in H2. lia.
Qed.

Lemma shl_align_fst (m : positive) (e e' : Z) :
  (e' <= e)%Z -> Z.pos (fst (shl_align m e e')) = (Z.pos m * 2 ^ (e - e'))%Z.
Proof.
  intros He. unfold shl_align. destruct (e' - e)%Z as [|d|d] eqn:Hd; simpl fst.
  - replace (e - e')%Z with 0%Z by lia. lia.
  - lia.
  - change (Pos.iter xO m d) with (shift_pos d m). rewrite shift_pos_correct.
    rewrite Zpower_pos_nat, Zpower_nat_Z, positive_nat_Z.
    replace (e - e')%Z with (Z.pos d) by lia. lia.
Qed.

Lemma scaled_finite_bounds (s : bool) (m : positive) (e : Z) :
  valid_binary (S754_finite s m e) = true ->
  (2 ^ (Z.pos (digits2_pos m) - 1 + (e + 1074)) <= Z.pos m * 2 ^ (e + 1074)
   < 2 ^ (Z.pos (digits2_pos m) + (e + 1074)))%Z.
Proof.
  intros Hv. apply valid_finite in Hv as (He & Hd & _).
  pose proof (digits2_bounds m) as [Hlo Hhi].
  assert (Hp : (0 < 2 ^ (e + 1074))%Z) by (apply Z.pow_pos_nonneg; lia).
  rewrite (Z.pow_add_r 2 (Z.pos (digits2_pos m) - 1) (e + 1074)) by lia.
  rewrite (Z.pow_add_r 2 (Z.pos (digits2_pos m)) (e + 1074)) by lia.
  split.
  - apply Z.mul_le_mono_nonneg_r; lia.
  - apply Z.mul_lt_mono_pos_r; lia.
Qed.

Lemma scaled_finite_compare (m1 m2 : positive) (e1 e2 : Z) :
  valid_binary (S754_finite false m1 e1) = true ->
  valid_binary (S754_finite false m2 e2) = true ->
  (Z.pos m1 * 2 ^ (e1 + 1074) ?= Z.pos m2 * 2 ^ (e2 + 1074))%Z
  = match (e1 ?= e2)%Z with
    | Eq => Pos.compare_cont Eq m1 m2
    | c => c
    end.
Proof.
  intros H1 H2.
  pose proof (scaled_finite_bounds _ _ _ H1) as B1.
  pose proof (scaled_finite_bounds _ _ _ H2) as B2.
  apply valid_finite in H1 as (He1 & Hd1 & Hn1).
  apply valid_finite in H2 as (He2 & Hd2 & Hn2).
  destruct (Z.compare_spec e1 e2) as [->|Hlt|Hgt].
  - change (Pos.compare_cont Eq m1 m2) with (Z.pos m1 ?= Z.pos m2)%Z.
    assert (Hp : (0 < 2 ^ (e2 + 1074))%Z) by (apply Z.pow_pos_nonneg; lia).
    destruct (Z.compare_spec (Z.pos m1) (Z.pos m2)) as [Heq|Hl|Hg].
    + rewrite Heq. apply Z.compare_refl.
    + apply Z.compare_lt_iff. nia.
    + apply Z.compare_gt_iff. nia.
  - apply Z.compare_lt_iff. rewrite (Hn2 ltac:(lia)) in B2.
    eapply Z.lt_le_trans; [apply B1|]. etrans; [|apply B2].
    apply Z.pow_le_mono_r; lia.
  - apply Z.compare_gt_iff. rewrite (Hn1 ltac:(lia)) in B1.
    eapply Z.lt_le_trans; [apply B2|]. etrans; [|apply B1].
    apply Z.pow_le_mono_r; lia.
Qed.

Lemma scaled_finite_below (s : bool) (m : positive) (e : Z) :
  valid_binary (S754_finite s m e) = true ->
  (0 < Z.pos m * 2 ^ (e + 1074) < 2 ^ 2098)%Z.
Proof.
  intros Hv. pose proof (scaled_finite_bounds _ _ _ Hv) as [_ Hhi].
  apply valid_finite in Hv as (He & Hd & _). split.
  - apply Z.mul_pos_pos; [lia|]. apply Z.pow_pos_nonneg; lia.
  - eapply Z.lt_le_trans; [exact Hhi|]. apply Z.pow_le_mono_r; lia.
Qed.

(** On binary64 numbers, the order of the values is the order of the
    scaled integers. *)
Lemma SFcompare_scaled (x y : spec_float) :
  valid_binary x = true -> valid_binary y = true -> notNaN x -> notNaN y ->
  SFcompare x y = Some (scaled x ?= scaled y)%Z.
Proof.
  intros Hx Hy Nx Ny.
  destruct x as [sx|sx| |sx mx ex], y as [sy|sy| |sy my ey]; try (by destruct Nx); try (by destruct Ny).
  all: try pose proof (scaled_finite_below _ _ _ Hx) as Bx.
  all: try pose proof (scaled_finite_below _ _ _ Hy) as By.
  all: unfold scaled, SFcompare, cond_Zopp.
  all: assert (Hbig : (0 < 2 ^ 2098)%Z) by (apply Z.pow_pos_nonneg; lia).
  all: set (big := (2 ^ 2098)%Z) in *; clearbody big.
  all: try set (vx := (Z.pos mx * 2 ^ (ex + 1074))%Z) in *.
  all: try set (vy := (Z.pos my * 2 ^ (ey + 1074))%Z) in *.
  all: try (destruct sx); try (destruct sy); f_equal; symmetry.
  all: try (apply Z.compare_eq_iff; lia).
  all: try (apply Z.compare_lt_iff; lia).
  all: try (apply Z.compare_gt_iff; lia).
  - rewrite Z.compare_opp. subst vx vy.
    rewrite (scaled_finite_compare my mx ey ex Hy Hx).
    rewrite (Z.compare_antisym ey ex).
    destruct (ey ?= ex)%Z; simpl; try reflexivity.
    symmetry. apply (Pos.compare_cont_antisym mx my Eq).
  - subst vx vy. apply (scaled_finite_compare mx my ex ey Hx Hy).
Qed.

(** Rounding a positive magnitude with an exponent in range gives a
    positive magnitude: binary64 has gradual underflow. *)
Lemma shr_fexp_positive (m e : Z) (l : location) :
  (0 < m)%Z -> (-1074 <= e)%Z ->
  (0 < shr_m (fst (shr_fexp prec emax m e l)))%Z
  /\ (-1074 <= snd (shr_fexp prec emax m e l))%Z.
Proof.
  intros Hm He.
  destruct (shr_fexp_spec prec emax m e l ltac:(lia)) as [-> ->].
  destruct m as [|p|p]; try lia. cbn [Zdigits2].
  pose proof (digits2_bounds p) as [Hlo _].
  set (d := Z.pos (digits2_pos p)) in *.
  assert (Hd : (1 <= d)%Z) by (unfold d; lia).
  set (n := Z.max 0 (fexp prec emax (d + e) - e)).
  assert (Hn : (0 <= n <= d - 1)%Z).
  { unfold n, fexp, SpecFloat.emin, prec, emax. lia. }
  split; [|lia].
  apply Z.div_str_pos. split; [apply Z.pow_pos_nonneg; lia|].
  etrans; [|exact Hlo]. apply Z.pow_le_mono_r; lia.
Qed.

Lemma binary_round_aux_sign (sx : bool) (mx ex : Z) :
  (0 < mx)%Z -> (-1074 <= ex)%Z ->
  binary_round_aux prec emax sx mx ex loc_Exact = S754_infinity sx
  \/ exists m e, binary_round_aux prec emax sx mx ex loc_Exact = S754_finite sx m e.
Proof.
  intros Hm He. unfold binary_round_aux.
  pose proof (shr_fexp_positive mx ex loc_Exact Hm He) as [H1 He1].
  destruct (shr_fexp prec emax mx ex loc_Exact) as [r1 e1]. simpl in H1, He1.
  pose proof (round_nearest_even_range (shr_m r1) (loc_of_shr_record r1)) as Hr.
  set (m2 := round_nearest_even (shr_m r1) (loc_of_shr_record r1)) in *.
  pose proof (shr_fexp_positive m2 e1 loc_Exact ltac:(lia) He1) as [H2 _].
  destruct (shr_fexp prec emax m2 e1 loc_Exact) as [r2 e2]. simpl in H2.
  destruct (shr_m r2) as [|p|p]; try lia.
  destruct (e2 <=? emax - prec)%Z; eauto.
Qed.

(** The sign of a rounded integer [m * 2^e]. *)
Lemma binary_normalize_sign (m e : Z) :
  (-1074 <= e)%Z ->
  match m with
  | Z0 => binary_normalize prec emax m e false = S754_zero false
  | Z.pos _ =>
      binary_normalize prec emax m e false = S754_infinity false
      \/ exists m' e', binary_normalize prec emax m e false = S754_finite false m' e'
  | Z.neg _ =>
      binary_normalize prec emax m e false = S754_infinity true
      \/ exists m' e', binary_normalize prec emax m e false = S754_finite true m' e'
  end.
Proof.
  intros He. destruct m as [|p|p]; [reflexivity| |];
    unfold binary_normalize, binary_round;
    destruct (shl_align p e _) as [mz ez] eqn:Hs;
    apply binary_round_aux_sign; try lia.
  all: unfold shl_align in Hs;
    destruct (fexp prec emax (Z.pos (digits2_pos p) + e) - e)%Z eqn:Hf;
    injection Hs as <- <-; try lia;
    unfold fexp, SpecFloat.emin, prec, emax in *; lia.
Qed.

Lemma scaled_aligned (s : bool) (m : positive) (e ez : Z) :
  (-1074 <= ez <= e)%Z ->
  scaled (S754_finite s m e)
  = (cond_Zopp s (Z.pos (fst (shl_align m e ez))) * 2 ^ (ez + 1074))%Z.
Proof.
  intros He. rewrite shl_align_fst by lia. unfold scaled.
  replace (e + 1074)%Z with ((e - ez) + (ez + 1074))%Z by lia.
  rewrite Z.pow_add_r by lia. destruct s; simpl; lia.
Qed.

(** A difference compares with zero as its operands compare; only the
    difference of two equal infinities, [NaN], is set apart. *)
Lemma SFsub_compare (x y : spec_float) :
  valid_binary x = true -> valid_binary y = true -> notNaN x -> notNaN y ->
  (forall s, x = S754_infinity s -> y <> S754_infinity s) ->
  SFcompare (SF64sub x y) (S754_zero false) = Some (scaled x ?= scaled y)%Z.
Proof.
  intros Hx Hy Nx Ny Hinf.
  destruct x as [sx|sx| |sx mx ex], y as [sy|sy| |sy my ey];
    try (by destruct Nx); try (by destruct Ny).
  all: try pose proof (scaled_finite_below _ _ _ Hx) as Bx.
  all: try pose proof (scaled_finite_below _ _ _ Hy) as By.
  9: {
    pose proof (valid_finite _ _ _ Hx) as (He1 & _).
    pose proof (valid_finite _ _ _ Hy) as (He2 & _).
    unfold SF64sub, SFsub. cbv zeta.
    set (ez := Z.min ex ey).
    rewrite (scaled_aligned sx mx ex ez), (scaled_aligned sy my ey ez) by (unfold ez; lia).
    set (X := cond_Zopp sx (Z.pos (fst (shl_align mx ex ez)))).
    set (Y := cond_Zopp sy (Z.pos (fst (shl_align my ey ez)))).
    assert (Hp : (0 < 2 ^ (ez + 1074))%Z) by (apply Z.pow_pos_nonneg; unfold ez; lia).
    pose proof (binary_normalize_sign (X - Y) ez ltac:(unfold ez; lia)) as Hs.
    destruct (X - Y)%Z as [|p|p] eqn:HM.
    - rewrite Hs. simpl. f_equal. symmetry. apply Z.compare_eq_iff. nia.
    - assert (Hc : (X * 2 ^ (ez + 1074) ?= Y * 2 ^ (ez + 1074))%Z = Gt)
        by (apply Z.compare_gt_iff; nia).
      rewrite Hc. destruct Hs as [->|(m' & e' & ->)]; reflexivity.
    - assert (Hc : (X * 2 ^ (ez + 1074) ?= Y * 2 ^ (ez + 1074))%Z = Lt)
        by (apply Z.compare_lt_iff; nia).
      rewrite Hc. destruct Hs as [->|(m' & e' & ->)]; reflexivity. }
  all: unfold SF64sub, SFsub, scaled, SFcompare, cond_Zopp.
  all: assert (Hbig : (0 < 2 ^ 2098)%Z) by (apply Z.pow_pos_nonneg; lia).
  all: set (big := (2 ^ 2098)%Z) in *; clearbody big.
  all: try set (vx := (Z.pos mx * 2 ^ (ex + 1074))%Z) in *.
  all: try set (vy := (Z.pos my * 2 ^ (ey + 1074))%Z) in *.
  all: try (destruct sx); try (destruct sy); cbn -[Z.compare Z.opp].
  all: try (exfalso; by eapply Hinf).
  all: f_equal; symmetry.
  all: try (apply Z.compare_eq_iff; lia).
  all: try (apply Z.compare_lt_iff; lia).
  all: try (apply Z.compare_gt_iff; lia).
Qed.

(** *** Numbers as ordered integers *)

Lemma classic_infinities (x y : spec_float) :
  (exists s, x = S754_infinity s /\ y = S754_infinity s)
  \/ (forall s, x = S754_infinity s -> y <> S754_infinity s).
Proof.
  destruct x as [sx|sx| |sx mx ex]; try (right; intros s; discriminate).
  destruct y as [sy|sy| |sy my ey]; try (right; intros s _; discriminate).
  destruct sx, sy; try (left; eexists; split; reflexivity).
  all: right; intros s [= <-]; discriminate.
Qed.

Lemma isNaN_spec (x : float) : isNaN x = false <-> notNaN (Prim2SF x).
Proof.
  unfold isNaN, notNaN. rewrite FloatAxioms.eqb_spec. unfold SFeqb. split.
  - intros H Hn. rewrite Hn in H. discriminate.
  - intros Hn. by rewrite SFcompare_refl.
Qed.

Lemma compare_rank (x y : float) :
  isNaN x = false -> isNaN y = false ->
  SFcompare (Prim2SF x) (Prim2SF y) = Some (rank x ?= rank y)%Z.
Proof.
  intros Hx Hy. apply SFcompare_scaled; try apply Prim2SF_valid; by apply isNaN_spec.
Qed.

Lemma ltb_rank (x y : float) :
  isNaN x = false -> isNaN y = false -> (x <? y) = (rank x <? rank y)%Z.
Proof.
  intros Hx Hy. rewrite ltb_spec. unfold SFltb, Z.ltb. by rewrite compare_rank.
Qed.

Lemma leb_rank (x y : float) :
  isNaN x = false -> isNaN y = false -> (x <=? y) = (rank x <=? rank y)%Z.
Proof.
  intros Hx Hy. rewrite leb_spec. unfold SFleb, Z.leb. rewrite compare_rank by done.
  by destruct (rank x ?= rank y)%Z.
Qed.

Lemma eqb_rank (x y : float) :
  isNaN x = false -> isNaN y = false -> (x =? y) = (rank x =? rank y)%Z.
Proof.
  intros Hx Hy. rewrite FloatAxioms.eqb_spec. unfold SFeqb. rewrite compare_rank by done.
  rewrite Z.eqb_compare. reflexivity.
Qed.

Lemma isFinite_spec (x : float) :
  isFinite x = true ->
  notNaN (Prim2SF x) /\ forall s, Prim2SF x <> S754_infinity s.
Proof.
  unfold isFinite. rewrite ltb_spec, abs_spec.
  replace (Prim2SF infinity) with (S754_infinity false) by (vm_compute; reflexivity).
  destruct (Prim2SF x) as [s|s| |s m e]; try discriminate; split; try intros ?; discriminate.
Qed.

Lemma isFinite_intro (x : float) :
  match Prim2SF x with
  | S754_zero _ | S754_finite _ _ _ => True
  | _ => False
  end -> isFinite x = true.
Proof.
  unfold isFinite. rewrite ltb_spec, abs_spec.
  replace (Prim2SF infinity) with (S754_infinity false) by (vm_compute; reflexivity).
  by destruct (Prim2SF x) as [s|s| |s m e].
Qed.

Lemma isFinite_isNaN (x : float) : isFinite x = true -> isNaN x = false.
Proof. intros H. apply isNaN_spec. by apply isFinite_spec. Qed.

(** The sign of a difference: [x - y > 0] exactly when [y < x]. *)
Lemma sub_positive (x y : float) :
  isNaN x = false -> isNaN y = false -> (0 <? x - y) = (rank y <? rank x)%Z.
Proof.
  intros Hx Hy. apply isNaN_spec in Hx, Hy.
  rewrite ltb_spec, sub_spec. unfold SFltb. rewrite (SFcompare_antisym (SF64sub _ _)).
  replace (Prim2SF 0) with (S754_zero false) by (vm_compute; reflexivity).
  destruct (classic_infinities (Prim2SF x) (Prim2SF y)) as [(s & Hxs & Hys)|Hne].
  - unfold rank. rewrite Hxs, Hys. rewrite Z.ltb_irrefl. by destruct s.
  - rewrite (SFsub_compare _ _ (Prim2SF_valid x) (Prim2SF_valid y) Hx Hy Hne).
    unfold rank, Z.ltb. rewrite (Z.compare_antisym (scaled (Prim2SF x))).
    simpl. by destruct (scaled (Prim2SF x) ?= scaled (Prim2SF y))%Z.
Qed.

(** A difference of finite numbers is zero exactly when they are equal. *)
Lemma sub_zero (x y : float) :
  isFinite x = true -> isFinite y = true -> (x - y =? 0) = (rank x =? rank y)%Z.
Proof.
  intros Hx Hy. apply isFinite_spec in Hx as [Nx Ix], Hy as [Ny Iy].
  rewrite FloatAxioms.eqb_spec, sub_spec. unfold SFeqb.
  replace (Prim2SF 0) with (S754_zero false) by (vm_compute; reflexivity).
  assert (Hne : forall s, Prim2SF x = S754_infinity s -> Prim2SF y <> S754_infinity s)
    by (intros s Hs; by destruct (Ix s)).
  rewrite (SFsub_compare _ _ (Prim2SF_valid x) (Prim2SF_valid y) Nx Ny Hne).
  unfold rank. by rewrite Z.eqb_compare.
Qed.

(** ** Sorting with a comparator *)

Section sorting.
Context {A : Type} (cmp : A -> A -> float).

Lemma insertSorted_perm (x : A) (l : list A) : insertSorted cmp x l ≡ₚ x :: l.
Proof.
  induction l as [|y l IH]; [reflexivity|]. simpl.
  destruct (0 <? cmp x y); [|reflexivity].
  rewrite IH. apply perm_swap.
Qed.

Lemma Array_sort_perm (l : list A) : Array_sort cmp l ≡ₚ l.
Proof.
  unfold Array_sort. induction l as [|x l IH]; [reflexivity|]. simpl.
  rewrite insertSorted_perm. by constructor.
Qed.

(** The comparator agrees with a transitive order [le] on the elements
    that satisfy [ok]. *)
Context (ok : A -> Prop) (le : A -> A -> Prop).
Hypothesis le_keep : forall x y, ok x -> ok y -> (0 <? cmp x y) = false -> le x y.
Hypothesis le_move : forall x y, ok x -> ok y -> (0 <? cmp x y) = true -> le y x.
Hypothesis le_trans : forall x y z, ok x -> ok y -> ok z -> le x y -> le y z -> le x z.

Lemma insertSorted_sorted (x : A) (l : list A) :
  ok x -> Forall ok l -> StronglySorted le l -> StronglySorted le (insertSorted cmp x l).
Proof.
  intros Hx Hl Hs. induction Hs as [|y l Hs IH Hy]; simpl.
  - repeat constructor.
  - apply Forall_cons in Hl as [Hoky Hl].
    destruct (0 <? cmp x y) eqn:Hc.
    + constructor; [by apply IH|].
      rewrite insertSorted_perm. constructor; [by apply le_move | done].
    + constructor; [by constructor|].
      assert (Hxy : le x y) by (by apply le_keep).
      constructor; [done|].
      rewrite Forall_forall in Hy, Hl |- *. intros z Hz.
      apply (le_trans x y z); auto.
Qed.

Lemma Array_sort_sorted (l : list A) : Forall ok l -> StronglySorted le (Array_sort cmp l).
Proof.
  unfold Array_sort. induction 1 as [|x l Hx Hl IH]; simpl; [constructor|].
  apply insertSorted_sorted; [done| |done].
  fold (Array_sort cmp l). by rewrite Array_sort_perm.
Qed.

(** Stability: elements that the comparator never moves past each other
    keep their order. *)
Lemma insertSorted_filter (p : A -> bool) (x : A) (l : list A) :
  (forall y, p x = true -> p y = true -> (0 <? cmp x y) = false) ->
  List.filter p (insertSorted cmp x l) = List.filter p (x :: l).
Proof.
  intros Hp. induction l as [|y l IH]; [reflexivity|]. simpl.
  destruct (0 <? cmp x y) eqn:Hc; [|reflexivity].
  simpl. rewrite IH. simpl.
  destruct (p x) eqn:Hpx, (p y) eqn:Hpy; try reflexivity.
  rewrite (Hp y eq_refl Hpy) in Hc. discriminate.
Qed.

Lemma Array_sort_stable (p : A -> bool) (l : list A) :
  (forall x y, p x = true -> p y = true -> (0 <? cmp x y) = false) ->
  List.filter p (Array_sort cmp l) = List.filter p l.
Proof.
  intros Hp. unfold Array_sort. induction l as [|x l IH]; [reflexivity|]. simpl.
  rewrite insertSorted_filter by (intros y; apply Hp). simpl.
  fold (Array_sort cmp l). unfold Array_sort. by rewrite IH.
Qed.

End sorting.

(** ** The study order *)

Section study_order.
Context `{Host}.

Lemma diffMap_sub_zero (d1 d2 : Difficulty) :
  (diffMap d1 - diffMap d2 =? 0) = bool_decide (d1 = d2).
Proof. destruct d1, d2; vm_compute; reflexivity. Qed.

Lemma diffMap_sub_positive (d1 d2 : Difficulty) :
  (0 <? diffMap d1 - diffMap d2) = (severity d1 <? severity d2)%nat.
Proof. destruct d1, d2; vm_compute; reflexivity. Qed.

(** When the comparator sends [a] behind [b], in terms of the ranks. *)
Lemma compareForStudy_positive (a b : Flashcard) :
  wellFormed a -> wellFormed b ->
  (0 <? compareForStudy a b)
  = if (rank (dueTime a) =? rank (dueTime b))%Z
    then if bool_decide (difficulty a = difficulty b)
         then (rank (easeFactor b) <? rank (easeFactor a))%Z
         else (severity (difficulty a) <? severity (difficulty b))%nat
    else (rank (dueTime b) <? rank (dueTime a))%Z.
Proof.
  intros [Hta Hea] [Htb Heb]. unfold compareForStudy. cbv zeta.
  fold (dueTime a) (dueTime b).
  rewrite (sub_zero _ _ Hta Htb).
  destruct (rank (dueTime a) =? rank (dueTime b))%Z; simpl negb; cbv iota.
  - rewrite diffMap_sub_zero.
    destruct (bool_decide (difficulty a = difficulty b)); simpl negb; cbv iota.
    + by apply sub_positive.
    + apply diffMap_sub_positive.
  - apply sub_positive; by apply isFinite_isNaN.
Qed.

Lemma studyOrder_rank (a b : Flashcard) :
  wellFormed a -> wellFormed b ->
  studyOrder a b <->
  (rank (dueTime a) < rank (dueTime b)
   \/ (rank (dueTime a) = rank (dueTime b)
       /\ ((severity (difficulty b) < severity (difficulty a))%nat
           \/ (difficulty a = difficulty b
               /\ rank (easeFactor a) <= rank (easeFactor b)))))%Z.
Proof.
  intros [Hta Hea] [Htb Heb]. unfold studyOrder.
  pose proof (isFinite_isNaN _ Hta) as Hna. pose proof (isFinite_isNaN _ Htb) as Hnb.
  rewrite (ltb_rank _ _ Hna Hnb), (eqb_rank _ _ Hna Hnb), (leb_rank _ _ Hea Heb).
  rewrite Z.ltb_lt, Z.eqb_eq, Z.leb_le. tauto.
Qed.

Lemma severity_inj (d1 d2 : Difficulty) : severity d1 = severity d2 -> d1 = d2.
Proof. by destruct d1, d2. Qed.

Lemma studyOrder_keep (a b : Flashcard) :
  wellFormed a -> wellFormed b -> (0 <? compareForStudy a b) = false -> studyOrder a b.
Proof.
  intros Ha Hb. rewrite (compareForStudy_positive a b Ha Hb), (studyOrder_rank a b Ha Hb).
  destruct (Z.eqb_spec (rank (dueTime a)) (rank (dueTime b))) as [Ht|Ht].
  - case_bool_decide as Hd.
    + rewrite Z.ltb_ge. intros He. right. split; [done|]. right. done.
    + rewrite Nat.ltb_ge. intros Hs. right. split; [done|]. left.
      assert (severity (difficulty a) <> severity (difficulty b))
        by (intros Heq; by apply Hd, severity_inj).
      lia.
  - rewrite Z.ltb_ge. intros Hlt. left. lia.
Qed.

Lemma studyOrder_move (a b : Flashcard) :
  wellFormed a -> wellFormed b -> (0 <? compareForStudy a b) = true -> studyOrder b a.
Proof.
  intros Ha Hb. rewrite (compareForStudy_positive a b Ha Hb), (studyOrder_rank b a Hb Ha).
  destruct (Z.eqb_spec (rank (dueTime a)) (rank (dueTime b))) as [Ht|Ht].
  - case_bool_decide as Hd.
    + rewrite Z.ltb_lt. intros He. right. split; [done|]. right. split; [done | lia].
    + rewrite Nat.ltb_lt. intros Hs. right. split; [done|]. by left.
  - rewrite Z.ltb_lt. intros Hlt. by left.
Qed.

Lemma studyOrder_trans (a b c : Flashcard) :
  wellFormed a -> wellFormed b -> wellFormed c ->
  studyOrder a b -> studyOrder b c -> studyOrder a c.
Proof.
  intros Ha Hb Hc.
  rewrite (studyOrder_rank a b Ha Hb), (studyOrder_rank b c Hb Hc), (studyOrder_rank a c Ha Hc).
  intros [?|[? [?|[Hab ?]]]] [?|[? [?|[Hbc ?]]]]; try rewrite Hab in *; try rewrite <- Hbc in *;
    try (left; lia); right; (split; [lia|]); try (left; lia).
  right. split; [congruence | lia].
Qed.

Lemma sameKeys_wellFormed (c x : Flashcard) :
  wellFormed c -> sameKeys c x = true -> wellFormed x.
Proof.
  intros [Htc Hec]. unfold sameKeys. rewrite !andb_true_iff. intros [[Ht _] He].
  split.
  - apply isFinite_spec in Htc as [Nc Ic]. apply isFinite_intro.
    rewrite FloatAxioms.eqb_spec in Ht.
    destruct (Prim2SF (dueTime x)) as [s'|s'| |s' m' e']; try discriminate; try done.
    destruct (Prim2SF (dueTime c)) as [s|s| |s m e]; try done.
    + by destruct s'.
    + by destruct (Ic s).
    + by destruct s'.
  - apply isNaN_spec. rewrite FloatAxioms.eqb_spec in He. intros Hn. rewrite Hn in He. discriminate.
Qed.

Lemma sameKeys_keep (c x y : Flashcard) :
  wellFormed c -> sameKeys c x = true -> sameKeys c y = true ->
  (0 <? compareForStudy x y) = false.
Proof.
  intros Hc Hx Hy.
  pose proof (sameKeys_wellFormed c x Hc Hx) as Wx.
  pose proof (sameKeys_wellFormed c y Hc Hy) as Wy.
  rewrite (compareForStudy_positive x y Wx Wy).
  unfold sameKeys in Hx, Hy. rewrite !andb_true_iff in Hx, Hy.
  destruct Hx as [[Htx Hdx] Hex], Hy as [[Hty Hdy] Hey].
  apply bool_decide_eq_true in Hdx, Hdy.
  destruct Hc as [Htc Hec], Wx as [Wtx Wex], Wy as [Wty Wey].
  rewrite eqb_rank in Htx, Hty, Hex, Hey by (auto using isFinite_isNaN).
  apply Z.eqb_eq in Htx, Hty, Hex, Hey.
  rewrite Htx, Hty, Z.eqb_refl.
  rewrite bool_decide_eq_true_2 by congruence.
  apply Z.ltb_ge. lia.
Qed.

(** C4. For well-formed cards (a valid review date, a numeric ease
    factor) [sortCardsForStudy] returns the same cards, ordered by
    review time ascending, then severity descending, then ease factor
    ascending; cards that agree on the three keys keep their order. *)
Theorem sortCardsForStudy_ordered (cs : list Flashcard) :
  Forall wellFormed cs ->
  sortCardsForStudy cs ≡ₚ cs
  /\ StronglySorted studyOrder (sortCardsForStudy cs)
  /\ forall c, wellFormed c ->
       List.filter (sameKeys c) (sortCardsForStudy cs) = List.filter (sameKeys c) cs.
Proof.
  intros Hcs. unfold sortCardsForStudy. split; [apply Array_sort_perm|]. split.
  - exact (Array_sort_sorted compareForStudy wellFormed studyOrder
             studyOrder_keep studyOrder_move studyOrder_trans cs Hcs).
  - intros c Hc. apply Array_sort_stable. intros x y. apply sameKeys_keep. exact Hc.
Qed.

(** The three properties fix the result: whichever algorithm the host
    uses, a stable sorted arrangement of well-formed cards is the one
    computed here. *)
Lemma sameKeys_refl (c : Flashcard) : wellFormed c -> sameKeys c c = true.
Proof.
  intros [Ht He]. unfold sameKeys.
  rewrite !eqb_rank by (auto using isFinite_isNaN).
  by rewrite !Z.eqb_refl, bool_decide_eq_true_2.
Qed.

Lemma studyOrder_refl (c : Flashcard) : wellFormed c -> studyOrder c c.
Proof. intros Hc. apply (studyOrder_rank c c Hc Hc). right. split; [done|]. right. done. Qed.

Lemma studyOrder_antisym (a b : Flashcard) :
  wellFormed a -> wellFormed b -> studyOrder a b -> studyOrder b a -> sameKeys a b = true.
Proof.
  intros Ha Hb. rewrite (studyOrder_rank a b Ha Hb), (studyOrder_rank b a Hb Ha).
  intros Hab Hba. destruct Ha as [Hta Hea], Hb as [Htb Heb]. unfold sameKeys.
  rewrite !eqb_rank by (auto using isFinite_isNaN).
  assert (rank (dueTime b) = rank (dueTime a)
          /\ difficulty b = difficulty a
          /\ rank (easeFactor b) = rank (easeFactor a)) as (-> & -> & ->).
  { destruct Hab as [?|[? [?|[Hd ?]]]], Hba as [?|[? [?|[Hd' ?]]]];
      try rewrite Hd in *; try rewrite Hd' in *; try lia.
      split; [lia|]. split; [done | lia]. }
  by rewrite !Z.eqb_refl, bool_decide_eq_true_2.
Qed.

Lemma stable_sorted_unique (l1 l2 : list Flashcard) :
  Forall wellFormed l1 ->
  l1 ≡ₚ l2 ->
  StronglySorted studyOrder l1 -> StronglySorted studyOrder l2 ->
  (forall c, wellFormed c -> List.filter (sameKeys c) l1 = List.filter (sameKeys c) l2) ->
  l1 = l2.
Proof.
  revert l2. induction l1 as [|x l1 IH]; intros l2 Hwf Hp Hs1 Hs2 Hst.
  - by apply Permutation_nil in Hp.
  - destruct l2 as [|y l2]; [by apply Permutation_sym, Permutation_nil in Hp|].
    apply Forall_cons in Hwf as [Hx Hwf].
    assert (Hy : wellFormed y).
    { assert (Hin : y ∈ x :: l1) by (rewrite Hp; left).
      apply elem_of_cons in Hin as [->|Hin]; [done|].
      rewrite Forall_forall in Hwf. by apply Hwf. }
    apply StronglySorted_inv in Hs1 as [Hs1 Hx1], Hs2 as [Hs2 Hy2].
    assert (Hxy : studyOrder x y).
    { assert (Hin : y ∈ x :: l1) by (rewrite Hp; left).
      apply elem_of_cons in Hin as [->|Hin]; [by apply studyOrder_refl|].
      rewrite Forall_forall in Hx1. by apply Hx1. }
    assert (Hyx : studyOrder y x).
    { assert (Hin : x ∈ y :: l2) by (rewrite <- Hp; left).
      apply elem_of_cons in Hin as [->|Hin]; [by apply studyOrder_refl|].
      rewrite Forall_forall in Hy2. by apply Hy2. }
    pose proof (Hst x Hx) as Hfx. simpl in Hfx.
    rewrite (sameKeys_refl x Hx), (studyOrder_antisym x y Hx Hy Hxy Hyx) in Hfx.
    injection Hfx as <- _.
    f_equal. apply IH; try done.
    + by apply Permutation_cons_inv in Hp.
    + intros c Hc. specialize (Hst c Hc). simpl in Hst.
      destruct (sameKeys c x); [by injection Hst|done].
Qed.

Lemma sortCardsForStudy_unique (cs out : list Flashcard) :
  Forall wellFormed cs ->
  out ≡ₚ cs ->
  StronglySorted studyOrder out ->
  (forall c, wellFormed c -> List.filter (sameKeys c) out = List.filter (sameKeys c) cs) ->
  out = sortCardsForStudy cs.
Proof.
  intros Hcs Hp Hs Hst. unfold sortCardsForStudy.
  apply stable_sorted_unique; try done.
  - by rewrite Hp.
  - by rewrite Hp, Array_sort_perm.
  - exact (Array_sort_sorted compareForStudy wellFormed studyOrder
             studyOrder_keep studyOrder_move studyOrder_trans cs Hcs).
  - intros c Hc. rewrite (Hst c Hc). symmetry.
    apply Array_sort_stable. intros x y. by apply sameKeys_keep.
Qed.

End study_order.

(** The study queue, on an example. *)
Example sortCardsForStudy_queue :
  card_id <$> sortCardsForStudy (H := fixedHost) studyQueue = ["d"; "e"; "c"; "b"; "a"].
Proof. vm_compute. reflexivity. Qed.

Lemma sortCardsForStudy_ordered_witness :
  Forall (wellFormed (H := fixedHost)) studyQueue
  /\ StronglySorted (studyOrder (H := fixedHost)) (sortCardsForStudy (H := fixedHost) studyQueue).
Proof.
  assert (Hq : Forall (wellFormed (H := fixedHost)) studyQueue).
  { unfold studyQueue. repeat constructor. }
  split; [exact Hq|].
  exact (proj1 (proj2 (sortCardsForStudy_ordered (H := fixedHost) studyQueue Hq))).
Defined.

(** *** Integers as numbers *)

Lemma digits2_shift (p k : positive) :
  digits2_pos (Pos.iter xO p k) = (digits2_pos p + k)%positive.
Proof.
  induction k as [|k IH] using Pos.peano_ind.
  - simpl. lia.
  - rewrite Pos.iter_succ. simpl. rewrite IH. lia.
Qed.

(** An integer below [2^53] is a binary64 number. *)
Lemma binary_normalize_integer (p : positive) :
  (Z.pos p < 2 ^ 53)%Z ->
  exists m e,
    binary_normalize prec emax (Z.pos p) 0 false = S754_finite false m e
    /\ (e <= 0)%Z /\ (Z.pos m = Z.pos p * 2 ^ (- e))%Z
    /\ valid_binary (S754_finite false m e) = true.
Proof.
  intros Hp. pose proof (digits2_bounds p) as [Hlo Hhi].
  assert (Hd : (Z.pos (digits2_pos p) <= 53)%Z).
  { destruct (Z.le_gt_cases (Z.pos (digits2_pos p)) 53) as [|Hgt]; [done|].
    assert ((2 ^ 53 <= 2 ^ (Z.pos (digits2_pos p) - 1))%Z) by (apply Z.pow_le_mono_r; lia).
    lia. }
  unfold binary_normalize, binary_round.
  assert (Hf : fexp prec emax (Z.pos (digits2_pos p) + 0) = (Z.pos (digits2_pos p) - 53)%Z).
  { unfold fexp, SpecFloat.emin, prec, emax. lia. }
  rewrite Hf.
  destruct (shl_align p 0 (Z.pos (digits2_pos p) - 53)) as [mz ez] eqn:Hs.
  assert (Hmz : Z.pos mz = (Z.pos p * 2 ^ (0 - (Z.pos (digits2_pos p) - 53)))%Z
                /\ ez = (Z.pos (digits2_pos p) - 53)%Z
                /\ Z.pos (digits2_pos mz) = 53%Z).
  { pose proof (shl_align_fst p 0 (Z.pos (digits2_pos p) - 53) ltac:(lia)) as Hv.
    rewrite Hs in Hv. simpl fst in Hv. split; [exact Hv|].
    unfold shl_align in Hs.
    destruct (Z.pos (digits2_pos p) - 53 - 0)%Z as [|k|k] eqn:Hk; injection Hs as <- <-.
    - lia.
    - lia.
    - split; [lia|]. rewrite digits2_shift. lia. }
  destruct Hmz as (Hv & -> & Hdz).
  set (ez := (Z.pos (digits2_pos p) - 53)%Z) in *.
  assert (Hf2 : (fexp prec emax (Z.pos (digits2_pos mz) + ez) - ez = 0)%Z).
  { rewrite Hdz. unfold fexp, SpecFloat.emin, prec, emax, ez. lia. }
  unfold binary_round_aux, shr_fexp. cbn [Zdigits2 shr_record_of_loc].
  rewrite Hf2. cbn [shr shr_m loc_of_shr_record round_nearest_even Zdigits2 shr_record_of_loc].
  rewrite Hf2. cbn [shr shr_m].
  assert (Hle : (ez <=? emax - prec)%Z = true) by (apply Z.leb_le; unfold emax, prec, ez; lia).
  rewrite Hle. exists mz, ez. split; [reflexivity|]. split; [unfold ez; lia|].
  split; [rewrite Hv; f_equal; f_equal; lia|].
  unfold SpecFloat.valid_binary, bounded, canonical_mantissa.
  rewrite Hle, andb_true_r. apply Z.eqb_eq. lia.
Qed.

Lemma toIntegerOrInfinity_ofNat (n : nat) :
  (Z.of_nat n < 2 ^ 53)%Z -> toIntegerOrInfinity (ofNat n) = Fin (Z.of_nat n).
Proof.
  intros Hn. unfold toIntegerOrInfinity, ofNat, ofZ.
  destruct (Z.of_nat n) as [|p|p] eqn:Hz; [by vm_compute| |lia].
  destruct (binary_normalize_integer p Hn) as (m & e & -> & He & Hm & Hv).
  rewrite (Prim2SF_SF2Prim _ Hv). cbn [cond_Zopp]. f_equal.
  destruct (Z.leb_spec 0 e) as [H0|H0].
  - replace e with 0%Z in * by lia. simpl in Hm. lia.
  - rewrite Z.shiftr_div_pow2 by lia. rewrite Hm.
    rewrite Z.div_mul; [done|]. apply Z.pow_nonzero; lia.
Qed.

Lemma ofNat_positive (n : nat) :
  (0 < n)%nat -> (Z.of_nat n < 2 ^ 53)%Z -> (0 <? ofNat n) = true.
Proof.
  intros H0 Hn. rewrite ltb_spec. unfold ofNat, ofZ.
  destruct (Z.of_nat n) as [|p|p] eqn:Hz; [lia| |lia].
  destruct (binary_normalize_integer p Hn) as (m & e & -> & He & Hm & Hv).
  rewrite (Prim2SF_SF2Prim _ Hv).
  replace (Prim2SF 0) with (S754_zero false) by (vm_compute; reflexivity). reflexivity.
Qed.

(** ** The review state machine *)

Section review.
Context `{Host}.

(** The call has no validation; it fails only when the next review date
    is not a valid date. *)
Lemma calculateNextReview_outcome (card : Flashcard) (quality : float) :
  match isoAfterDays (reschedule card quality).1 with
  | Some _ => exists card', calculateNextReview card quality = Returned card'
  | None => calculateNextReview card quality = Thrown RangeError
  end.
Proof.
  unfold calculateNextReview. destruct (reschedule card quality) as [i r]. simpl.
  destruct (isoAfterDays i); [eexists|]; reflexivity.
Qed.

Lemma calculateNextReview_returns (card : Flashcard) (quality : float) :
  is_Some (isoAfterDays (reschedule card quality).1) ->
  exists card', calculateNextReview card quality = Returned card'.
Proof.
  intros [d Hd]. pose proof (calculateNextReview_outcome card quality) as Ho.
  by rewrite Hd in Ho.
Qed.

Lemma calculateNextReview_schedule_eq (card card' : Flashcard) (quality : float) :
  calculateNextReview card quality = Returned card' ->
  (interval card', repetitions card') = reschedule card quality.
Proof.
  unfold calculateNextReview. destruct (reschedule card quality) as [i r].
  destruct (isoAfterDays i); [|discriminate]. by intros [= <-].
Qed.

Lemma calculateNextReview_failure (card card' : Flashcard) (quality : float) :
  calculateNextReview card quality = Returned card' ->
  (quality <? 3) = true ->
  repetitions card' = 0 /\ interval card' = 1.
Proof.
  intros Hc Hq. apply calculateNextReview_schedule_eq in Hc.
  unfold reschedule in Hc. rewrite Hq in Hc. by injection Hc as -> ->.
Qed.

Lemma calculateNextReview_success (card card' : Flashcard) (quality : float) :
  calculateNextReview card quality = Returned card' ->
  (quality <? 3) = false ->
  repetitions card' = repetitions card + 1
  /\ interval card' =
       (if repetitions card =? 0 then 1
        else if repetitions card =? 1 then 6
        else Math_round (interval card * easeFactor card)).
Proof.
  intros Hc Hq. apply calculateNextReview_schedule_eq in Hc.
  unfold reschedule in Hc. rewrite Hq in Hc. by injection Hc as -> ->.
Qed.

Lemma calculateNextReview_easeFactor (card card' : Flashcard) (quality : float) :
  calculateNextReview card quality = Returned card' ->
  easeFactor card' =
    (let ef := easeFactor card + (0.1 - (5 - quality) * (0.08 + (5 - quality) * 0.02)) in
     if ef <? 1.3 then 1.3 else ef).
Proof.
  unfold calculateNextReview. destruct (reschedule card quality) as [i r].
  destruct (isoAfterDays i); [|discriminate]. by intros [= <-].
Qed.

Lemma calculateNextReview_difficulty (card card' : Flashcard) (quality : float) :
  calculateNextReview card quality = Returned card' ->
  difficulty card' = (if 4 <=? quality then easy else if 3 <=? quality then medium else hard).
Proof.
  unfold calculateNextReview. destruct (reschedule card quality) as [i r].
  destruct (isoAfterDays i); [|discriminate]. by intros [= <-].
Qed.

(** C1, amended. For every card and every quality score in 0..5 for
    which the next review date (today plus the new interval, in days)
    is a valid date, [calculateNextReview] returns a review
    state in which a quality below 3 resets the repetition count to 0
    and the interval to 1, and any other quality increments the
    repetition count and sets the interval to 1 (old count 0), 6 (old
    count 1) or round(old interval × old ease factor) (otherwise). A
    card with ease factor 2.5, interval 6 and 2 repetitions reviewed at
    quality 4 ends with ease factor 2.5, interval 15 and 3 repetitions. *)
Theorem calculateNextReview_schedule (card : Flashcard) (quality : float) :
  quality ∈ qualityScores ->
  is_Some (isoAfterDays (reschedule card quality).1) ->
  exists card',
    calculateNextReview card quality = Returned card'
    /\ ((quality <? 3) = true -> repetitions card' = 0 /\ interval card' = 1)
    /\ ((quality <? 3) = false ->
        repetitions card' = repetitions card + 1
        /\ ((repetitions card =? 0) = true -> interval card' = 1)
        /\ ((repetitions card =? 1) = true -> interval card' = 6)
        /\ ((repetitions card =? 0) = false -> (repetitions card =? 1) = false ->
            interval card' = Math_round (interval card * easeFactor card)))
    /\ (easeFactor card = 2.5 -> interval card = 6 -> repetitions card = 2 ->
        quality = 4 ->
        easeFactor card' = 2.5 /\ interval card' = 15 /\ repetitions card' = 3).
Proof.
  intros _ Hdate.
  destruct (calculateNextReview_returns card quality Hdate) as [card' Hc].
  exists card'. split; [exact Hc|]. split; [|split].
  - intros Hq. exact (calculateNextReview_failure _ _ _ Hc Hq).
  - intros Hq. destruct (calculateNextReview_success _ _ _ Hc Hq) as [Hr Hi].
    split; [exact Hr|]. rewrite Hi. repeat split.
    + intros ->. reflexivity.
    + intros H1. destruct (repetitions card =? 0) eqn:H0; [|rewrite H1; reflexivity].
      apply eqb_0_1 in H0. congruence.
    + intros H0 H1. rewrite H0, H1. reflexivity.
  - intros Hef Hi Hr ->.
    rewrite (calculateNextReview_easeFactor _ _ _ Hc), Hef.
    destruct (calculateNextReview_success _ _ _ Hc eq_refl) as [-> ->].
    rewrite Hi, Hr, Hef. vm_compute. repeat split.
Qed.

(** The ease factor after one review: the SM-2 update, floored at 1.3. *)
Lemma easeFactor_step (ef q : float) :
  q ∈ qualityScores ->
  (1.3 <=? ef) = true ->
  (1.3 <=? (let ef' := ef + (0.1 - (5 - q) * (0.08 + (5 - q) * 0.02)) in
            if ef' <? 1.3 then 1.3 else ef')) = true.
Proof.
  intros Hq Hef. cbv zeta.
  assert (Hn : notNaN (Prim2SF ef)).
  { rewrite leb_spec in Hef. apply SFleb_notNaN in Hef. tauto. }
  assert (Hd : let d := 0.1 - (5 - q) * (0.08 + (5 - q) * 0.02) in
               notNaN (Prim2SF d) /\ forall s, Prim2SF d <> S754_infinity s).
  { unfold qualityScores in Hq.
    repeat (apply elem_of_cons in Hq as [->|Hq]); [..|by apply elem_of_nil in Hq].
    all: vm_compute; split; [|intros s]; discriminate. }
  cbv zeta in Hd. destruct Hd as [Hd1 Hd2].
  set (d := 0.1 - (5 - q) * (0.08 + (5 - q) * 0.02)) in *.
  destruct (ef + d <? 1.3) eqn:Hlt; [reflexivity|].
  rewrite leb_spec. rewrite ltb_spec in Hlt.
  apply SFleb_of_not_ltb; [| discriminate | exact Hlt].
  rewrite add_spec. apply SFadd_notNaN; assumption.
Qed.

Lemma calculateNextReview_floor (card card' : Flashcard) (quality : float) :
  quality ∈ qualityScores ->
  (1.3 <=? easeFactor card) = true ->
  calculateNextReview card quality = Returned card' ->
  (1.3 <=? easeFactor card') = true.
Proof.
  intros Hq Hef Hc. rewrite (calculateNextReview_easeFactor _ _ _ Hc).
  apply easeFactor_step; assumption.
Qed.

Lemma reviewAll_floor (qualities : list float) (card card' : Flashcard) :
  Forall (.∈ qualityScores) qualities ->
  (1.3 <=? easeFactor card) = true ->
  reviewAll card qualities = Returned card' ->
  (1.3 <=? easeFactor card') = true.
Proof.
  intros Hqs. revert card. induction Hqs as [|q qs Hq _ IH]; intros card Hef; simpl.
  - by intros [= <-].
  - destruct (calculateNextReview card q) as [card1|e] eqn:Hc; [|discriminate].
    simpl. apply IH. exact (calculateNextReview_floor _ _ _ Hq Hef Hc).
Qed.

(** Failed reviews are rescheduled for the next day, whatever the card. *)
Lemma reviewAll_failures (n : nat) (card : Flashcard) :
  is_Some (isoAfterDays 1) ->
  exists card', reviewAll card (replicate n 0) = Returned card'.
Proof.
  intros Hday. revert card. induction n as [|n IH]; intros card; simpl.
  - by exists card.
  - destruct (calculateNextReview_returns card 0 Hday) as [card1 ->]. simpl. apply IH.
Qed.

Lemma reviewAll_app (qs1 qs2 : list float) (card : Flashcard) :
  reviewAll card (qs1 ++ qs2) = card' ← reviewAll card qs1; reviewAll card' qs2.
Proof.
  revert card. induction qs1 as [|q qs1 IH]; intros card; simpl; [reflexivity|].
  destruct (calculateNextReview card q) as [card1|e]; simpl; [apply IH | reflexivity].
Qed.

(** C2. Starting from an ease factor of at least 1.3, every sequence of
    quality scores in 0..5 leaves the ease factor at least 1.3 after
    every step, and a step is completed whenever its next review date
    is a valid date; a thousand consecutive reviews of quality 0 run to
    the end, each scheduled for the next day, and leave it at least 1.3. *)
Theorem easeFactor_never_below_floor (card : Flashcard) (qualities : list float) :
  (1.3 <=? easeFactor card) = true ->
  Forall (.∈ qualityScores) qualities ->
  (forall (k : nat) card',
      reviewAll card (take k qualities) = Returned card' ->
      (1.3 <=? easeFactor card') = true)
  /\ (forall (k : nat) card' q,
        reviewAll card (take k qualities) = Returned card' ->
        qualities !! k = Some q ->
        is_Some (isoAfterDays (reschedule card' q).1) ->
        exists card'',
          reviewAll card (take (S k) qualities) = Returned card''
          /\ (1.3 <=? easeFactor card'') = true)
  /\ (is_Some (isoAfterDays 1) ->
      exists card',
        reviewAll card (replicate 1000 0) = Returned card'
        /\ (1.3 <=? easeFactor card') = true).
Proof.
  intros Hef Hqs.
  assert (Hfloor : forall (k : nat) card',
             reviewAll card (take k qualities) = Returned card' ->
             (1.3 <=? easeFactor card') = true).
  { intros k card'. apply reviewAll_floor; [|exact Hef].
    apply Forall_take. exact Hqs. }
  split; [exact Hfloor|]. split.
  - intros k card' q Hk Hq Hdate.
    destruct (calculateNextReview_returns card' q Hdate) as [card'' Hc].
    assert (Hs : reviewAll card (take (S k) qualities) = Returned card'').
    { rewrite (take_S_r _ _ _ Hq), reviewAll_app, Hk. simpl. by rewrite Hc. }
    exists card''. split; [exact Hs|]. exact (Hfloor _ _ Hs).
  - intros Hday. destruct (reviewAll_failures 1000 card Hday) as [card' Hc].
    exists card'. split; [exact Hc|].
    refine (reviewAll_floor _ _ _ _ Hef Hc).
    apply Forall_replicate. unfold qualityScores. apply list_elem_of_here.
Qed.

End review.

(** Two numerals with different binary64 decompositions are different. *)
Ltac not_a_score :=
  let Hin := fresh "Hin" in
  let Heq := fresh "Heq" in
  intros Hin; unfold qualityScores in Hin;
  repeat (apply elem_of_cons in Hin as [Heq|Hin];
          [apply (f_equal (fun x => Prim2SF x)) in Heq; vm_compute in Heq; discriminate Heq|]);
  by apply elem_of_nil in Hin.

Lemma calculateNextReview_schedule_witness :
  4 ∈ qualityScores
  /\ exists card',
      calculateNextReview (H := fixedHost) (mkCard "c1" medium 2.5 6 2 "2026-01-01") 4
      = Returned card'
      /\ easeFactor card' = 2.5 /\ interval card' = 15 /\ repetitions card' = 3.
Proof.
  assert (Hq : 4 ∈ qualityScores) by (unfold qualityScores; set_solver).
  split; [exact Hq|].
  destruct (calculateNextReview_schedule (H := fixedHost)
              (mkCard "c1" medium 2.5 6 2 "2026-01-01") 4 Hq)
    as (card' & Hc & _ & _ & Hs).
  - vm_compute. eauto.
  - exists card'. split; [exact Hc|]. apply Hs; reflexivity.
Defined.

(** C1 as stated fails: the intervals of a card that is always graded 5
    grow without bound. A new card (ease factor 2.5, interval 1, no
    repetition) passes fifteen such reviews; the sixteenth asks for a
    date 120864680 days ahead, which no [Date] can hold, and returns no
    review state. *)
Lemma calculateNextReview_beyond_dates :
  5 ∈ qualityScores
  /\ exists card,
      reviewAll (H := fixedHost) (mkCard "c1" medium 2.5 1 0 "2026-01-01") (replicate 15 5)
      = Returned card
      /\ repetitions card = 15
      /\ Math_round (interval card * easeFactor card) = 120864680
      /\ calculateNextReview (H := fixedHost) card 5 = Thrown RangeError
      /\ ~ exists card', calculateNextReview (H := fixedHost) card 5 = Returned card'.
Proof.
  split; [unfold qualityScores; set_solver|].
  eexists. split; [vm_compute; reflexivity|].
  split; [vm_compute; reflexivity|]. split; [vm_compute; reflexivity|].
  split; [vm_compute; reflexivity|].
  intros [card' Hc]. vm_compute in Hc. discriminate.
Qed.

Lemma easeFactor_never_below_floor_witness :
  exists card',
    reviewAll (H := fixedHost) (mkCard "c1" hard 1.3 1 0 "2026-01-01") (replicate 1000 0)
    = Returned card'
    /\ (1.3 <=? easeFactor card') = true.
Proof.
  refine (proj2 (proj2 (easeFactor_never_below_floor (H := fixedHost)
                   (mkCard "c1" hard 1.3 1 0 "2026-01-01") [0; 5; 3] _ _)) _).
  - reflexivity.
  - unfold qualityScores. repeat constructor; set_solver.
  - vm_compute. eauto.
Defined.

(** C3 as stated fails: a quality of 6 is accepted and a state comes back. *)
Lemma calculateNextReview_accepts_quality_6 :
  (6 ∉ qualityScores)
  /\ exists card',
      calculateNextReview (H := fixedHost) (mkCard "c1" medium 2.5 1 0 "2026-01-01") 6
      = Returned card'
      /\ easeFactor card' = 2.66 /\ interval card' = 1 /\ repetitions card' = 1
      /\ difficulty card' = easy.
Proof.
  split; [not_a_score|].
  eexists. split; [vm_compute; reflexivity|]. vm_compute. repeat split.
Qed.

(** C3, amended. [calculateNextReview] does not validate [quality]: for
    every card and every quality outside 0..5 it raises no
    [InvalidArgument] and, where the next review date is a valid date,
    returns the state that the SM-2 rules give on that very value. *)
Theorem calculateNextReview_unvalidated `{Host} (card : Flashcard) (quality : float) :
  quality ∉ qualityScores ->
  calculateNextReview card quality <> Thrown InvalidArgument
  /\ (is_Some (isoAfterDays (reschedule card quality).1) ->
      exists card',
        calculateNextReview card quality = Returned card'
        /\ easeFactor card' =
             (let ef := easeFactor card
                        + (0.1 - (5 - quality) * (0.08 + (5 - quality) * 0.02)) in
              if ef <? 1.3 then 1.3 else ef)
        /\ (interval card', repetitions card') = reschedule card quality
        /\ difficulty card' =
             (if 4 <=? quality then easy else if 3 <=? quality then medium else hard)).
Proof.
  intros _. split.
  - pose proof (calculateNextReview_outcome card quality) as Ho.
    destruct (isoAfterDays (reschedule card quality).1); [destruct Ho as [c ->]|rewrite Ho];
      discriminate.
  - intros Hdate. destruct (calculateNextReview_returns card quality Hdate) as [card' Hc].
    exists card'. split; [exact Hc|].
    split; [exact (calculateNextReview_easeFactor _ _ _ Hc)|].
    split; [exact (calculateNextReview_schedule_eq _ _ _ Hc)|].
    exact (calculateNextReview_difficulty _ _ _ Hc).
Qed.

Lemma calculateNextReview_unvalidated_witness :
  (6 ∉ qualityScores)
  /\ calculateNextReview (H := fixedHost) (mkCard "c1" medium 2.5 1 0 "2026-01-01") 6
     <> Thrown InvalidArgument
  /\ exists card',
      calculateNextReview (H := fixedHost) (mkCard "c1" medium 2.5 1 0 "2026-01-01") 6
      = Returned card'
      /\ difficulty card' = easy.
Proof.
  assert (Hq : 6 ∉ qualityScores) by not_a_score.
  split; [exact Hq|].
  destruct (calculateNextReview_unvalidated (H := fixedHost)
              (mkCard "c1" medium 2.5 1 0 "2026-01-01") 6 Hq) as [Hno Hret].
  split; [exact Hno|].
  destruct Hret as (card' & Hc & _ & _ & Hd); [vm_compute; eauto|].
  exists card'. split; [exact Hc | exact Hd].
Defined.

(** A review that schedules the card beyond the range of dates fails. *)
Example calculateNextReview_out_of_range :
  calculateNextReview (H := fixedHost) (mkCard "c1" easy 2.5 1000000000 2 "2026-01-01") 4
  = Thrown RangeError.
Proof. vm_compute. reflexivity. Qed.

(** ** The adaptive feedback classifier *)

(** C5. For every correctness flag, response time (10000 ms when not
    given) and streak (0 when not given), [getAdaptiveFeedback] returns
    the tier and adjustment of the first applicable row of the ordered
    decision table; an incorrect answer after 3000 ms with streak 0 is
    tier struggling with adjustment hard. *)
Theorem getAdaptiveFeedback_table (card : Flashcard) (isCorrect : bool)
    (responseTimeMs streak : option float) :
  classify isCorrect (default 10000 responseTimeMs) (default 0 streak)
  = Some (level (getAdaptiveFeedback card isCorrect responseTimeMs streak),
          adjustedDifficulty (getAdaptiveFeedback card isCorrect responseTimeMs streak))
  /\ level (getAdaptiveFeedback card false (Some 3000) (Some 0)) = struggling
  /\ adjustedDifficulty (getAdaptiveFeedback card false (Some 3000) (Some 0)) = hard.
Proof.
  split; [|split; reflexivity].
  unfold getAdaptiveFeedback, classify, decisionTable, nullish.
  set (ms := default 10000 responseTimeMs).
  set (st := default 0 streak).
  replace (match responseTimeMs with Some v => v | None => 10000 end) with ms
    by (destruct responseTimeMs; reflexivity).
  replace (match streak with Some v => v | None => 0 end) with st
    by (destruct streak; reflexivity).
  cbn [List.find applies].
  destruct isCorrect, (ms <? 8000), (2 <=? st), (st =? 0); reflexivity.
Qed.

(** ** Round-robin interleaving *)

Section round_robin.
Context {A : Type}.
Implicit Types (groups : list (list A)) (group : list A).

(** Round [i + 1] of the groups is round [i] of their tails. *)
Lemma roundAt_S groups i : roundAt groups (S i) = roundAt (tail <$> groups) i.
Proof.
  unfold roundAt. induction groups as [|g gs IH]; [reflexivity|].
  cbn [flat_map fmap list_fmap]. rewrite IH. f_equal. destruct g; reflexivity.
Qed.

Lemma rounds_S n groups :
  rounds (S n) groups = roundAt groups 0 ++ rounds n (tail <$> groups).
Proof.
  unfold rounds. cbn [seq flat_map]. f_equal.
  rewrite <- seq_shift, flat_map_concat_map, map_map, <- flat_map_concat_map.
  apply flat_map_ext. intros i. apply roundAt_S.
Qed.

Lemma maxLen_tail groups : maxLen (tail <$> groups) = pred (maxLen groups).
Proof.
  unfold maxLen. induction groups as [|g gs IH]; [reflexivity|].
  cbn [fmap list_fmap map foldr]. change (list_fmap _ _ tail gs) with (tail <$> gs).
  rewrite IH. destruct g; simpl; lia.
Qed.

Lemma maxLen_0 groups : maxLen groups = 0%nat -> concat groups = [].
Proof.
  unfold maxLen. induction groups as [|g gs IH]; [reflexivity|].
  cbn [map foldr concat]. intros Hm.
  destruct g; [apply IH; simpl in Hm; lia | simpl in Hm; lia].
Qed.

Lemma heads_tails_perm groups :
  roundAt groups 0 ++ concat (tail <$> groups) ≡ₚ concat groups.
Proof.
  unfold roundAt. induction groups as [|g gs IH]; [reflexivity|].
  cbn [flat_map fmap list_fmap concat].
  change (list_fmap _ _ tail gs) with (tail <$> gs).
  destruct g as [|x g]; simpl.
  - exact IH.
  - constructor. rewrite <- IH.
    rewrite !app_assoc. apply Permutation_app_tail, Permutation_app_comm.
Qed.

Lemma rounds_perm n groups : maxLen groups <= n -> rounds n groups ≡ₚ concat groups.
Proof.
  revert groups. induction n as [|n IH]; intros groups Hn.
  - rewrite maxLen_0 by lia. reflexivity.
  - rewrite rounds_S, IH by (rewrite maxLen_tail; lia).
    apply heads_tails_perm.
Qed.

(** Every card of every group is output exactly once. *)
Lemma roundRobin_perm groups : roundRobin groups ≡ₚ concat groups.
Proof. apply (rounds_perm (maxLen groups)). reflexivity. Qed.

End round_robin.

(** *** Source decks *)

Section sources.
Context {A : Type}.
Implicit Types (G : list (list (nat * A))) (x y z : nat * A).

Lemma sourcedFrom_cons o (g : list A) gs :
  sourcedFrom o (g :: gs) = ((fun c => (o, c)) <$> g) :: sourcedFrom (S o) gs.
Proof.
  unfold sourcedFrom. cbn [imap]. f_equal.
  - apply list_fmap_ext. intros _ c _. f_equal. lia.
  - apply imap_ext. intros k g' _. apply list_fmap_ext. intros _ c _.
    simpl. f_equal. lia.
Qed.

Lemma sourcedFrom_tagged o (groups : list (list A)) : tagged o (sourcedFrom o groups).
Proof.
  revert o. induction groups as [|g gs IH]; intros o; [exact I|].
  rewrite sourcedFrom_cons. split; [|apply IH].
  apply Forall_fmap, Forall_true. reflexivity.
Qed.

Lemma tagged_tail o G : tagged o G -> tagged o (tail <$> G).
Proof.
  revert o. induction G as [|g G IH]; intros o; [trivial|].
  intros [Hg HG]. split; [|apply IH, HG].
  destruct g; [constructor|]. simpl. by inversion Hg.
Qed.

Lemma tagged_lower o G : tagged o G -> forall g z, g ∈ G -> z ∈ g -> o <= z.1.
Proof.
  revert o. induction G as [|g0 G IH]; intros o HG g z Hg Hz.
  - by apply elem_of_nil in Hg.
  - destruct HG as [Hg0 HG]. apply elem_of_cons in Hg as [->|Hg].
    + rewrite Forall_forall in Hg0. rewrite (Hg0 z); [lia|done].
    + specialize (IH (S o) HG g z Hg Hz). lia.
Qed.

Lemma roundAt_cons (g : list (nat * A)) G :
  roundAt (g :: G) 0 = match g with [] => [] | a :: _ => [a] end ++ roundAt G 0.
Proof. unfold roundAt. cbn [flat_map]. destruct g; reflexivity. Qed.

Lemma roundAt_0_elem G x : x ∈ roundAt G 0 -> exists g, g ∈ G /\ x ∈ g.
Proof.
  induction G as [|g G IH]; [intros Hx; by apply elem_of_nil in Hx|].
  rewrite roundAt_cons, elem_of_app. intros [Hx|Hx].
  - exists g. split; [left|]. destruct g; [by apply elem_of_nil in Hx|].
    apply list_elem_of_singleton in Hx as ->. left.
  - destruct (IH Hx) as (g' & Hg' & Hx'). exists g'. split; [by right | done].
Qed.

Lemma roundAt_0_nil G : roundAt G 0 = [] -> forall g, g ∈ G -> g = [].
Proof.
  induction G as [|g0 G IH]; intros Hh g Hg; [by apply elem_of_nil in Hg|].
  rewrite roundAt_cons in Hh. apply app_eq_nil in Hh as [Hg0 Hh].
  apply elem_of_cons in Hg as [->|Hg]; [by destruct g0 | by apply IH].
Qed.

Lemma rounds_elem n G x : x ∈ rounds n G -> exists g, g ∈ G /\ x ∈ g.
Proof.
  revert G. induction n as [|n IH]; intros G; [intros Hx; by apply elem_of_nil in Hx|].
  rewrite rounds_S, elem_of_app. intros [Hx|Hx]; [by apply roundAt_0_elem|].
  destruct (IH _ Hx) as (g & Hg & Hxg).
  apply list_elem_of_fmap in Hg as (g0 & -> & Hg0).
  exists g0. split; [done|]. destruct g0; [done|]. by right.
Qed.

(** The output starts with the first card of the first round. *)
Lemma rounds_first n G y post :
  rounds n G = y :: post -> exists post', roundAt G 0 = y :: post'.
Proof.
  destruct n as [|n]; [discriminate|]. rewrite rounds_S.
  destruct (roundAt G 0) as [|y' post'] eqn:Hh.
  - intros HR. exfalso.
    assert (Hy : y ∈ rounds n (tail <$> G)) by (simpl in HR; rewrite HR; left).
    destruct (rounds_elem _ _ _ Hy) as (g & Hg & Hyg).
    apply list_elem_of_fmap in Hg as (g0 & -> & Hg0).
    rewrite (roundAt_0_nil G Hh g0 Hg0) in Hyg. by apply elem_of_nil in Hyg.
  - intros [= -> _]. by exists post'.
Qed.

(** Within one round the sources increase. *)
Lemma roundAt_0_adjacent o G pre x y post :
  tagged o G -> roundAt G 0 = pre ++ x :: y :: post -> x.1 < y.1.
Proof.
  revert o pre. induction G as [|g G IH]; intros o pre HG Hh.
  - by destruct pre.
  - destruct HG as [Hg HG]. rewrite roundAt_cons in Hh.
    destruct g as [|a g]; [by apply (IH (S o) pre)|].
    destruct pre as [|p pre]; simpl in Hh.
    + injection Hh as -> Hh.
      assert (Hy : y ∈ roundAt G 0) by (rewrite Hh; left).
      destruct (roundAt_0_elem _ _ Hy) as (g' & Hg' & Hyg).
      pose proof (tagged_lower _ _ HG _ _ Hg' Hyg).
      inversion Hg; subst. lia.
    + injection Hh as -> Hh. by apply (IH (S o) pre).
Qed.

(** The last card of a round has the largest source of all cards. *)
Lemma roundAt_0_last o G pre x :
  tagged o G -> roundAt G 0 = pre ++ [x] ->
  forall g z, g ∈ G -> z ∈ g -> z.1 <= x.1.
Proof.
  revert o pre. induction G as [|g0 G IH]; intros o pre HG Hh g z Hg Hz.
  - by apply elem_of_nil in Hg.
  - destruct HG as [Hg0 HG]. rewrite roundAt_cons in Hh.
    destruct (roundAt G 0) as [|h hs] eqn:HhG.
    + apply elem_of_cons in Hg as [->|Hg].
      * destruct g0 as [|a g0]; [by apply elem_of_nil in Hz|].
        rewrite app_nil_r in Hh. destruct pre as [|? [|]]; try discriminate.
        injection Hh as <-. rewrite Forall_forall in Hg0.
        rewrite (Hg0 z), (Hg0 a); [lia|left|done].
      * rewrite (roundAt_0_nil G HhG g Hg) in Hz. by apply elem_of_nil in Hz.
    + assert (Hl : exists pre', h :: hs = pre' ++ [x]).
      { destruct (exists_last (l := h :: hs)) as (pre' & x' & Hl); [discriminate|].
        exists pre'. rewrite Hl in Hh |- *. rewrite app_assoc in Hh.
        apply app_inj_tail in Hh as [_ ->]. reflexivity. }
      destruct Hl as [pre' Hl].
      apply elem_of_cons in Hg as [->|Hg].
      * assert (Hx : x ∈ roundAt G 0) by (rewrite HhG, Hl; set_solver).
        destruct (roundAt_0_elem _ _ Hx) as (g' & Hg' & Hxg).
        pose proof (tagged_lower _ _ HG _ _ Hg' Hxg).
        rewrite Forall_forall in Hg0. rewrite (Hg0 z); [lia|done].
      * exact (IH (S o) pre' HG Hl g z Hg Hz).
Qed.

(** The first card of a round has the smallest source of all cards. *)
Lemma roundAt_0_head o G y post :
  tagged o G -> roundAt G 0 = y :: post ->
  forall g z, g ∈ G -> z ∈ g -> y.1 <= z.1.
Proof.
  revert o. induction G as [|g0 G IH]; intros o HG Hh g z Hg Hz.
  - by apply elem_of_nil in Hg.
  - destruct HG as [Hg0 HG]. rewrite roundAt_cons in Hh.
    destruct g0 as [|a g0].
    + apply elem_of_cons in Hg as [->|Hg]; [by apply elem_of_nil in Hz|].
      exact (IH (S o) HG Hh g z Hg Hz).
    + injection Hh as -> _. rewrite Forall_forall in Hg0.
      rewrite (Hg0 y) by left.
      apply elem_of_cons in Hg as [->|Hg].
      * rewrite (Hg0 z); [lia|done].
      * pose proof (tagged_lower _ _ HG _ _ Hg Hz). lia.
Qed.

(** Two neighbours [x], [y] of [l1 ++ l2] lie both in [l1], or across
    the seam, or both in [l2]. *)
Lemma app_neighbours {B} (l1 l2 pre post : list B) (x y : B) :
  l1 ++ l2 = pre ++ x :: y :: post ->
  (exists post1, l1 = pre ++ x :: y :: post1 /\ post = post1 ++ l2)
  \/ (l1 = pre ++ [x] /\ l2 = y :: post)
  \/ (exists pre2, pre = l1 ++ pre2 /\ l2 = pre2 ++ x :: y :: post).
Proof.
  revert pre. induction l1 as [|h l1 IH]; intros pre Heq.
  - right. right. by exists pre.
  - destruct pre as [|p pre]; simpl in Heq.
    + injection Heq as -> Heq. destruct l1 as [|h' l1]; simpl in Heq.
      * right. left. by subst.
      * injection Heq as -> Heq. left. by exists l1.
    + injection Heq as -> Heq. destruct (IH pre Heq) as [(post1 & -> & ->)|[[-> ->]|(pre2 & -> & ->)]].
      * left. by exists post1.
      * right. by left.
      * right. right. by exists pre2.
Qed.

Lemma rounds_settled n o G : tagged o G -> settled (rounds n G).
Proof.
  revert G. induction n as [|n IH]; intros G HG pre x y post Hout Hxy.
  - by destruct pre.
  - rewrite rounds_S in Hout.
    apply app_neighbours in Hout as [(post1 & Hh & _)|[[Hh HR]|(pre2 & _ & HR)]].
    + pose proof (roundAt_0_adjacent _ _ _ _ _ _ HG Hh). lia.
    + apply Forall_forall. intros z Hz.
      assert (HzR : z ∈ rounds n (tail <$> G)) by (rewrite HR; by right).
      destruct (rounds_elem _ _ _ HzR) as (g & Hg & Hzg).
      destruct (rounds_first _ _ _ _ HR) as [post' Hh'].
      pose proof (roundAt_0_head _ _ _ _ (tagged_tail _ _ HG) Hh' g z Hg Hzg) as Hlo.
      apply list_elem_of_fmap in Hg as (g0 & -> & Hg0).
      assert (Hzg0 : z ∈ g0) by (destruct g0; [done | by right]).
      pose proof (roundAt_0_last _ _ _ _ HG Hh g0 z Hg0 Hzg0) as Hhi.
      lia.
    + exact (IH _ (tagged_tail _ _ HG) pre2 x y post HR Hxy).
Qed.

End sources.

Section sourced_output.
Context {A : Type}.
Implicit Types groups : list (list A).

Lemma roundAt_sourcedFrom o groups i :
  snd <$> roundAt (sourcedFrom o groups) i = roundAt groups i.
Proof.
  revert o. induction groups as [|g gs IH]; intros o; [reflexivity|].
  rewrite sourcedFrom_cons. unfold roundAt in *. cbn [flat_map].
  rewrite fmap_app, IH. f_equal.
  rewrite list_lookup_fmap. by destruct (g !! i).
Qed.

Lemma maxLen_sourcedFrom o groups : maxLen (sourcedFrom o groups) = maxLen groups.
Proof.
  revert o. induction groups as [|g gs IH]; intros o; [reflexivity|].
  rewrite sourcedFrom_cons. unfold maxLen in *. cbn [map foldr].
  by rewrite IH, length_fmap.
Qed.

(** Forgetting the sources gives back the output of the source code. *)
Lemma roundRobin_sourced groups :
  snd <$> roundRobin (sourced groups) = roundRobin groups.
Proof.
  unfold roundRobin, sourced. rewrite maxLen_sourcedFrom.
  induction (seq 0 (maxLen groups)) as [|i l IH]; [reflexivity|].
  cbn [flat_map]. by rewrite fmap_app, IH, roundAt_sourcedFrom.
Qed.

Lemma roundRobin_settled groups : settled (roundRobin (sourced groups)).
Proof. apply (rounds_settled _ 0), sourcedFrom_tagged. Qed.

End sourced_output.

(** Three sizes that are 2, 3 and 1 in some order. *)
Lemma sizes_2_3_1 (a b c : nat) :
  [a; b; c] ≡ₚ [2; 3; 1]%nat ->
  (a, b, c) ∈ [(2, 3, 1); (2, 1, 3); (3, 2, 1); (3, 1, 2); (1, 2, 3); (1, 3, 2)]%nat.
Proof.
  intros Hp.
  assert (Ha : a ∈ [2; 3; 1]%nat) by (rewrite <- Hp; apply list_elem_of_In; simpl; auto).
  assert (Hb : b ∈ [2; 3; 1]%nat) by (rewrite <- Hp; apply list_elem_of_In; simpl; auto).
  assert (Hc : c ∈ [2; 3; 1]%nat) by (rewrite <- Hp; apply list_elem_of_In; simpl; auto).
  assert (H1 : 1%nat ∈ [a; b; c]) by (rewrite Hp; apply list_elem_of_In; simpl; auto).
  assert (H3 : 3%nat ∈ [a; b; c]) by (rewrite Hp; apply list_elem_of_In; simpl; auto).
  assert (H2 : 2%nat ∈ [a; b; c]) by (rewrite Hp; apply list_elem_of_In; simpl; auto).
  clear Hp. apply list_elem_of_In in Ha, Hb, Hc, H1, H2, H3. simpl in *.
  destruct Ha as [<-|[<-|[<-|[]]]], Hb as [<-|[<-|[<-|[]]]], Hc as [<-|[<-|[<-|[]]]];
    first [ exfalso; lia | apply list_elem_of_In; simpl; auto 10 ].
Qed.

(** C6. In round-robin mode [createInterleavedDeck] outputs every
    selected card exactly once, and two consecutive output cards share
    their source deck only when every later card has that source too:
    no other deck has a card left. Three decks of 2, 3 and 1 cards, in
    any order, give 6 cards, the last one from the 3-card deck. *)
Theorem createInterleavedDeck_round_robin `{Host}
    (allDecks : list FlashcardDeck) (config : InterleavedConfig) :
  shuffleMode config = "round-robin" ->
  exists deck,
    createInterleavedDeck allDecks config = Returned deck
    /\ cards deck ≡ₚ concat (cardGroups allDecks config)
    /\ snd <$> roundRobin (sourced (cardGroups allDecks config)) = cards deck
    /\ settled (roundRobin (sourced (cardGroups allDecks config)))
    /\ (forall d1 d2 d3,
          allDecks = [d1; d2; d3] ->
          deckIds config = None -> cardsPerDeck config = None ->
          [length (cards d1); length (cards d2); length (cards d3)] ≡ₚ [2; 3; 1]%nat ->
          length (cards deck) = 6%nat
          /\ exists (k : nat) d,
               allDecks !! k = Some d
               /\ length (cards d) = 3%nat
               /\ last (roundRobin (sourced (cardGroups allDecks config)))
                  = (fun c => (k, c)) <$> last (cards d)).
Proof.
  intros Hmode. unfold createInterleavedDeck. rewrite Hmode.
  rewrite bool_decide_eq_true_2 by reflexivity.
  eexists. split; [reflexivity|]. cbn [cards].
  split; [apply roundRobin_perm|].
  split; [apply roundRobin_sourced|].
  split; [apply roundRobin_settled|].
  intros d1 d2 d3 -> Hids Hcap Hsizes.
  unfold cardGroups, targetDecks, cardGroup. rewrite Hids, Hcap. cbn [map].
  apply sizes_2_3_1 in Hsizes.
  repeat (apply elem_of_cons in Hsizes as [[= H1 H2 H3]|Hsizes]);
    [..|by apply elem_of_nil in Hsizes].
  all: destruct (cards d1) as [|a1 [|a2 [|a3 [|]]]] eqn:E1; try discriminate.
  all: destruct (cards d2) as [|b1 [|b2 [|b3 [|]]]] eqn:E2; try discriminate.
  all: destruct (cards d3) as [|c1 [|c2 [|c3 [|]]]] eqn:E3; try discriminate.
  all: split; [reflexivity|].
  1, 6: exists 1%nat; exists d2; rewrite E2; repeat split.
  1, 4: exists 2%nat; exists d3; rewrite E3; repeat split.
  all: exists 0%nat; exists d1; rewrite E1; repeat split.
Qed.

Lemma createInterleavedDeck_round_robin_witness :
  exists deck,
    createInterleavedDeck (H := fixedHost)
      [ {| deck_id := "a"; name := "A"; description := ""; createdAt := ""; updatedAt := "";
           deck_tags := None; category := None;
           cards := [mkCard "a1" easy 2.5 1 0 "d"; mkCard "a2" easy 2.5 1 0 "d"] |};
        {| deck_id := "b"; name := "B"; description := ""; createdAt := ""; updatedAt := "";
           deck_tags := None; category := None;
           cards := [mkCard "b1" easy 2.5 1 0 "d"; mkCard "b2" easy 2.5 1 0 "d";
                     mkCard "b3" easy 2.5 1 0 "d"] |};
        {| deck_id := "c"; name := "C"; description := ""; createdAt := ""; updatedAt := "";
           deck_tags := None; category := None;
           cards := [mkCard "c1" easy 2.5 1 0 "d"] |} ]
      {| deckIds := None; cardsPerDeck := None; shuffleMode := "round-robin";
         difficultyRange := None |}
    = Returned deck
    /\ length (cards deck) = 6%nat.
Proof.
  match goal with
  | |- exists deck, createInterleavedDeck ?pool ?cfg = _ /\ _ =>
      destruct (createInterleavedDeck_round_robin (H := fixedHost) pool cfg eq_refl)
        as (deck & Hd & _ & _ & _ & H3)
  end.
  exists deck. split; [exact Hd|].
  exact (proj1 (H3 _ _ _ eq_refl eq_refl eq_refl (Permutation_refl _))).
Defined.

(** ** The deliberate-practice composer *)

Lemma positive_cases (n : float) :
  (0 <? n) = true ->
  Prim2SF n = S754_infinity false \/ exists m e, Prim2SF n = S754_finite false m e.
Proof.
  rewrite ltb_spec.
  replace (Prim2SF 0) with (S754_zero false) by (vm_compute; reflexivity).
  destruct (Prim2SF n) as [s|[]| |[] m e]; try discriminate; eauto.
Qed.

Lemma positive_truthy (n : float) : (0 <? n) = true -> truthy n = true.
Proof.
  intros Hn. unfold truthy, isNaN. rewrite !FloatAxioms.eqb_spec.
  replace (Prim2SF 0) with (S754_zero false) by (vm_compute; reflexivity).
  destruct (positive_cases n Hn) as [->|(m & e & ->)]; [reflexivity|].
  unfold SFeqb. rewrite SFcompare_refl by discriminate. reflexivity.
Qed.

Lemma slice0_nat {A} (l : list A) (k : nat) : slice0 l (Fin (Z.of_nat k)) = take k l.
Proof.
  unfold slice0. destruct (Z.of_nat k <? 0)%Z eqn:Hk; [apply Z.ltb_lt in Hk; lia|].
  by rewrite Nat2Z.id.
Qed.

(** C10. A [maxCards] of 0, or any other falsy value, is replaced by the
    limit 20: the deck holds the first min(20, number of matching cards)
    matching cards, not none. A positive [maxCards] is the limit itself:
    a count [n] gives the first [n] matching cards, [maxCards = 5] the
    first 5. *)
Theorem createDeliberatePracticeDeck_limit `{Host}
    (allDecks : list FlashcardDeck) (config : DeliberatePracticeConfig) :
  exists deck,
    createDeliberatePracticeDeck allDecks config = Returned deck
    /\ (from_option truthy false (maxCards config) = false ->
        cards deck = take 20 (matchingCards allDecks config)
        /\ length (cards deck) = Nat.min 20 (length (matchingCards allDecks config)))
    /\ (forall n : nat,
          (0 < n)%nat -> (Z.of_nat n < 2 ^ 53)%Z -> maxCards config = Some (ofNat n) ->
          cards deck = take n (matchingCards allDecks config)
          /\ length (cards deck) = Nat.min n (length (matchingCards allDecks config)))
    /\ (forall x, maxCards config = Some x -> (0 <? x) = true ->
        cards deck = slice0 (matchingCards allDecks config) (toIntegerOrInfinity x))
    /\ (maxCards config = Some 5 ->
        cards deck = take 5 (matchingCards allDecks config)).
Proof.
  unfold createDeliberatePracticeDeck. eexists. split; [reflexivity|]. cbn [cards].
  split; [|split; [|split]].
  - intros Hfalsy.
    assert (Hl : orElse (maxCards config) 20 = 20).
    { unfold orElse. destruct (maxCards config) as [v|]; [|reflexivity].
      simpl in Hfalsy. by rewrite Hfalsy. }
    rewrite Hl. replace (toIntegerOrInfinity 20) with (Fin (Z.of_nat 20))
      by (vm_compute; reflexivity).
    rewrite slice0_nat. split; [reflexivity|]. rewrite length_take. lia.
  - intros n Hpos Hn Hmax. unfold orElse.
    rewrite Hmax, (positive_truthy _ (ofNat_positive n Hpos Hn)).
    rewrite (toIntegerOrInfinity_ofNat n Hn), slice0_nat.
    split; [reflexivity|]. rewrite length_take. lia.
  - intros x Hx Hpos. unfold orElse. by rewrite Hx, (positive_truthy x Hpos).
  - intros ->. unfold orElse.
    replace (truthy 5) with true by (vm_compute; reflexivity).
    replace (toIntegerOrInfinity 5) with (Fin (Z.of_nat 5)) by (vm_compute; reflexivity).
    by rewrite slice0_nat.
Qed.

Lemma createDeliberatePracticeDeck_limit_witness :
  exists deck,
    createDeliberatePracticeDeck (H := fixedHost) [biologyDeck]
      {| focusAreas := None; difficultyLevel := None; maxCards := Some 0;
         adaptiveThreshold := None; sourceDeckIds := None |}
    = Returned deck
    /\ length (cards deck) = 3%nat.
Proof.
  match goal with
  | |- exists deck, createDeliberatePracticeDeck ?pool ?cfg = _ /\ _ =>
      destruct (createDeliberatePracticeDeck_limit (H := fixedHost) pool cfg)
        as (deck & Hd & H0 & _)
  end.
  exists deck. split; [exact Hd|].
  rewrite (proj2 (H0 eq_refl)). reflexivity.
Defined.

(** ** The interleaved composer, other modes *)

Lemma delete_insert_same {A} (l : list A) (i : nat) (y : A) :
  delete i (<[i:=y]> l) = delete i l.
Proof.
  revert i. induction l as [|h l IH]; intros [|i]; simpl; try reflexivity.
  f_equal. apply IH.
Qed.

Lemma swap_perm {A} (a : list A) (i : nat) (j : option nat) : swap a i j ≡ₚ a.
Proof.
  unfold swap. destruct (a !! i) as [x|] eqn:Hi; [|reflexivity].
  destruct j as [j|]; [|reflexivity]. simpl.
  destruct (a !! j) as [y|] eqn:Hj; [|reflexivity].
  destruct (decide (i = j)) as [->|Hij].
  - rewrite list_insert_insert_eq. assert (x = y) as -> by congruence.
    by rewrite list_insert_id.
  - assert (Hbj : <[i:=y]> a !! j = Some y) by (by rewrite list_lookup_insert_ne).
    assert (Hbi : <[i:=y]> a !! i = Some y).
    { apply list_lookup_insert_eq. by apply lookup_lt_Some in Hi. }
    assert (Hcj : <[j:=x]> (<[i:=y]> a) !! j = Some x).
    { apply list_lookup_insert_eq. by apply lookup_lt_Some in Hbj. }
    etrans; [apply (delete_Permutation _ _ _ Hcj)|].
    etrans; [|symmetry; apply (delete_Permutation _ _ _ Hi)].
    constructor. rewrite delete_insert_same.
    apply (Permutation_cons_inv (a := y)).
    etrans; [symmetry; apply (delete_Permutation _ _ _ Hbj)|].
    etrans; [apply (delete_Permutation _ _ _ Hbi)|].
    by rewrite delete_insert_same.
Qed.

Lemma shuffleFrom_perm {A} (rand : nat -> float) (i k : nat) (a : list A) :
  shuffleFrom rand i k a ≡ₚ a.
Proof.
  revert k a. induction i as [|i IH]; intros k a; [reflexivity|].
  cbn [shuffleFrom]. etrans; [apply IH|]. apply swap_perm.
Qed.

(** The shuffle rearranges the cards and loses none. *)
Lemma fisherYates_perm {A} (rand : nat -> float) (a : list A) : fisherYates rand a ≡ₚ a.
Proof. apply shuffleFrom_perm. Qed.

(** C9 as stated fails: the mode ['weighted'] raises nothing and is
    served as a random shuffle. *)
Lemma createInterleavedDeck_accepts_weighted :
  exists deck,
    createInterleavedDeck (H := fixedHost) twoDecks
      {| deckIds := None; cardsPerDeck := None; shuffleMode := "weighted";
         difficultyRange := None |}
    = Returned deck
    /\ card_id <$> cards deck = ["c1"; "k1"; "c2"; "c3"]
    /\ createInterleavedDeck (H := fixedHost) twoDecks
         {| deckIds := None; cardsPerDeck := None; shuffleMode := "random";
            difficultyRange := None |}
       = Returned deck.
Proof.
  eexists. split; [reflexivity|]. split; [vm_compute; reflexivity | reflexivity].
Qed.

(** C9, amended. Every shuffle mode other than ['round-robin'], be it
    ['random'], ['weighted'] or any other string, selects the random
    shuffle: the call raises no error and returns the deck that mode
    ['random'] returns for the same random draws, a rearrangement of the
    selected cards. *)
Theorem createInterleavedDeck_other_modes `{Host}
    (allDecks : list FlashcardDeck) (config : InterleavedConfig) :
  shuffleMode config <> "round-robin" ->
  createInterleavedDeck allDecks config <> Thrown InvalidArgument
  /\ exists deck,
      createInterleavedDeck allDecks config = Returned deck
      /\ cards deck = fisherYates random (concat (cardGroups allDecks config))
      /\ cards deck ≡ₚ concat (cardGroups allDecks config)
      /\ createInterleavedDeck allDecks
           {| deckIds := deckIds config; cardsPerDeck := cardsPerDeck config;
              shuffleMode := "random"; difficultyRange := difficultyRange config |}
         = Returned deck.
Proof.
  intros Hmode. unfold createInterleavedDeck.
  rewrite (bool_decide_eq_false_2 _ Hmode).
  split; [discriminate|]. eexists. split; [reflexivity|]. cbn [cards].
  split; [reflexivity|]. split; [apply fisherYates_perm|]. reflexivity.
Qed.

Lemma createInterleavedDeck_other_modes_witness :
  "weighted" <> "round-robin"
  /\ createInterleavedDeck (H := fixedHost) twoDecks
       {| deckIds := None; cardsPerDeck := None; shuffleMode := "weighted";
          difficultyRange := None |}
     <> Thrown InvalidArgument.
Proof.
  assert (Hm : "weighted" <> "round-robin") by discriminate.
  split; [exact Hm|].
  exact (proj1 (createInterleavedDeck_other_modes (H := fixedHost) twoDecks
                  {| deckIds := None; cardsPerDeck := None; shuffleMode := "weighted";
                     difficultyRange := None |} Hm)).
Defined.

(** ** Topic statistics *)

(** A deck without a category is filed under the key ["undefined"],
    whatever its name. *)
Lemma uncategorised_label (deck : FlashcardDeck) :
  category deck = None \/ category deck = Some "" ->
  propertyKey (strOr (category deck) (title deck)) = "undefined".
Proof. intros [-> | ->]; reflexivity. Qed.

(** C7, as the code has it. The deck "Biology" has no category; its
    three cards are counted under the label ["undefined"], and the table
    has no entry for "Biology". *)
Theorem chapterStats_uncategorised_deck :
  category biologyDeck = None
  /\ chapterStats [biologyDeck] !! "Biology" = None
  /\ chapterStats [biologyDeck] !! "undefined"
     = Some {| total := 8; correct := 5; stat_cards := ["c1"; "c2"; "c3"] |}.
Proof. vm_compute. repeat split. Qed.

(** ** The metacognition score *)

(** With no answered question the score is 0. *)
Lemma calculateMetacognitionScore_unanswered (answers : gmap string Answer)
    (questions : list MetacognitionQuestion) :
  Forall (fun q => answers !! question_id q = None
                   \/ answers !! question_id q = Some (AString "")) questions ->
  calculateMetacognitionScore answers questions = 0.
Proof.
  intros Hq. unfold calculateMetacognitionScore.
  destruct (length questions =? 0)%nat; [reflexivity|].
  assert (Hf : foldl (scoreQuestion answers) (0, 0) questions = (0, 0)).
  { induction Hq as [|q qs Hq _ IH]; [reflexivity|].
    cbn [foldl]. replace (scoreQuestion answers (0, 0) q) with ((0, 0) : float * float).
    - exact IH.
    - unfold scoreQuestion. destruct Hq as [-> | ->]; reflexivity. }
  rewrite Hf. reflexivity.
Qed.

(** C8, as the code has it. A rating of 10 on a scale of 5 scores 200,
    outside 0..100; a rating of 5 scores 100 and an empty answer 0. *)
Theorem calculateMetacognitionScore_out_of_scale :
  calculateMetacognitionScore {[ "q1" := ANumber 10 ]} [ratingOutOf5] = 200
  /\ (100 <? calculateMetacognitionScore {[ "q1" := ANumber 10 ]} [ratingOutOf5]) = true
  /\ calculateMetacognitionScore {[ "q1" := ANumber 5 ]} [ratingOutOf5] = 100
  /\ calculateMetacognitionScore {[ "q1" := AString "" ]} [ratingOutOf5] = 0.
Proof. vm_compute. repeat split. Qed.

(** The quotient is taken before the factor 100: in binary64, 23 points
    out of 40 give 57, where 100 × 23/40 is 57.5 and rounds to 58. *)
Example calculateMetacognitionScore_half :
  let question i :=
    {| question_id := i; question_text := ""; question_type := rating;
       scale := Some 5; options := None |} in
  let answers : gmap string Answer :=
    list_to_map [("q1", ANumber 3); ("q2", ANumber 3); ("q3", ANumber 3); ("q4", ANumber 3);
                 ("q5", ANumber 3); ("q6", ANumber 3); ("q7", ANumber 3); ("q8", ANumber 2)] in
  calculateMetacognitionScore answers
    (question <$> ["q1"; "q2"; "q3"; "q4"; "q5"; "q6"; "q7"; "q8"]) = 57
  /\ Math_round (100 * 23 / 40) = 58.
Proof. vm_compute. split; reflexivity. Qed.

(** * Further properties *)

(** ** The new functions on the sample values *)

Example parseFloat_toFixed_values :
  parseFloat_toFixed 2 1.005 = 1 /\ parseFloat_toFixed 0 2.5 = 3
  /\ parseFloat_toFixed 0 (-2.5) = (-3) /\ parseFloat_toFixed 1 1.45 = 1.4
  /\ parseFloat_toFixed 2 8.345 = 8.35 /\ parseFloat_toFixed 2 (0.1 + 0.2) = 0.3
  /\ parseFloat_toFixed 2 (-0.001) = neg_zero /\ parseFloat_toFixed 2 neg_zero = 0
  /\ parseFloat_toFixed 2 infinity = infinity.
Proof. vm_compute. repeat split. Qed.

Example calculateSubjectGPA_graded :
  calculateSubjectGPA gradedSubject = Some 4
  /\ calculateOverallGPA [gradedSubject] = 4
  /\ calculateGoalProgress gradedSubject = 100.
Proof. vm_compute. repeat split. Qed.

Example ownKeys_order :
  ownKeys ["b"; "10"; "a"; "2"; "b"; "01"] = ["2"; "10"; "b"; "a"; "01"].
Proof. vm_compute. reflexivity. Qed.

Example analyzeWeaknessPatterns_twoDecks :
  strongAreas (analyzeWeaknessPatterns twoDecks) = []
  /\ weak_chapter <$> overallWeakAreas (analyzeWeaknessPatterns twoDecks) = ["undefined"]
  /\ averageAccuracy (analyzeWeaknessPatterns twoDecks) = 0.625
  /\ improvementTrend (analyzeWeaknessPatterns twoDecks) = Weakness.stable.
Proof. vm_compute. repeat split. Qed.

Example getStudyStatistics_sample :
  getStudyStatistics sampleSession
  = {| totalReviews := 4; correctCount := 2; incorrectCount := 2; averageQuality := 3;
       completionRate := 50; averageTime := 1501; streakCount := 1; hardCards := ["a"] |}.
Proof. vm_compute. reflexivity. Qed.

(** ** Exact operations on binary64 numbers *)

Lemma iter_pos_nat {A} (f : A -> A) (p : positive) (x : A) :
  SpecFloat.iter_pos f p x = Nat.iter (Pos.to_nat p) f x.
Proof.
  revert x. induction p as [p IH|p IH|]; intros x; simpl SpecFloat.iter_pos.
  - rewrite !IH, Pos2Nat.inj_xI, <- Nat.iter_add, <- Nat.iter_succ_r. f_equal. lia.
  - rewrite !IH, Pos2Nat.inj_xO, <- Nat.iter_add. f_equal. lia.
  - reflexivity.
Qed.

(** Shifting [k] zero bits out of a mantissa leaves an exact result. *)
Lemma shr_exact (k : nat) (m : positive) :
  Nat.iter k shr_1 {| shr_m := Z.pos (Nat.iter k xO m); shr_r := false; shr_s := false |}
  = {| shr_m := Z.pos m; shr_r := false; shr_s := false |}.
Proof.
  induction k as [|k IH]; [reflexivity|].
  rewrite Nat.iter_succ_r. exact IH.
Qed.

Lemma shr_nat (r : shr_record) (e n : Z) :
  shr r e n = (Nat.iter (Z.to_nat n) shr_1 r, (e + Z.max 0 n)%Z).
Proof.
  destruct n as [|p|p]; simpl.
  - f_equal. lia.
  - rewrite iter_pos_nat. reflexivity.
  - f_equal. lia.
Qed.

Lemma shl_align_nat (m : positive) (e f : Z) :
  shl_align m e f = (Nat.iter (Z.to_nat (e - f)) xO m, Z.min e f).
Proof.
  unfold shl_align. destruct (f - e)%Z as [|d|d] eqn:Hd.
  - replace (e - f)%Z with 0%Z by lia. simpl. f_equal. lia.
  - replace (Z.to_nat (e - f)) with 0%nat by lia. simpl. f_equal. lia.
  - rewrite Pos2Nat.inj_iter. replace (Z.to_nat (e - f)) with (Pos.to_nat d) by lia.
    f_equal. lia.
Qed.

Lemma digits2_shift_nat (k : nat) (m : positive) :
  Z.pos (digits2_pos (Nat.iter k xO m)) = (Z.pos (digits2_pos m) + Z.of_nat k)%Z.
Proof.
  induction k as [|k IH]; simpl; [lia|]. rewrite Pos2Z.inj_succ, IH. lia.
Qed.

Lemma shl_nat_value (k : nat) (m : positive) :
  Z.pos (Nat.iter k xO m) = (Z.pos m * 2 ^ Z.of_nat k)%Z.
Proof.
  induction k as [|k IH]; [simpl; lia|].
  rewrite Nat2Z.inj_succ, Z.pow_succ_r by lia. simpl. rewrite Pos2Z.inj_xO, IH. ring.
Qed.

(** The first step of rounding [m * 2^e]: the mantissa is aligned to
    the exponent of its binade, to the left or exactly to the right. *)
Lemma binary_round_first (s : bool) (m : positive) (e : Z) :
  let f := fexp prec emax (Z.pos (digits2_pos m) + e) in
  binary_round prec emax s m e
  = let '(mrs, e') :=
      (Nat.iter (Z.to_nat (f - e)) shr_1
         {| shr_m := Z.pos (Nat.iter (Z.to_nat (e - f)) xO m); shr_r := false; shr_s := false |},
       f) in
    let '(mrs', e'') :=
      shr_fexp prec emax (round_nearest_even (shr_m mrs) (loc_of_shr_record mrs)) e' loc_Exact in
    match shr_m mrs' with
    | Z0 => S754_zero s
    | Z.pos m' => if (e'' <=? emax - prec)%Z then S754_finite s m' e'' else S754_infinity s
    | Z.neg _ => S754_nan
    end.
Proof.
  intros f. unfold binary_round. fold f. rewrite shl_align_nat.
  unfold binary_round_aux. unfold shr_fexp at 1. cbn [Zdigits2 shr_record_of_loc].
  rewrite digits2_shift_nat, shr_nat.
  assert (Hf : fexp prec emax (Z.pos (digits2_pos m) + Z.of_nat (Z.to_nat (e - f)) + Z.min e f) = f).
  { unfold f at 3. f_equal. lia. }
  rewrite Hf.
  replace (Z.to_nat (f - Z.min e f)) with (Z.to_nat (f - e)) by lia.
  replace (Z.min e f + Z.max 0 (f - Z.min e f))%Z with f by lia.
  reflexivity.
Qed.

(** Rounding depends on the value only: [(m * 2^k) * 2^(e-k)] rounds as
    [m * 2^e] does. *)
Lemma binary_round_shift (s : bool) (m : positive) (k : nat) (e : Z) :
  binary_round prec emax s (Nat.iter k xO m) (e - Z.of_nat k) = binary_round prec emax s m e.
Proof.
  rewrite !binary_round_first. cbv zeta.
  rewrite digits2_shift_nat.
  replace (Z.pos (digits2_pos m) + Z.of_nat k + (e - Z.of_nat k))%Z
    with (Z.pos (digits2_pos m) + e)%Z by lia.
  set (f := fexp prec emax (Z.pos (digits2_pos m) + e)).
  set (a := Z.to_nat (e - f)). set (b := Z.to_nat (f - e)).
  set (a' := Z.to_nat (e - Z.of_nat k - f)). set (b' := Z.to_nat (f - (e - Z.of_nat k))).
  assert (Hc : exists c, (a' + k = c + a /\ b' = b + c)%nat).
  { exists (a' + k - a)%nat. lia. }
  destruct Hc as (c & Ha & ->).
  rewrite <- (Nat.iter_add a' k), Ha, (Nat.iter_add c a), (Nat.iter_add b c), shr_exact.
  reflexivity.
Qed.

(** A natural number below [2^53] as a binary64 number. *)
Lemma Prim2SF_ofNat (n : nat) :
  (Z.of_nat n < 2 ^ 53)%Z ->
  Prim2SF (ofNat n) = binary_normalize prec emax (Z.of_nat n) 0 false
  /\ valid_binary (binary_normalize prec emax (Z.of_nat n) 0 false) = true.
Proof.
  intros Hn. unfold ofNat, ofZ. destruct (Z.of_nat n) as [|p|p] eqn:Hz; [| |lia].
  - split; reflexivity.
  - destruct (binary_normalize_integer p Hn) as (m & e & Hb & He & Hm & Hv).
    rewrite Hb. split; [apply Prim2SF_SF2Prim|]; exact Hv.
Qed.

Lemma shifted_integer (x p : positive) (e : Z) :
  (e <= 0)%Z -> (Z.pos x = Z.pos p * 2 ^ (- e))%Z -> x = Nat.iter (Z.to_nat (- e)) xO p.
Proof.
  intros He Hx. apply Pos2Z.inj_pos. rewrite Hx, shl_nat_value. f_equal. f_equal. lia.
Qed.

(** The sum of two naturals is exact below [2^53]. *)
Lemma ofNat_add (a b : nat) :
  (Z.of_nat (a + b) < 2 ^ 53)%Z -> ofNat a + ofNat b = ofNat (a + b).
Proof.
  intros Hab. apply Prim2SF_inj. rewrite add_spec.
  destruct (Prim2SF_ofNat a ltac:(lia)) as [-> _].
  destruct (Prim2SF_ofNat b ltac:(lia)) as [-> _].
  destruct (Prim2SF_ofNat (a + b) Hab) as [-> _].
  rewrite Nat2Z.inj_add.
  destruct (Z.of_nat a) as [|p|p] eqn:Ha; [| |lia];
    destruct (Z.of_nat b) as [|q|q] eqn:Hb; try lia.
  - reflexivity.
  - destruct (binary_normalize_integer q ltac:(lia)) as (m & e & Hq & _).
    rewrite Z.add_0_l, Hq. reflexivity.
  - destruct (binary_normalize_integer p ltac:(lia)) as (m & e & Hp & _).
    rewrite Z.add_0_r, Hp. reflexivity.
  - destruct (binary_normalize_integer p ltac:(lia)) as (m1 & e1 & Hp & He1 & Hm1 & _).
    destruct (binary_normalize_integer q ltac:(lia)) as (m2 & e2 & Hq & He2 & Hm2 & _).
    rewrite Hp, Hq. unfold SF64add, SFadd. cbn [cond_Zopp].
    set (ez := Z.min e1 e2).
    rewrite !shl_align_nat. cbn [fst].
    rewrite (shifted_integer m1 p e1 He1 Hm1), (shifted_integer m2 q e2 He2 Hm2).
    rewrite <- !Nat.iter_add.
    replace (Z.to_nat (e1 - ez) + Z.to_nat (- e1))%nat with (Z.to_nat (- ez)) by lia.
    replace (Z.to_nat (e2 - ez) + Z.to_nat (- e2))%nat with (Z.to_nat (- ez)) by lia.
    assert (Hs : (Z.pos (Nat.iter (Z.to_nat (- ez)) xO p) + Z.pos (Nat.iter (Z.to_nat (- ez)) xO q)
                  = Z.pos (Nat.iter (Z.to_nat (- ez)) xO (p + q)%positive))%Z).
    { rewrite !shl_nat_value. lia. }
    rewrite Hs. change (Z.pos p + Z.pos q)%Z with (Z.pos (p + q)). cbn [binary_normalize].
    replace ez with (0 - Z.of_nat (Z.to_nat (- ez)))%Z at 2 by lia.
    apply binary_round_shift.
Qed.

(** So is their difference. *)
Lemma ofNat_sub (a b : nat) :
  (b <= a)%nat -> (Z.of_nat a < 2 ^ 53)%Z -> ofNat a - ofNat b = ofNat (a - b).
Proof.
  intros Hle Ha. apply Prim2SF_inj. rewrite sub_spec.
  destruct (Prim2SF_ofNat a ltac:(lia)) as [-> _].
  destruct (Prim2SF_ofNat b ltac:(lia)) as [-> _].
  destruct (Prim2SF_ofNat (a - b) ltac:(lia)) as [-> _].
  rewrite Nat2Z.inj_sub by exact Hle.
  destruct (Z.of_nat a) as [|p|p] eqn:Hza; [| |lia];
    destruct (Z.of_nat b) as [|q|q] eqn:Hzb; try lia.
  - reflexivity.
  - destruct (binary_normalize_integer p ltac:(lia)) as (m & e & Hp & _).
    rewrite Z.sub_0_r. rewrite Hp. reflexivity.
  - destruct (binary_normalize_integer p ltac:(lia)) as (m1 & e1 & Hp & He1 & Hm1 & _).
    destruct (binary_normalize_integer q ltac:(lia)) as (m2 & e2 & Hq & He2 & Hm2 & _).
    rewrite Hp, Hq. unfold SF64sub, SFsub. cbn [cond_Zopp].
    set (ez := Z.min e1 e2).
    rewrite !shl_align_nat. cbn [fst].
    rewrite (shifted_integer m1 p e1 He1 Hm1), (shifted_integer m2 q e2 He2 Hm2).
    rewrite <- !Nat.iter_add.
    replace (Z.to_nat (e1 - ez) + Z.to_nat (- e1))%nat with (Z.to_nat (- ez)) by lia.
    replace (Z.to_nat (e2 - ez) + Z.to_nat (- e2))%nat with (Z.to_nat (- ez)) by lia.
    destruct (Z.pos p - Z.pos q)%Z as [|d|d] eqn:Hd; [| |lia].
    + replace (Nat.iter (Z.to_nat (- ez)) xO q) with (Nat.iter (Z.to_nat (- ez)) xO p)
        by (f_equal; lia).
      rewrite Z.sub_diag. reflexivity.
    + assert (Hs : (Z.pos (Nat.iter (Z.to_nat (- ez)) xO p) - Z.pos (Nat.iter (Z.to_nat (- ez)) xO q)
                    = Z.pos (Nat.iter (Z.to_nat (- ez)) xO d))%Z).
      { rewrite !shl_nat_value. lia. }
      rewrite Hs. cbn [binary_normalize].
      replace ez with (0 - Z.of_nat (Z.to_nat (- ez)))%Z at 2 by lia.
      apply binary_round_shift.
Qed.

(** ** The study queue: [getDueCards] and [sortCardsForStudy] *)

Lemma filter_perm {A} (p : A -> bool) (l1 l2 : list A) :
  l1 ≡ₚ l2 -> List.filter p l1 ≡ₚ List.filter p l2.
Proof.
  induction 1 as [|x l1 l2 _ IH|x y l|l1 l2 l3 _ IH1 _ IH2]; simpl.
  - reflexivity.
  - destruct (p x); [by constructor | done].
  - destruct (p x), (p y); try reflexivity. apply perm_swap.
  - by etrans.
Qed.

Lemma filter_sorted {A} (le : A -> A -> Prop) (p : A -> bool) (l : list A) :
  StronglySorted le l -> StronglySorted le (List.filter p l).
Proof.
  induction 1 as [|x l Hs IH Hx]; simpl; [constructor|].
  destruct (p x); [|done]. constructor; [done|].
  rewrite Forall_forall in Hx |- *. intros y Hy.
  apply Hx. apply list_elem_of_In in Hy. apply filter_In in Hy as [Hy _].
  by apply list_elem_of_In.
Qed.

Lemma filter_comm {A} (p q : A -> bool) (l : list A) :
  List.filter p (List.filter q l) = List.filter q (List.filter p l).
Proof.
  induction l as [|x l IH]; [reflexivity|]. simpl.
  destruct (p x) eqn:Hp, (q x) eqn:Hq; simpl; rewrite ?Hp, ?Hq, IH; reflexivity.
Qed.

Lemma filter_Forall {A} (P : A -> Prop) (p : A -> bool) (l : list A) :
  Forall P l -> Forall P (List.filter p l).
Proof.
  induction 1 as [|x l Hx _ IH]; simpl; [constructor|].
  destruct (p x); [by constructor | done].
Qed.

Section study_queue.
Context `{Host}.

(** X2. A queue of well-formed cards that is in study order already is
    returned as it is; so sorting twice is sorting once. *)
Theorem sortCardsForStudy_sorted_input (cs : list Flashcard) :
  Forall wellFormed cs ->
  (StronglySorted studyOrder cs -> sortCardsForStudy cs = cs)
  /\ sortCardsForStudy (sortCardsForStudy cs) = sortCardsForStudy cs.
Proof.
  intros Hcs.
  assert (Hfix : forall l, Forall wellFormed l -> StronglySorted studyOrder l ->
                           sortCardsForStudy l = l).
  { intros l Hl Hs. symmetry. apply sortCardsForStudy_unique; done. }
  split; [apply Hfix, Hcs|].
  apply Hfix.
  - unfold sortCardsForStudy. by rewrite Array_sort_perm.
  - exact (Array_sort_sorted compareForStudy wellFormed studyOrder
             studyOrder_keep studyOrder_move studyOrder_trans cs Hcs).
Qed.

(** X3. Selecting the due cards and ordering them commute: the due cards of
    the sorted queue are the sorted due cards. *)
Theorem getDueCards_sortCardsForStudy (now : float) (cs : list Flashcard) :
  Forall wellFormed cs ->
  getDueCards now (sortCardsForStudy cs) = sortCardsForStudy (getDueCards now cs).
Proof.
  intros Hcs. unfold getDueCards.
  apply sortCardsForStudy_unique.
  - by apply filter_Forall.
  - apply filter_perm. apply Array_sort_perm.
  - apply filter_sorted.
    exact (Array_sort_sorted compareForStudy wellFormed studyOrder
             studyOrder_keep studyOrder_move studyOrder_trans cs Hcs).
  - intros c Hc. rewrite !(filter_comm (sameKeys c)). f_equal.
    apply Array_sort_stable. intros x y. by apply sameKeys_keep.
Qed.

(** X4. [getDueCards] keeps the order of the cards; a card is due exactly
    when its review time is a number not after [now]: a card whose
    review date does not parse is never due, and with an invalid clock
    no card is. *)
Theorem getDueCards_due (now : float) (cs : list Flashcard) :
  sublist (getDueCards now cs) cs
  /\ (forall c, c ∈ getDueCards now cs <->
                c ∈ cs /\ isNaN (dueTime c) = false /\ isNaN now = false
                /\ (rank (dueTime c) <= rank now)%Z)
  /\ (isNaN now = true -> getDueCards now cs = []).
Proof.
  assert (Hle : forall x, (x <=? now) = true <->
                  isNaN x = false /\ isNaN now = false /\ (rank x <= rank now)%Z).
  { intros x. split.
    - intros Hx. pose proof Hx as Hx'. rewrite leb_spec in Hx'.
      apply SFleb_notNaN in Hx' as [H1 H2]. apply isNaN_spec in H1, H2.
      rewrite (leb_rank _ _ H1 H2) in Hx. apply Z.leb_le in Hx. done.
    - intros (H1 & H2 & Hr). rewrite (leb_rank _ _ H1 H2). by apply Z.leb_le. }
  unfold getDueCards. split; [|split].
  - induction cs as [|c cs IH]; simpl; [constructor|].
    destruct (_ <=? now); [by apply sublist_skip | by apply sublist_cons].
  - intros c. rewrite list_elem_of_In, filter_In, <- list_elem_of_In.
    unfold dueTime. by rewrite Hle.
  - intros Hn. induction cs as [|c cs IH]; simpl; [reflexivity|].
    destruct (_ <=? now) eqn:Hc; [|exact IH].
    apply Hle in Hc as (_ & Hc & _). congruence.
Qed.

End study_queue.

Lemma sortCardsForStudy_sorted_input_witness :
  sortCardsForStudy (H := fixedHost) (sortCardsForStudy (H := fixedHost) studyQueue)
  = sortCardsForStudy (H := fixedHost) studyQueue.
Proof.
  refine (proj2 (sortCardsForStudy_sorted_input (H := fixedHost) studyQueue _)).
  unfold studyQueue. repeat constructor.
Defined.

Lemma getDueCards_sortCardsForStudy_witness :
  card_id <$> getDueCards (H := fixedHost) 1767225600000
                (sortCardsForStudy (H := fixedHost) studyQueue) = ["d"; "e"; "c"; "b"]
  /\ getDueCards (H := fixedHost) 1767225600000 (sortCardsForStudy (H := fixedHost) studyQueue)
     = sortCardsForStudy (H := fixedHost) (getDueCards (H := fixedHost) 1767225600000 studyQueue).
Proof.
  split; [vm_compute; reflexivity|].
  apply (getDueCards_sortCardsForStudy (H := fixedHost)).
  unfold studyQueue. repeat constructor.
Defined.

(** ** The review state machine, continued *)

(** Adding [+0] changes no number from [1.3] upwards. *)
Lemma add_zero_r (x : float) : (1.3 <=? x) = true -> x + 0 = x.
Proof.
  intros Hx. apply Prim2SF_inj. rewrite add_spec. rewrite leb_spec in Hx.
  replace (Prim2SF 0) with (S754_zero false) by (vm_compute; reflexivity).
  destruct (Prim2SF x) as [s|s| |s m e]; try reflexivity.
  destruct s; vm_compute in Hx; discriminate.
Qed.

Lemma one_ofNat : 1 = ofNat 1.
Proof. vm_compute. reflexivity. Qed.

Lemma zero_ofNat : 0 = ofNat 0.
Proof. vm_compute. reflexivity. Qed.

Section review_continued.
Context `{Host}.

(** X5. Grade 4 is the neutral grade of SM-2: it leaves an ease factor of
    at least [1.3] exactly as it was (the update adds [+0]), counts one
    more repetition and labels the card easy. *)
Theorem calculateNextReview_neutral_grade (card : Flashcard) :
  (1.3 <=? easeFactor card) = true ->
  is_Some (isoAfterDays (reschedule card 4).1) ->
  exists card',
    calculateNextReview card 4 = Returned card'
    /\ easeFactor card' = easeFactor card
    /\ repetitions card' = repetitions card + 1
    /\ difficulty card' = easy.
Proof.
  intros Hef Hdate.
  destruct (calculateNextReview_returns card 4 Hdate) as [card' Hc].
  exists card'. split; [exact Hc|]. split; [|split].
  - rewrite (calculateNextReview_easeFactor _ _ _ Hc). cbv zeta.
    replace (0.1 - (5 - 4) * (0.08 + (5 - 4) * 0.02)) with 0 by (vm_compute; reflexivity).
    rewrite (add_zero_r _ Hef).
    destruct (easeFactor card <? 1.3) eqn:Hlt; [|reflexivity].
    rewrite ltb_spec in Hlt. rewrite leb_spec in Hef.
    pose proof (SFleb_notNaN _ _ Hef) as [H1 H2].
    unfold SFltb in Hlt. unfold SFleb in Hef. rewrite (SFcompare_antisym (Prim2SF 1.3)) in Hlt.
    destruct (SFcompare (Prim2SF 1.3) (Prim2SF (easeFactor card))) as [[]|]; simpl in *;
      discriminate.
  - by destruct (calculateNextReview_success _ _ _ Hc eq_refl) as [-> _].
  - rewrite (calculateNextReview_difficulty _ _ _ Hc). reflexivity.
Qed.

Lemma reviewAll_successes (run : list float) (card card' : Flashcard) (r : nat) :
  repetitions card = ofNat r ->
  Forall (fun q => (q <? 3) = false) run ->
  (Z.of_nat (r + length run) < 2 ^ 53)%Z ->
  reviewAll card run = Returned card' ->
  repetitions card' = ofNat (r + length run).
Proof.
  revert card r. induction run as [|q run IH]; intros card r Hr Hrun Hb; simpl.
  - intros [= <-]. rewrite Hr. f_equal. lia.
  - apply Forall_cons in Hrun as [Hq Hrun].
    destruct (calculateNextReview card q) as [card1|e] eqn:Hc; [|discriminate]. simpl.
    intros Hrest.
    destruct (calculateNextReview_success _ _ _ Hc Hq) as [Hr1 _].
    rewrite Hr, one_ofNat, ofNat_add in Hr1 by (simpl in Hb; lia).
    rewrite (IH card1 (r + 1)%nat Hr1 Hrun ltac:(simpl in Hb; lia) Hrest).
    f_equal. simpl. lia.
Qed.

(** X6. The repetition count is the number of reviews passed in a row: a
    run of grades not below 3 adds its length to the count, and after a
    failed review (a grade below 3) the count is the length of the run
    that followed it. *)
Theorem reviewAll_repetitions (card card' : Flashcard) (r : nat) (earlier run : list float) :
  repetitions card = ofNat r ->
  Forall (fun q => (q <? 3) = false) run ->
  (Z.of_nat (r + length run) < 2 ^ 53)%Z ->
  reviewAll card (earlier ++ run) = Returned card' ->
  (earlier = [] -> repetitions card' = ofNat (r + length run))
  /\ (forall q, last earlier = Some q -> (q <? 3) = true ->
        repetitions card' = ofNat (length run)).
Proof.
  intros Hr Hrun Hb Hall. split.
  - intros ->. exact (reviewAll_successes run card card' r Hr Hrun Hb Hall).
  - intros q Hlast Hq.
    destruct earlier as [|q0 earlier _] using rev_ind; [discriminate|].
    rewrite last_snoc in Hlast. injection Hlast as ->.
    rewrite !reviewAll_app in Hall.
    destruct (reviewAll card earlier) as [c0|e] eqn:H0; [|discriminate]. simpl in Hall.
    destruct (calculateNextReview c0 q) as [c1|e] eqn:H1; [|discriminate]. simpl in Hall.
    destruct (calculateNextReview_failure _ _ _ H1 Hq) as [Hr1 _].
    rewrite zero_ofNat in Hr1.
    exact (reviewAll_successes run c1 card' 0 Hr1 Hrun ltac:(lia) Hall).
Qed.

End review_continued.

Lemma calculateNextReview_neutral_grade_witness :
  exists card',
    calculateNextReview (H := fixedHost) (mkCard "c1" medium 2.5 6 2 "2026-01-01") 4
    = Returned card'
    /\ easeFactor card' = 2.5.
Proof.
  destruct (calculateNextReview_neutral_grade (H := fixedHost)
              (mkCard "c1" medium 2.5 6 2 "2026-01-01")) as (card' & Hc & Hef & _).
  - reflexivity.
  - vm_compute. eauto.
  - exists card'. split; [exact Hc | exact Hef].
Defined.

Lemma reviewAll_repetitions_witness :
  exists card',
    reviewAll (H := fixedHost) (mkCard "c1" medium 2.5 6 2 "2026-01-01") ([5; 1] ++ [3; 4; 5])
    = Returned card'
    /\ repetitions card' = ofNat 3.
Proof.
  destruct (reviewAll (H := fixedHost) (mkCard "c1" medium 2.5 6 2 "2026-01-01")
              ([5; 1] ++ [3; 4; 5])) as [card'|e] eqn:Hc; [|vm_compute in Hc; discriminate].
  exists card'. split; [reflexivity|].
  refine (proj2 (reviewAll_repetitions (H := fixedHost)
                   (mkCard "c1" medium 2.5 6 2 "2026-01-01") card' 2 [5; 1] [3; 4; 5]
                   _ _ _ Hc) 1 _ _).
  - vm_compute. reflexivity.
  - repeat constructor.
  - vm_compute. reflexivity.
  - reflexivity.
  - reflexivity.
Defined.

(** ** The statistics of a session *)

(** A finite number other than zero divided by itself is [1]. *)
Lemma div_self (x : float) (s : bool) (m : positive) (e : Z) :
  Prim2SF x = S754_finite s m e -> x / x = 1.
Proof.
  intros Hx. apply Prim2SF_inj. rewrite div_spec, Hx.
  unfold SF64div, SFdiv, SFdiv_core_binary. cbn [Zdigits2].
  replace (Z.pos (digits2_pos m) + e - (Z.pos (digits2_pos m) + e))%Z with 0%Z by lia.
  replace (e - e)%Z with 0%Z by lia.
  change (Z.min (fexp prec emax 0) 0) with (-53)%Z.
  change (0 - -53)%Z with 53%Z. cbv iota.
  rewrite Z.shiftl_mul_pow2 by lia.
  destruct (Z.div_eucl (Z.pos m * 2 ^ 53) (Z.pos m)) as [q r] eqn:Hd.
  assert (Hq : q = (2 ^ 53)%Z).
  { change q with (fst (q, r)). rewrite <- Hd. change (fst (Z.div_eucl ?a ?b)) with (a / b)%Z.
    rewrite Z.mul_comm. apply Z.div_mul. lia. }
  assert (Hr : r = 0%Z).
  { change r with (snd (q, r)). rewrite <- Hd. change (snd (Z.div_eucl ?a ?b)) with (a mod b)%Z.
    rewrite Z.mul_comm. apply Z.mod_mul. lia. }
  subst q r.
  assert (Hl : new_location (Z.pos m) 0 = loc_Exact).
  { unfold new_location, new_location_even, new_location_odd.
    destruct (Z.even (Z.pos m)); reflexivity. }
  rewrite Hl. destruct s; vm_compute; reflexivity.
Qed.

Lemma ofNat_finite (n : nat) :
  (0 < n)%nat -> (Z.of_nat n < 2 ^ 53)%Z ->
  exists m e, Prim2SF (ofNat n) = S754_finite false m e.
Proof.
  intros H0 Hn. destruct (Prim2SF_ofNat n Hn) as [-> _].
  destruct (Z.of_nat n) as [|p|p] eqn:Hz; [lia| |lia].
  destruct (binary_normalize_integer p Hn) as (m & e & -> & _). eauto.
Qed.

Lemma elem_of_rev {A} (x : A) (l : list A) : x ∈ rev l <-> x ∈ l.
Proof. rewrite !list_elem_of_In. symmetry. apply in_rev. Qed.

(** [3 <= q] and [q < 3] exclude each other. *)
Lemma passed_not_failed (q : float) : (3 <=? q) = true -> (q <? 3) = false.
Proof.
  rewrite leb_spec, ltb_spec. unfold SFleb, SFltb.
  rewrite (SFcompare_antisym (Prim2SF 3)).
  destruct (SFcompare (Prim2SF 3) (Prim2SF q)) as [[]|]; simpl; congruence.
Qed.

(** The streak loop counts the passed results at the front of the
    reversed list. *)
Lemma streakFrom_run (l : list ReviewResult) (k : nat) :
  (Z.of_nat (k + length l) < 2 ^ 53)%Z ->
  exists run rest,
    l = run ++ rest
    /\ Forall (fun r => (3 <=? quality r) = true) run
    /\ match head rest with
       | Some r => (3 <=? quality r) = false
       | None => True
       end
    /\ streakFrom l (ofNat k) = ofNat (k + length run).
Proof.
  revert k. induction l as [|r l IH]; intros k Hk; simpl.
  - exists [], []. repeat split; [constructor|]. f_equal. simpl. lia.
  - destruct (3 <=? quality r) eqn:Hr.
    + rewrite one_ofNat, ofNat_add by (simpl in Hk; lia).
      destruct (IH (k + 1)%nat ltac:(simpl in Hk; lia)) as (run & rest & -> & Hrun & Hrest & Hs).
      exists (r :: run), rest. repeat split; [by constructor | done |].
      rewrite Hs. f_equal. simpl. lia.
    + exists [], (r :: l). repeat split; [constructor | done |]. f_equal. simpl. lia.
Qed.

(** X7. The counts of a session add up: every result is counted as correct
    (grade at least 3) or as incorrect (any other grade, [NaN]
    included), and the streak is the number of correct results at the
    end of the session, after the last incorrect one. *)
Theorem getStudyStatistics_counts (session : StudySession) :
  (Z.of_nat (length (results session)) < 2 ^ 53)%Z ->
  let stats := getStudyStatistics session in
  let passed := List.filter (fun r => 3 <=? quality r) (results session) in
  correctCount stats = ofNat (length passed)
  /\ incorrectCount stats = ofNat (length (results session) - length passed)
  /\ correctCount stats + incorrectCount stats = totalReviews stats
  /\ exists earlier run,
       results session = earlier ++ run
       /\ Forall (fun r => (3 <=? quality r) = true) run
       /\ match last earlier with
          | Some r => (3 <=? quality r) = false
          | None => True
          end
       /\ streakCount stats = ofNat (length run)
       /\ (length run <= length passed)%nat.
Proof.
  intros Hn stats passed.
  assert (Hp : (length passed <= length (results session))%nat) by apply List.filter_length_le.
  assert (Hstreak : exists earlier run,
             results session = earlier ++ run
             /\ Forall (fun r => (3 <=? quality r) = true) run
             /\ match last earlier with
                | Some r => (3 <=? quality r) = false
                | None => True
                end
             /\ streakFrom (rev (results session)) 0 = ofNat (length run)
             /\ (length run <= length passed)%nat).
  { destruct (streakFrom_run (rev (results session)) 0) as (run & rest & Hl & Hrun & Hrest & Hs).
    { rewrite length_rev. simpl. lia. }
    exists (rev rest), (rev run).
    assert (Hres : results session = rev rest ++ rev run).
    { rewrite <- rev_app_distr, <- Hl. symmetry. apply rev_involutive. }
    split; [exact Hres|]. split; [|split; [|split]].
    - apply Forall_forall. intros r Hr. rewrite Forall_forall in Hrun. apply Hrun.
      apply elem_of_rev. exact Hr.
    - destruct rest as [|r rest]; [exact I|]. simpl. rewrite last_snoc. exact Hrest.
    - rewrite zero_ofNat, Hs, length_rev. reflexivity.
    - unfold passed. rewrite Hres, List.filter_app, length_app.
      assert (Hall : List.filter (fun r => 3 <=? quality r) (rev run) = rev run).
      { apply forallb_filter_id. apply forallb_forall. intros r Hr.
        rewrite Forall_forall in Hrun. apply Hrun. apply elem_of_rev.
        by apply list_elem_of_In. }
      rewrite Hall. lia. }
  unfold stats, getStudyStatistics. fold passed.
  destruct (results session) as [|r0 rs] eqn:Hrs.
  - cbn [length Nat.eqb correctCount incorrectCount totalReviews streakCount].
    split; [reflexivity|]. split; [reflexivity|]. split; [vm_compute; reflexivity|].
    exact Hstreak.
  - cbn [length Nat.eqb correctCount incorrectCount totalReviews streakCount].
    rewrite <- Hrs in *. 
    assert (Hsub : ofNat (length (results session)) - ofNat (length passed)
                   = ofNat (length (results session) - length passed))
      by (apply ofNat_sub; [exact Hp | exact Hn]).
    replace (S (length rs)) with (length (results session)) by (rewrite Hrs; reflexivity).
    split; [reflexivity|]. split; [exact Hsub|]. split; [|exact Hstreak].
    rewrite Hsub, ofNat_add; [f_equal; lia|].
    replace (length passed + (length (results session) - length passed))%nat
      with (length (results session)) by lia.
    exact Hn.
Qed.

Lemma uniq_acc (l seen : list string) :
  NoDup seen ->
  NoDup (foldl (fun seen x => if bool_decide (x ∈ seen) then seen else seen ++ [x]) seen l)
  /\ forall x, x ∈ foldl (fun seen x => if bool_decide (x ∈ seen) then seen else seen ++ [x]) seen l
               <-> x ∈ seen \/ x ∈ l.
Proof.
  revert seen. induction l as [|y l IH]; intros seen Hnd; simpl.
  - split; [exact Hnd|]. intros x. rewrite elem_of_nil. tauto.
  - case_bool_decide as Hy.
    + destruct (IH seen Hnd) as [H1 H2]. split; [exact H1|].
      intros x. rewrite H2, elem_of_cons. split; [tauto|].
      intros [?|[->|?]]; tauto.
    + assert (Hnd' : NoDup (seen ++ [y])).
      { apply NoDup_app. split; [exact Hnd|]. split; [|apply NoDup_singleton].
        intros x Hx Hxy. apply list_elem_of_singleton in Hxy as ->. contradiction. }
      destruct (IH (seen ++ [y]) Hnd') as [H1 H2]. split; [exact H1|].
      intros x. rewrite H2, elem_of_app, list_elem_of_singleton, elem_of_cons. tauto.
Qed.

(** X8. The hard cards of a session are the cards that received a grade
    below 3, each listed once; a result whose grade is not a number is
    counted as incorrect and yet adds no hard card. *)
Theorem getStudyStatistics_hardCards (session : StudySession) :
  let stats := getStudyStatistics session in
  NoDup (hardCards stats)
  /\ (forall i, i ∈ hardCards stats <->
        exists r, r ∈ results session /\ cardId r = i /\ (quality r <? 3) = true)
  /\ (forall r, r ∈ results session -> isNaN (quality r) = true ->
        (3 <=? quality r) = false /\ (quality r <? 3) = false).
Proof.
  intros stats. unfold stats, getStudyStatistics.
  destruct (results session) as [|r0 rs] eqn:Hrs.
  - simpl. split; [constructor|]. split.
    + intros i. rewrite elem_of_nil. split; [done|]. intros (r & Hr & _).
      by apply elem_of_nil in Hr.
    + intros r Hr. by apply elem_of_nil in Hr.
  - cbn [length Nat.eqb hardCards]. rewrite <- Hrs. clear Hrs r0 rs.
    unfold uniq.
    destruct (uniq_acc (cardId <$> List.filter (fun r => quality r <? 3) (results session)) []
                NoDup_nil_2) as [H1 H2].
    split; [exact H1|]. split.
    + intros i. rewrite H2, elem_of_nil, list_elem_of_fmap. split.
      * intros [[]|(r & -> & Hr)]. apply list_elem_of_In, filter_In in Hr as [Hr Hq].
        exists r. by rewrite list_elem_of_In.
      * intros (r & Hr & <- & Hq). right. exists r. split; [done|].
        apply list_elem_of_In, filter_In. by rewrite <- list_elem_of_In.
    + intros r _ Hnan. unfold isNaN in Hnan. apply negb_true_iff in Hnan.
      rewrite FloatAxioms.eqb_spec in Hnan. rewrite leb_spec, ltb_spec.
      destruct (Prim2SF (quality r)) as [s|s| |s m e]; [| |split; reflexivity|].
      * destruct s; discriminate.
      * destruct s; discriminate.
      * exfalso. unfold SFeqb in Hnan. rewrite SFcompare_refl in Hnan by discriminate.
        discriminate.
Qed.

(** X9. A session in which every grade is at least 3 has a completion rate
    of 100, no incorrect result, no hard card, and a streak as long as
    the session. *)
Theorem getStudyStatistics_all_correct (session : StudySession) :
  (0 < length (results session))%nat ->
  (Z.of_nat (length (results session)) < 2 ^ 53)%Z ->
  Forall (fun r => (3 <=? quality r) = true) (results session) ->
  let stats := getStudyStatistics session in
  completionRate stats = 100
  /\ correctCount stats = totalReviews stats
  /\ incorrectCount stats = 0
  /\ streakCount stats = totalReviews stats
  /\ hardCards stats = [].
Proof.
  intros H0 Hn Hall stats.
  assert (Hpass : List.filter (fun r => 3 <=? quality r) (results session) = results session).
  { apply forallb_filter_id. apply forallb_forall. intros r Hr.
    rewrite Forall_forall in Hall. apply Hall. by apply list_elem_of_In. }
  assert (Hfail : List.filter (fun r => quality r <? 3) (results session) = []).
  { clear -Hall. induction Hall as [|r l Hr _ IH]; simpl; [reflexivity|].
    by rewrite (passed_not_failed _ Hr). }
  destruct (ofNat_finite _ H0 Hn) as (m & e & Hfin).
  unfold stats, getStudyStatistics.
  destruct (results session) as [|r0 rs] eqn:Hrs; [simpl in H0; lia|].
  cbn [length Nat.eqb completionRate correctCount totalReviews incorrectCount streakCount hardCards].
  rewrite <- Hrs in *. rewrite Hpass, Hfail.
  replace (S (length rs)) with (length (results session)) by (rewrite Hrs; reflexivity).
  rewrite (div_self _ _ _ _ Hfin).
  split; [vm_compute; reflexivity|]. split; [reflexivity|]. split; [|split; [|reflexivity]].
  - rewrite ofNat_sub by (lia || exact Hn). rewrite Nat.sub_diag. vm_compute. reflexivity.
  - destruct (streakFrom_run (rev (results session)) 0) as (run & rest & Hl & Hrun & Hrest & Hs).
    { rewrite length_rev. simpl. lia. }
    rewrite zero_ofNat, Hs. f_equal. simpl.
    destruct rest as [|r rest].
    + rewrite app_nil_r in Hl. by rewrite <- Hl, length_rev.
    + simpl in Hrest. rewrite Forall_forall in Hall.
      rewrite Hall in Hrest; [discriminate|].
      apply elem_of_rev. rewrite Hl. apply elem_of_app. right. left.
Qed.

Lemma getStudyStatistics_counts_witness :
  incorrectCount (getStudyStatistics sampleSession) = 2
  /\ streakCount (getStudyStatistics sampleSession) = 1.
Proof.
  destruct (getStudyStatistics_counts sampleSession) as (_ & Hi & _ & Hs).
  - vm_compute. reflexivity.
  - split; [exact Hi|]. vm_compute. reflexivity.
Defined.

Lemma getStudyStatistics_all_correct_witness :
  completionRate (getStudyStatistics perfectSession) = 100.
Proof.
  refine (proj1 (getStudyStatistics_all_correct perfectSession _ _ _)).
  - simpl. lia.
  - vm_compute. reflexivity.
  - repeat constructor.
Defined.

(** ** Grade points *)

Lemma leb_trans (x y z : float) :
  (x <=? y) = true -> (y <=? z) = true -> (x <=? z) = true.
Proof.
  intros Hxy Hyz.
  pose proof Hxy as Hxy'. pose proof Hyz as Hyz'. rewrite leb_spec in Hxy', Hyz'.
  apply SFleb_notNaN in Hxy' as [Hx Hy]. apply SFleb_notNaN in Hyz' as [_ Hz].
  apply isNaN_spec in Hx, Hy, Hz.
  rewrite leb_rank in Hxy, Hyz |- * by assumption.
  apply Z.leb_le in Hxy, Hyz. apply Z.leb_le. lia.
Qed.

Ltac grade_of x :=
  repeat match goal with
         | |- context [if ?t <=? x then _ else _] => destruct (t <=? x) eqn:?
         end.

(** X10. On the default scale a higher score never earns a lower grade
    point, and every grade point lies between [0] and [4.5]; a score
    that is not a number earns [0]. *)
Theorem scoreTtoGPA_monotone (a b : float) :
  ((a <=? b) = true -> (scoreTtoGPA a None <=? scoreTtoGPA b None) = true)
  /\ (0 <=? scoreTtoGPA a None) = true
  /\ (scoreTtoGPA a None <=? 4.5) = true
  /\ (isNaN a = true -> scoreTtoGPA a None = 0).
Proof.
  unfold scoreTtoGPA, nullish. split; [|split; [|split]].
  - intros Hab. grade_of a; grade_of b;
      try (vm_compute; reflexivity);
      match goal with
      | Ha : (?t <=? a) = true, Hb : (?t <=? b) = false |- _ =>
          rewrite (leb_trans t a b Ha Hab) in Hb; discriminate Hb
      end.
  - grade_of a; vm_compute; reflexivity.
  - grade_of a; vm_compute; reflexivity.
  - intros Hn.
    assert (Hf : forall t, (t <=? a) = false).
    { intros t. destruct (t <=? a) eqn:Ht; [|reflexivity].
      rewrite leb_spec in Ht. apply SFleb_notNaN in Ht as [_ Ht].
      apply isNaN_spec in Ht. congruence. }
    by rewrite !Hf.
Qed.

Lemma scoreTtoGPA_monotone_witness :
  (scoreTtoGPA 72 None <=? scoreTtoGPA 91 None) = true.
Proof.
  apply (proj1 (scoreTtoGPA_monotone 72 91)). reflexivity.
Defined.

(** X11. The grade point of a subject is the grade set by hand, or nothing
    (no grades, or a total weight of zero), or one of the eleven grade
    points of the scale, which rounding to two decimals leaves as they
    are. *)
Theorem calculateSubjectGPA_values (subject : Subject) :
  match currentGrade subject with
  | Some grade => calculateSubjectGPA subject = Some grade
  | None =>
      calculateSubjectGPA subject = None
      \/ exists g, calculateSubjectGPA subject = Some g
                   /\ g ∈ [4.5; 4.3; 4; 3.5; 3.2; 3; 2.5; 2.2; 2; 1.5; 0]
  end
  /\ (currentGrade subject = None -> allGrades subject = [] ->
      calculateSubjectGPA subject = None)
  /\ (currentGrade subject = None -> (foldl addGrade (0, 0) (allGrades subject)).2 = 0 ->
      calculateSubjectGPA subject = None).
Proof.
  unfold calculateSubjectGPA. destruct (currentGrade subject) as [grade|].
  - split; [reflexivity|]. split; discriminate.
  - split; [|split].
    + destruct (length (allGrades subject) =? 0)%nat; [by left|].
      destruct (foldl addGrade (0, 0) (allGrades subject)) as [tws tw].
      destruct (tw =? 0); [by left|]. right.
      eexists. split; [reflexivity|].
      unfold scoreTtoGPA, nullish. grade_of (tws / tw).
      all: match goal with
           | |- ?x ∈ _ => let v := eval vm_compute in x in change x with v
           end.
      all: repeat first [apply list_elem_of_here | apply list_elem_of_further].
    + intros _ ->. reflexivity.
    + intros _ Hw. destruct (length (allGrades subject) =? 0)%nat; [reflexivity|].
      destruct (foldl addGrade (0, 0) (allGrades subject)) as [tws tw]. simpl in Hw.
      subst tw. reflexivity.
Qed.

Lemma foldl_filter {A B} (f : B -> A -> B) (p : A -> bool) (l : list A) (acc : B) :
  (forall acc x, p x = false -> f acc x = acc) ->
  foldl f acc (List.filter p l) = foldl f acc l.
Proof.
  intros Hf. revert acc. induction l as [|x l IH]; intros acc; simpl; [reflexivity|].
  destruct (p x) eqn:Hp; simpl; [apply IH|]. by rewrite (Hf acc x Hp).
Qed.

Lemma foldl_id {A B} (f : B -> A -> B) (l : list A) (acc : B) :
  (forall acc x, x ∈ l -> f acc x = acc) -> foldl f acc l = acc.
Proof.
  revert acc. induction l as [|x l IH]; intros acc Hf; simpl; [reflexivity|].
  rewrite (Hf acc x) by left. apply IH. intros acc' y Hy. apply Hf. by right.
Qed.

(** X12. A subject without a grade point takes no part in the overall
    average: leaving such subjects out changes nothing, and when no
    subject has a grade point the average is [0]. *)
Theorem calculateOverallGPA_ungraded (subjects : list Subject) :
  calculateOverallGPA subjects
  = calculateOverallGPA
      (List.filter (fun s => bool_decide (is_Some (calculateSubjectGPA s))) subjects)
  /\ (Forall (fun s => calculateSubjectGPA s = None) subjects ->
      calculateOverallGPA subjects = 0).
Proof.
  assert (Hskip : forall acc s,
             bool_decide (is_Some (calculateSubjectGPA s)) = false -> addSubject acc s = acc).
  { intros acc s Hs. apply bool_decide_eq_false in Hs. unfold addSubject.
    destruct (calculateSubjectGPA s); [|reflexivity]. destruct Hs. eauto. }
  assert (Hnone : Forall (fun s => calculateSubjectGPA s = None) subjects ->
                  calculateOverallGPA subjects = 0).
  { intros Hall. unfold calculateOverallGPA.
    destruct (length subjects =? 0)%nat; [reflexivity|].
    rewrite foldl_id; [reflexivity|].
    intros acc s Hs. rewrite Forall_forall in Hall. unfold addSubject.
    by rewrite (Hall s Hs). }
  split; [|exact Hnone].
  unfold calculateOverallGPA at 2.
  rewrite (foldl_filter addSubject _ subjects (0, 0) Hskip).
  destruct (List.filter _ subjects) as [|s l] eqn:Hfl.
  - simpl. apply Hnone. apply Forall_forall. intros s Hs.
    destruct (calculateSubjectGPA s) as [g|] eqn:Hg; [|reflexivity].
    assert (Hin : In s (List.filter (fun s => bool_decide (is_Some (calculateSubjectGPA s))) subjects)).
    { apply filter_In. split; [by apply list_elem_of_In|].
      apply bool_decide_eq_true. rewrite Hg. eauto. }
    rewrite Hfl in Hin. destruct Hin.
  - unfold calculateOverallGPA.
    destruct subjects as [|s0 subjects']; [discriminate|]. reflexivity.
Qed.

(** X13. Goal progress at the edges: a subject without a grade point has
    progress [0]; with a target of [0] the progress of a positive grade
    point is [Infinity], and that of a grade point [0] is [NaN]. *)
Theorem calculateGoalProgress_edges (subject : Subject) :
  (calculateSubjectGPA subject = None -> calculateGoalProgress subject = 0)
  /\ (forall g, calculateSubjectGPA subject = Some g -> targetGPA subject = 0 ->
        ((0 <? g) = true -> calculateGoalProgress subject = infinity)
        /\ ((g =? 0) = true -> isNaN (calculateGoalProgress subject) = true)).
Proof.
  unfold calculateGoalProgress. split; [by intros ->|].
  intros g -> ->. split.
  - intros Hg. apply Prim2SF_inj. unfold parseFloat_toFixed.
    assert (Hd : Prim2SF (g / 0 * 100) = S754_infinity false).
    { rewrite mul_spec, div_spec. rewrite ltb_spec in Hg.
      replace (Prim2SF 0) with (S754_zero false) in * by (vm_compute; reflexivity).
      replace (Prim2SF 100) with (S754_finite false 7036874417766400 (-46))
        by (vm_compute; reflexivity).
      destruct (Prim2SF g) as [s|s| |s m e]; try discriminate;
        destruct s; try discriminate; reflexivity. }
    rewrite Hd. cbv iota. rewrite Hd. reflexivity.
  - intros Hg. unfold isNaN. apply negb_true_iff.
    rewrite FloatAxioms.eqb_spec. unfold parseFloat_toFixed.
    assert (Hd : Prim2SF (g / 0 * 100) = S754_nan).
    { rewrite mul_spec, div_spec. rewrite FloatAxioms.eqb_spec in Hg.
      replace (Prim2SF 0) with (S754_zero false) in * by (vm_compute; reflexivity).
      destruct (Prim2SF g) as [s|s| |s m e]; try discriminate; try reflexivity.
      all: destruct s; discriminate. }
    rewrite Hd. cbv iota. rewrite Hd. reflexivity.
Qed.

(** X14. A record without a positive duration or without a positive number
    of cards takes no part in the efficiency: leaving such records out
    changes nothing, and with no record left the efficiency is [0]. *)
Theorem calculateStudyEfficiency_counted (studyRecords : list StudyRecord) :
  calculateStudyEfficiency studyRecords
  = calculateStudyEfficiency (List.filter countedRecord studyRecords)
  /\ (Forall (fun r => countedRecord r = false) studyRecords ->
      calculateStudyEfficiency studyRecords = 0).
Proof.
  assert (Hskip : forall acc r, countedRecord r = false -> addRecord acc r = acc).
  { intros acc r Hr. unfold addRecord. by rewrite Hr. }
  assert (Hnone : Forall (fun r => countedRecord r = false) studyRecords ->
                  calculateStudyEfficiency studyRecords = 0).
  { intros Hall. unfold calculateStudyEfficiency.
    destruct (length studyRecords =? 0)%nat; [reflexivity|].
    rewrite foldl_id; [reflexivity|].
    intros acc r Hr. rewrite Forall_forall in Hall. by apply Hskip, Hall. }
  split; [|exact Hnone].
  unfold calculateStudyEfficiency at 2.
  rewrite (foldl_filter addRecord _ studyRecords (0, 0) Hskip).
  destruct (List.filter countedRecord studyRecords) as [|r l] eqn:Hfl.
  - simpl. apply Hnone. apply Forall_forall. intros r Hr.
    destruct (countedRecord r) eqn:Hc; [|reflexivity].
    assert (Hin : In r (List.filter countedRecord studyRecords)).
    { apply filter_In. split; [by apply list_elem_of_In | done]. }
    rewrite Hfl in Hin. destruct Hin.
  - unfold calculateStudyEfficiency.
    destruct studyRecords as [|r0 rs]; [discriminate|]. reflexivity.
Qed.

(** ** Study time against grades *)

Lemma sum_zero {A} (f : A -> float) (l : list A) :
  Forall (fun x => f x = 0) l -> foldl (fun sum x => sum + f x) 0 l = 0.
Proof.
  induction 1 as [|x l Hx _ IH]; simpl; [reflexivity|].
  rewrite Hx. replace (0 + 0) with 0 by (vm_compute; reflexivity). exact IH.
Qed.

Lemma zero_div_ofNat (n : nat) :
  (0 < n)%nat -> (Z.of_nat n < 2 ^ 53)%Z -> 0 / ofNat n = 0.
Proof.
  intros H0 Hn. destruct (ofNat_finite n H0 Hn) as (m & e & Hfin).
  apply Prim2SF_inj. rewrite div_spec, Hfin. reflexivity.
Qed.

(** X15. [analyzeCorrelation] reports one entry per subject, in the order of
    the subjects and under their names; a subject that no study record
    names (by name or by id) has correlation [0] and no study hours;
    and where no subject has a record, in particular without any
    subject or any record, the overall correlation is [0] and the trend
    is negative, whatever the grades are. *)
Theorem analyzeCorrelation_unstudied (studyRecords : list StudyRecord)
    (subjects : list Subject) :
  (Z.of_nat (length subjects) < 2 ^ 53)%Z ->
  let result := analyzeCorrelation studyRecords subjects in
  subjectName <$> subjectCorrelations result = subject_name <$> subjects
  /\ (forall i s, subjects !! i = Some s -> recordsOf studyRecords s = [] ->
        exists sc, subjectCorrelations result !! i = Some sc
                   /\ correlation sc = 0 /\ studyHours sc = 0)
  /\ (Forall (fun s => recordsOf studyRecords s = []) subjects ->
      overallCorrelation result = 0 /\ trend result = Correlation.negative).
Proof.
  intros Hn result.
  assert (Hnone : forall s, recordsOf studyRecords s = [] ->
                    correlation (correlate studyRecords s) = 0
                    /\ studyHours (correlate studyRecords s) = 0).
  { intros s Hs. unfold correlate. rewrite Hs. cbn [foldl correlation studyHours].
    replace (0 / 60) with 0 by (vm_compute; reflexivity).
    replace (0 <? 0) with false by (vm_compute; reflexivity).
    split; [reflexivity | vm_compute; reflexivity]. }
  unfold result, analyzeCorrelation. cbn [subjectCorrelations overallCorrelation trend].
  split; [|split].
  - rewrite <- list_fmap_compose. reflexivity.
  - intros i s Hi Hs. exists (correlate studyRecords s).
    rewrite list_lookup_fmap, Hi. split; [reflexivity|]. by apply Hnone.
  - intros Hall.
    assert (Hsum : foldl (fun sum sc => sum + correlation sc) 0 (correlate studyRecords <$> subjects)
                   = 0).
    { apply sum_zero. apply Forall_fmap. eapply Forall_impl; [exact Hall|].
      intros s Hs. by apply Hnone. }
    rewrite Hsum, length_fmap.
    destruct (Nat.ltb_spec 0 (length subjects)) as [Hpos|Hzero].
    + rewrite (zero_div_ofNat _ Hpos Hn). split; vm_compute; reflexivity.
    + split; vm_compute; reflexivity.
Qed.

Lemma analyzeCorrelation_unstudied_witness :
  trend (analyzeCorrelation [] [gradedSubject]) = Correlation.negative.
Proof.
  refine (proj2 (proj2 (proj2 (analyzeCorrelation_unstudied [] [gradedSubject] _)) _)).
  - vm_compute. reflexivity.
  - repeat constructor.
Defined.

(** ** Composing decks, continued *)

Lemma filter_sublist {A} (p : A -> bool) (l : list A) : sublist (List.filter p l) l.
Proof.
  induction l as [|x l IH]; simpl; [constructor|].
  destruct (p x); [by apply sublist_skip | by apply sublist_cons].
Qed.

Lemma slice0_sublist {A} (l : list A) (stop : extint) : sublist (slice0 l stop) l.
Proof.
  destruct stop as [n| |]; simpl.
  - destruct (n <? 0)%Z; apply sublist_take.
  - reflexivity.
  - apply sublist_nil_l.
Qed.

Lemma ofNat_ltb (a b : nat) :
  (Z.of_nat a < 2 ^ 53)%Z -> (Z.of_nat b < 2 ^ 53)%Z ->
  (ofNat a <? ofNat b) = (a <? b)%nat.
Proof.
  intros Ha Hb.
  assert (Hna : isNaN (ofNat a) = false).
  { apply isNaN_spec. destruct (Prim2SF_ofNat a Ha) as [-> _]. apply binary_normalize_not_nan. }
  assert (Hnb : isNaN (ofNat b) = false).
  { apply isNaN_spec. destruct (Prim2SF_ofNat b Hb) as [-> _]. apply binary_normalize_not_nan. }
  rewrite (ltb_rank _ _ Hna Hnb).
  destruct (Nat.ltb_spec a b) as [Hlt|Hge].
  - apply Z.ltb_lt. rewrite <- Z.ltb_lt, <- (sub_positive _ _ Hnb Hna).
    rewrite ofNat_sub by (lia || exact Hb). apply ofNat_positive; lia.
  - apply Z.ltb_ge. destruct (decide (a = b)) as [->|Hne]; [lia|].
    apply Z.lt_le_incl. rewrite <- Z.ltb_lt, <- (sub_positive _ _ Hna Hnb).
    rewrite ofNat_sub by (lia || exact Ha). apply ofNat_positive; lia.
Qed.

Lemma isNaN_true (x : float) : isNaN x = true -> Prim2SF x = S754_nan.
Proof.
  unfold isNaN. rewrite negb_true_iff, FloatAxioms.eqb_spec. intros Hn.
  destruct (Prim2SF x) as [s|s| |s m e] eqn:Hx; [| |reflexivity|].
  - destruct s; discriminate.
  - destruct s; discriminate.
  - unfold SFeqb in Hn. rewrite SFcompare_refl in Hn by discriminate. discriminate.
Qed.

Section decks_continued.
Context `{Host}.

(** X16. [createDeliberatePracticeDeck] selects: the cards of the new deck
    are cards of the pool, in the order of the pool (decks in order,
    and the cards of a deck in order), whatever the configuration. *)
Theorem createDeliberatePracticeDeck_selects
    (allDecks : list FlashcardDeck) (config : DeliberatePracticeConfig) :
  exists deck,
    createDeliberatePracticeDeck allDecks config = Returned deck
    /\ sublist (cards deck) (flat_map cards allDecks)
    /\ (length (cards deck) <= length (flat_map cards allDecks))%nat
    /\ category deck = Some "deliberate-practice".
Proof.
  eexists. split; [reflexivity|]. cbn [cards category].
  assert (Hsub : sublist (slice0 (matchingCards allDecks config)
                            (toIntegerOrInfinity (orElse (maxCards config) 20)))
                         (flat_map cards allDecks)).
  { etrans; [apply slice0_sublist|].
    assert (Hc : sublist (collectCards allDecks (focusAreas config)) (flat_map cards allDecks)).
    { unfold collectCards. induction allDecks as [|d ds IH]; simpl; [constructor|].
      apply sublist_app; [apply filter_sublist | exact IH]. }
    unfold matchingCards. destruct (difficultyLevel config); [|exact Hc].
    etrans; [apply filter_sublist | exact Hc]. }
  split; [exact Hsub|]. split; [by apply sublist_length | reflexivity].
Qed.

(** X17. The difficulty filter sorts a card into a band by its ease factor
    (below 2: hard; below 2.5: medium; otherwise, also when the ease
    factor is not a number: easy). Without a threshold, or with
    threshold [0], a card passes exactly when its band is the requested
    level; with a threshold of [2] or more every card passes. *)
Theorem withinDifficulty_bands (lvl : Difficulty) (card : Flashcard) :
  let band := if easeFactor card <? 2 then hard
              else if easeFactor card <? 2.5 then medium else easy in
  withinDifficulty lvl None card = bool_decide (lvl = band)
  /\ withinDifficulty lvl (Some 0) card = bool_decide (lvl = band)
  /\ (forall t, (2 <=? t) = true -> withinDifficulty lvl (Some t) card = true)
  /\ (isNaN (easeFactor card) = true -> band = easy).
Proof.
  intros band. unfold band, withinDifficulty, nullish. split; [|split; [|split]].
  - destruct (easeFactor card <? 2), (easeFactor card <? 2.5), lvl; vm_compute; reflexivity.
  - destruct (easeFactor card <? 2), (easeFactor card <? 2.5), lvl; vm_compute; reflexivity.
  - intros t Ht.
    destruct (easeFactor card <? 2), (easeFactor card <? 2.5), lvl;
      (apply (leb_trans _ 2 t); [vm_compute; reflexivity | exact Ht]).
  - intros Hn.
    assert (Hf : forall t, (easeFactor card <? t) = false).
    { intros t. by rewrite ltb_spec, (isNaN_true _ Hn). }
    by rewrite !Hf.
Qed.

(** X18. Deck ids that match no deck are passed over in silence: when
    [deckIds] is not empty and names no deck of the pool, the new deck
    has no card, in every shuffle mode. *)
Theorem createInterleavedDeck_unknown_ids
    (allDecks : list FlashcardDeck) (config : InterleavedConfig) (ids : list string) :
  deckIds config = Some ids ->
  ids <> [] ->
  (forall d, d ∈ allDecks -> deck_id d ∉ ids) ->
  exists deck,
    createInterleavedDeck allDecks config = Returned deck /\ cards deck = [].
Proof.
  intros Hids Hne Hno.
  assert (Ht : targetDecks allDecks config = []).
  { unfold targetDecks. rewrite Hids.
    destruct ids as [|i ids]; [done|]. cbn [length Nat.ltb Nat.leb].
    clear Hids Hne. induction allDecks as [|d ds IH]; [reflexivity|]. simpl.
    rewrite bool_decide_eq_false_2 by (apply Hno; left).
    apply IH. intros d' Hd'. apply Hno. by right. }
  eexists. split; [reflexivity|]. cbn [cards].
  unfold cardGroups. rewrite Ht. by case_bool_decide.
Qed.

(** X19. The cap [cardsPerDeck]: a positive count [n] limits every selected
    deck to its first [n] cards, so that the new deck has at most [n]
    cards per selected deck; a cap of [0] (or [NaN]) is no cap at all:
    every card of the selected decks is taken. *)
Theorem createInterleavedDeck_cap
    (allDecks : list FlashcardDeck) (config : InterleavedConfig) :
  exists deck,
    createInterleavedDeck allDecks config = Returned deck
    /\ (forall n : nat,
          (0 < n)%nat -> (Z.of_nat n < 2 ^ 53)%Z -> cardsPerDeck config = Some (ofNat n) ->
          cardGroups allDecks config = (fun d => take n (cards d)) <$> targetDecks allDecks config
          /\ (length (cards deck) <= n * length (targetDecks allDecks config))%nat)
    /\ (forall x, cardsPerDeck config = Some x -> truthy x = false ->
          cardGroups allDecks config = cards <$> targetDecks allDecks config
          /\ length (cards deck) = length (flat_map cards (targetDecks allDecks config))).
Proof.
  eexists. split; [reflexivity|]. cbn [cards].
  assert (Hlen : length (if bool_decide (shuffleMode config = "round-robin")
                         then roundRobin (cardGroups allDecks config)
                         else fisherYates random (concat (cardGroups allDecks config)))
                 = length (concat (cardGroups allDecks config))).
  { case_bool_decide; [by rewrite roundRobin_perm | by rewrite fisherYates_perm]. }
  rewrite Hlen. split.
  - intros n Hpos Hn Hcap.
    assert (Hg : cardGroups allDecks config
                 = (fun d => take n (cards d)) <$> targetDecks allDecks config).
    { unfold cardGroups, cardGroup. rewrite Hcap.
      rewrite (positive_truthy _ (ofNat_positive n Hpos Hn)).
      rewrite (toIntegerOrInfinity_ofNat n Hn).
      apply map_ext. intros d. apply slice0_nat. }
    split; [exact Hg|]. rewrite Hg. clear Hg.
    induction (targetDecks allDecks config) as [|d ds IH]; [simpl; lia|].
    rewrite fmap_cons. cbn [concat length]. rewrite length_app, length_take. lia.
  - intros x Hcap Hx.
    assert (Hg : cardGroups allDecks config = cards <$> targetDecks allDecks config).
    { unfold cardGroups, cardGroup. by rewrite Hcap, Hx. }
    split; [exact Hg|]. rewrite Hg. by rewrite flat_map_concat_map.
Qed.

End decks_continued.

(** ** Round-robin, continued *)

Lemma filter_none {A} (p : A -> bool) (l : list A) :
  (forall x, x ∈ l -> p x = false) -> List.filter p l = [].
Proof.
  induction l as [|x l IH]; intros Hp; simpl; [reflexivity|].
  rewrite (Hp x) by left. apply IH. intros y Hy. apply Hp. by right.
Qed.

Lemma concat_nil_elem {A} (G : list (list A)) (g : list A) :
  concat G = [] -> g ∈ G -> g = [].
Proof.
  induction G as [|g' G IH]; simpl; intros Hc Hg; [by apply elem_of_nil in Hg|].
  apply app_eq_nil in Hc as [-> Hc]. apply elem_of_cons in Hg as [->|Hg]; [done | by apply IH].
Qed.

Lemma concat_nil_heads {A} (G : list (list A)) : concat G = [] -> omap head G = [].
Proof.
  induction G as [|g G IH]; simpl; intros Hc; [reflexivity|].
  apply app_eq_nil in Hc as [-> Hc]. by apply IH.
Qed.

Section round_robin_order.
Context {A : Type}.
Implicit Types (G : list (list (nat * A))) (groups : list (list A)).

Lemma roundAt_0_filter o G j :
  tagged o G ->
  List.filter (fun x => (x.1 =? o + j)%nat) (roundAt G 0)
  = match G !! j with
    | Some (a :: _) => [a]
    | _ => []
    end.
Proof.
  revert o j. induction G as [|g G IH]; intros o j Ht; [by destruct j|].
  destruct Ht as [Hg Ht]. rewrite roundAt_cons, List.filter_app.
  destruct j as [|j].
  - rewrite (filter_none _ (roundAt G 0)).
    + rewrite app_nil_r. destruct g as [|a g]; [reflexivity|].
      apply Forall_cons in Hg as [Ha _]. simpl. rewrite Nat.add_0_r.
      by rewrite (proj2 (Nat.eqb_eq _ _) Ha).
    + intros x Hx. apply roundAt_0_elem in Hx as (g' & Hg' & Hx).
      pose proof (tagged_lower _ _ Ht g' x Hg' Hx). apply Nat.eqb_neq. lia.
  - rewrite (filter_none _ (match g with [] => [] | a :: _ => [a] end)).
    + simpl. replace (o + S j)%nat with (S o + j)%nat by lia. by apply IH.
    + intros x Hx. destruct g as [|a g]; [by apply elem_of_nil in Hx|].
      apply list_elem_of_singleton in Hx as ->.
      apply Forall_cons in Hg as [Ha _]. apply Nat.eqb_neq. lia.
Qed.

Lemma rounds_filter n o G j :
  tagged o G -> maxLen G <= n ->
  List.filter (fun x => (x.1 =? o + j)%nat) (rounds n G) = default [] (G !! j).
Proof.
  revert G. induction n as [|n IH]; intros G Ht Hn.
  - assert (Hc : concat G = []) by (apply maxLen_0; lia).
    destruct (G !! j) as [g|] eqn:Hg; [|reflexivity]. simpl.
    destruct g as [|a g]; [reflexivity|].
    apply list_elem_of_lookup_2 in Hg. by apply (concat_nil_elem G _ Hc) in Hg.
  - rewrite rounds_S, List.filter_app, (roundAt_0_filter o G j Ht).
    rewrite IH by (try apply tagged_tail; try rewrite maxLen_tail; done || lia).
    rewrite list_lookup_fmap. by destruct (G !! j) as [[|a g]|].
Qed.

(** In the output of round-robin the cards of each group stand in the
    order they have in the group. *)
Lemma roundRobin_group_order groups k :
  snd <$> List.filter (fun x => (x.1 =? k)%nat) (roundRobin (sourced groups))
  = default [] (groups !! k).
Proof.
  unfold roundRobin, sourced.
  pose proof (rounds_filter (maxLen (sourcedFrom 0 groups)) 0 (sourcedFrom 0 groups) k
                (sourcedFrom_tagged 0 groups) (le_n _)) as Hf.
  unfold rounds in Hf. simpl in Hf. rewrite Hf.
  unfold sourcedFrom. rewrite list_lookup_imap.
  destruct (groups !! k) as [g|]; [|reflexivity]. simpl.
  rewrite <- list_fmap_compose. apply list_fmap_id.
Qed.

Lemma roundAt_0_heads groups : roundAt groups 0 = omap head groups.
Proof.
  unfold roundAt. induction groups as [|g gs IH]; [reflexivity|].
  cbn [flat_map omap list_omap]. rewrite IH. by destruct g.
Qed.

Lemma roundRobin_unfold groups :
  roundRobin groups = omap head groups ++ roundRobin (tail <$> groups).
Proof.
  unfold roundRobin. fold (rounds (maxLen groups) groups).
  fold (rounds (maxLen (tail <$> groups)) (tail <$> groups)).
  rewrite maxLen_tail. destruct (maxLen groups) as [|n] eqn:Hm.
  - rewrite (concat_nil_heads groups) by (by apply maxLen_0). reflexivity.
  - rewrite rounds_S, roundAt_0_heads. reflexivity.
Qed.

Lemma roundRobin_one (group : list A) : roundRobin [group] = group.
Proof.
  induction group as [|a group IH]; [reflexivity|].
  rewrite roundRobin_unfold. simpl. by rewrite IH.
Qed.

End round_robin_order.

Section round_robin_decks.
Context `{Host}.

(** X20. Round-robin keeps the order inside every deck: the cards that the
    new deck took from the [k]-th selected deck appear in it in the
    order they have in that deck. *)
Theorem createInterleavedDeck_keeps_deck_order
    (allDecks : list FlashcardDeck) (config : InterleavedConfig) :
  shuffleMode config = "round-robin" ->
  exists deck,
    createInterleavedDeck allDecks config = Returned deck
    /\ snd <$> roundRobin (sourced (cardGroups allDecks config)) = cards deck
    /\ forall k,
         snd <$> List.filter (fun x => (x.1 =? k)%nat)
                   (roundRobin (sourced (cardGroups allDecks config)))
         = default [] (cardGroups allDecks config !! k).
Proof.
  intros Hmode. unfold createInterleavedDeck.
  rewrite (bool_decide_eq_true_2 _ Hmode).
  eexists. split; [reflexivity|]. cbn [cards].
  split; [apply roundRobin_sourced|]. intros k. apply roundRobin_group_order.
Qed.

(** X21. Round-robin by rounds: the new deck starts with the first card of
    every selected deck that has one, in deck order, and goes on with
    the round-robin of what is left of the decks; with a single
    selected deck it is that deck's cards in their order. *)
Theorem createInterleavedDeck_first_round
    (allDecks : list FlashcardDeck) (config : InterleavedConfig) :
  shuffleMode config = "round-robin" ->
  exists deck,
    createInterleavedDeck allDecks config = Returned deck
    /\ cards deck = omap head (cardGroups allDecks config)
                    ++ roundRobin (tail <$> cardGroups allDecks config)
    /\ (forall group, cardGroups allDecks config = [group] -> cards deck = group).
Proof.
  intros Hmode. unfold createInterleavedDeck.
  rewrite (bool_decide_eq_true_2 _ Hmode).
  eexists. split; [reflexivity|]. cbn [cards].
  split; [apply roundRobin_unfold|]. intros group ->. apply roundRobin_one.
Qed.

End round_robin_decks.

Lemma createInterleavedDeck_keeps_deck_order_witness :
  exists deck,
    createInterleavedDeck (H := fixedHost) twoDecks
      {| deckIds := None; cardsPerDeck := None; shuffleMode := "round-robin";
         difficultyRange := None |}
    = Returned deck
    /\ card_id <$> cards deck = ["c1"; "k1"; "c2"; "c3"].
Proof.
  match goal with
  | |- exists deck, createInterleavedDeck ?pool ?cfg = _ /\ _ =>
      destruct (createInterleavedDeck_keeps_deck_order (H := fixedHost) pool cfg eq_refl)
        as (deck & Hd & Hc & _)
  end.
  exists deck. split; [exact Hd|]. rewrite <- Hc. vm_compute. reflexivity.
Defined.

Lemma createInterleavedDeck_first_round_witness :
  exists deck,
    createInterleavedDeck (H := fixedHost) [biologyDeck]
      {| deckIds := None; cardsPerDeck := None; shuffleMode := "round-robin";
         difficultyRange := None |}
    = Returned deck
    /\ cards deck = cards biologyDeck.
Proof.
  match goal with
  | |- exists deck, createInterleavedDeck ?pool ?cfg = _ /\ _ =>
      destruct (createInterleavedDeck_first_round (H := fixedHost) pool cfg eq_refl)
        as (deck & Hd & _ & Hone)
  end.
  exists deck. split; [exact Hd|]. apply Hone. reflexivity.
Defined.

Lemma createInterleavedDeck_unknown_ids_witness :
  exists deck,
    createInterleavedDeck (H := fixedHost) twoDecks
      {| deckIds := Some ["d9"]; cardsPerDeck := None; shuffleMode := "random";
         difficultyRange := None |}
    = Returned deck
    /\ cards deck = [].
Proof.
  apply (createInterleavedDeck_unknown_ids (H := fixedHost) twoDecks _ ["d9"]).
  - reflexivity.
  - discriminate.
  - intros d Hd Hin. apply list_elem_of_singleton in Hin.
    unfold twoDecks in Hd.
    repeat (apply elem_of_cons in Hd as [->|Hd]; [discriminate Hin|]).
    by apply elem_of_nil in Hd.
Defined.

(** ** Checklists *)

Lemma indexOf_bound (s : string) (l : list string) (i : nat) :
  indexOf s l = Some i -> (i < length l)%nat.
Proof.
  revert i. induction l as [|o l IH]; intros i; simpl; [discriminate|].
  case_bool_decide; [intros [= <-]; lia|].
  destruct (indexOf s l) as [j|]; [|discriminate]. intros [= <-].
  specialize (IH j eq_refl). lia.
Qed.

(** What one question adds to the two sums: nothing, or its points and
    its maximum. *)
Lemma scoreQuestion_rating (answers : gmap string Answer) (acc : float * float)
    (q : MetacognitionQuestion) :
  question_type q = rating -> scale q = Some 5 ->
  (forall x, answers !! question_id q = Some (ANumber x) -> x ∈ [0; 1; 2; 3; 4; 5]) ->
  scoreQuestion answers acc q = acc
  \/ exists t, t ∈ [0; 1; 2; 3; 4; 5] /\ scoreQuestion answers acc q = (acc.1 + t, acc.2 + 5).
Proof.
  intros Ht Hs Hx. unfold scoreQuestion. destruct acc as [a b]. rewrite Ht, Hs.
  destruct (answers !! question_id q) as [[x|[|c s]|[]]|]; [|by left| | | |by left].
  - right. exists x. split; [by apply Hx | reflexivity].
  - right. exists 0. split; [left | reflexivity].
  - right. exists 0. split; [left | reflexivity].
  - right. exists 0. split; [left | reflexivity].
Qed.

Lemma scoreQuestion_single (answers : gmap string Answer) (acc : float * float)
    (q : MetacognitionQuestion) :
  question_type q = yesno \/ question_type q = text ->
  scoreQuestion answers acc q = acc
  \/ exists t, t ∈ [0; 1] /\ scoreQuestion answers acc q = (acc.1 + t, acc.2 + 1).
Proof.
  intros Ht. unfold scoreQuestion. destruct acc as [a b].
  destruct (answers !! question_id q) as [[x|[|c s]|[]]|]; [|by left| | | |by left].
  - right. exists 0. split; [left|]. destruct Ht as [-> | ->]; reflexivity.
  - right. destruct Ht as [-> | ->].
    + exists 0. split; [left | reflexivity].
    + exists 1. split; [right; left | reflexivity].
  - right. destruct Ht as [-> | ->].
    + exists 1. split; [right; left | reflexivity].
    + exists 0. split; [left | reflexivity].
  - right. exists 0. split; [left|]. destruct Ht as [-> | ->]; reflexivity.
Qed.

Lemma scoreQuestion_selection (answers : gmap string Answer) (acc : float * float)
    (q : MetacognitionQuestion) (o1 o2 o3 : string) :
  question_type q = selection -> options q = Some [o1; o2; o3] ->
  scoreQuestion answers acc q = acc
  \/ exists t, t ∈ [0; 1; 2; 3] /\ scoreQuestion answers acc q = (acc.1 + t, acc.2 + 3).
Proof.
  intros Ht Ho. unfold scoreQuestion. destruct acc as [a b]. rewrite Ht, Ho.
  assert (H3 : ofNat (length [o1; o2; o3]) = 3) by (vm_compute; reflexivity).
  cbv zeta. cbn [default from_option]. unfold id. rewrite H3.
  destruct (answers !! question_id q) as [[x|[|c s]|[]]|]; [|by left| | | |by left].
  - right. exists 0. split; [left | reflexivity].
  - right. destruct (indexOf (String c s) [o1; o2; o3]) as [i|] eqn:Hi.
    + apply indexOf_bound in Hi. cbn [length] in Hi.
      destruct i as [|[|[|i]]]; [exists 3|exists 2|exists 1|lia].
      * split; [do 3 right; left|]. apply (f_equal (fun t => (a + t, b + 3))). vm_compute. reflexivity.
      * split; [do 2 right; left|]. apply (f_equal (fun t => (a + t, b + 3))). vm_compute. reflexivity.
      * split; [right; left|]. apply (f_equal (fun t => (a + t, b + 3))). vm_compute. reflexivity.
    + exists 0. split; [left | reflexivity].
  - right. exists 0. split; [left | reflexivity].
  - right. exists 0. split; [left | reflexivity].
Qed.

Section checklists_scores.
Context `{Host}.

(** X22. On the checklists that the application generates, before and in
    the middle of a session, the score lies between [0] and [100]
    whenever the rating answer, if it is a number, is one of 0 to 5,
    whatever else the answers hold. *)
Theorem calculateMetacognitionScore_checklists
    (answers : gmap string Answer) (topic : option string) :
  (forall x, answers !! "pre-1" = Some (ANumber x) -> x ∈ [0; 1; 2; 3; 4; 5]) ->
  (forall x, answers !! "mid-1" = Some (ANumber x) -> x ∈ [0; 1; 2; 3; 4; 5]) ->
  let before := calculateMetacognitionScore answers (questions (createPreStudyMetacognition topic)) in
  let during := calculateMetacognitionScore answers (questions createMidStudyCheck) in
  (0 <=? before) = true /\ (before <=? 100) = true
  /\ (0 <=? during) = true /\ (during <=? 100) = true.
Proof.
  intros Hpre Hmid before during.
  assert (Hb : (0 <=? before) = true /\ (before <=? 100) = true).
  { clear Hmid during. unfold before, calculateMetacognitionScore, createPreStudyMetacognition.
    cbn [questions preStudyQuestions length Nat.eqb foldl].
    match goal with
    | |- context [scoreQuestion answers (0, 0) ?q] =>
        destruct (scoreQuestion_rating answers (0, 0) q eq_refl eq_refl Hpre)
          as [->|(t & Ht & ->)]
    end.
    2: repeat (apply elem_of_cons in Ht as [->|Ht]); [..|by apply elem_of_nil in Ht].
    all: clear Hpre.
    all: match goal with
         | |- context [scoreQuestion ?ans (?a, ?b) ?q] =>
             destruct (scoreQuestion_single ans (a, b) q (or_introl eq_refl))
               as [->|(t & Ht & ->)]
         end.
    all: try (repeat (apply elem_of_cons in Ht as [->|Ht]); [..|by apply elem_of_nil in Ht]).
    all: match goal with
         | |- context [scoreQuestion ?ans (?a, ?b) ?q] =>
             destruct (scoreQuestion_selection ans (a, b) q _ _ _ eq_refl eq_refl)
               as [->|(t & Ht & ->)]
         end.
    all: try (repeat (apply elem_of_cons in Ht as [->|Ht]); [..|by apply elem_of_nil in Ht]).
    all: match goal with
         | |- context [scoreQuestion ?ans (?a, ?b) ?q] =>
             destruct (scoreQuestion_single ans (a, b) q (or_intror eq_refl))
               as [->|(t & Ht & ->)]
         end.
    all: try (repeat (apply elem_of_cons in Ht as [->|Ht]); [..|by apply elem_of_nil in Ht]).
    all: vm_compute; split; reflexivity. }
  assert (Hd : (0 <=? during) = true /\ (during <=? 100) = true).
  { clear Hpre Hb before. unfold during, calculateMetacognitionScore, createMidStudyCheck.
    cbn [questions midStudyQuestions length Nat.eqb foldl].
    match goal with
    | |- context [scoreQuestion answers (0, 0) ?q] =>
        destruct (scoreQuestion_rating answers (0, 0) q eq_refl eq_refl Hmid)
          as [->|(t & Ht & ->)]
    end.
    2: repeat (apply elem_of_cons in Ht as [->|Ht]); [..|by apply elem_of_nil in Ht].
    all: clear Hmid.
    all: match goal with
         | |- context [scoreQuestion ?ans (?a, ?b) ?q] =>
             destruct (scoreQuestion_single ans (a, b) q (or_introl eq_refl))
               as [->|(t & Ht & ->)]
         end.
    all: try (repeat (apply elem_of_cons in Ht as [->|Ht]); [..|by apply elem_of_nil in Ht]).
    all: match goal with
         | |- context [scoreQuestion ?ans (?a, ?b) ?q] =>
             destruct (scoreQuestion_selection ans (a, b) q _ _ _ eq_refl eq_refl)
               as [->|(t & Ht & ->)]
         end.
    all: try (repeat (apply elem_of_cons in Ht as [->|Ht]); [..|by apply elem_of_nil in Ht]).
    all: vm_compute; split; reflexivity. }
  tauto.
Qed.

End checklists_scores.
Lemma calculateMetacognitionScore_checklists_witness :
  (calculateMetacognitionScore
     {[ "pre-1" := ANumber 4; "pre-2" := ABoolean true; "pre-3" := AString "어느 정도 집중됨" ]}
     (questions (createPreStudyMetacognition (H := fixedHost) None)) <=? 100) = true.
Proof.
  refine (proj1 (proj2 (calculateMetacognitionScore_checklists (H := fixedHost)
                          {[ "pre-1" := ANumber 4; "pre-2" := ABoolean true;
                             "pre-3" := AString "어느 정도 집중됨" ]} None _ _))).
  - intros x Hx. vm_compute in Hx. injection Hx as <-. do 4 right. left.
  - intros x Hx. vm_compute in Hx. discriminate.
Defined.

(** X23. On a checklist whose question ids are plain keys, a question
    without an answer, or answered by the empty string, takes no part in
    the score: leaving such questions out of the checklist changes
    nothing, and a checklist without any answered question scores [0]. *)
Theorem calculateMetacognitionScore_answered (answers : gmap string Answer)
    (questions : list MetacognitionQuestion) :
  Forall (fun q => plainKey (question_id q) = true) questions ->
  let answered q :=
    match answers !! question_id q with
    | None | Some (AString "") => false
    | _ => true
    end in
  calculateMetacognitionScore answers questions
  = calculateMetacognitionScore answers (List.filter answered questions)
  /\ (Forall (fun q => answered q = false) questions ->
      calculateMetacognitionScore answers questions = 0).
Proof.
  intros _ answered.
  assert (Hskip : forall acc q, answered q = false -> scoreQuestion answers acc q = acc).
  { intros [a b] q. unfold answered, scoreQuestion.
    destruct (answers !! question_id q) as [[x|[|c s]|[]]|]; try discriminate; reflexivity. }
  assert (Hnone : Forall (fun q => answered q = false) questions ->
                  calculateMetacognitionScore answers questions = 0).
  { intros Hall. unfold calculateMetacognitionScore.
    destruct (length questions =? 0)%nat; [reflexivity|].
    rewrite foldl_id; [reflexivity|].
    intros acc q Hq. rewrite Forall_forall in Hall. by apply Hskip, Hall. }
  split; [|exact Hnone].
  unfold calculateMetacognitionScore at 2.
  rewrite (foldl_filter (scoreQuestion answers) answered questions (0, 0) Hskip).
  destruct (List.filter answered questions) as [|q l] eqn:Hfl.
  - simpl. apply Hnone. apply Forall_forall. intros q Hq.
    destruct (answered q) eqn:Hc; [|reflexivity].
    assert (Hin : In q (List.filter answered questions)).
    { apply filter_In. split; [by apply list_elem_of_In | done]. }
    rewrite Hfl in Hin. destruct Hin.
  - unfold calculateMetacognitionScore.
    destruct questions as [|q0 qs]; [discriminate|]. reflexivity.
Qed.

Lemma calculateMetacognitionScore_answered_witness :
  calculateMetacognitionScore {[ "pre-1" := ANumber 4; "pre-4" := AString "" ]} preStudyQuestions
  = calculateMetacognitionScore {[ "pre-1" := ANumber 4; "pre-4" := AString "" ]}
      (take 1 preStudyQuestions)
  /\ calculateMetacognitionScore {[ "pre-1" := ANumber 4; "pre-4" := AString "" ]}
       preStudyQuestions = 80.
Proof.
  assert (Hplain : Forall (fun q => plainKey (question_id q) = true) preStudyQuestions).
  { unfold preStudyQuestions. repeat (constructor; [vm_compute; reflexivity|]). constructor. }
  pose proof (proj1 (calculateMetacognitionScore_answered
                       {[ "pre-1" := ANumber 4; "pre-4" := AString "" ]}
                       preStudyQuestions Hplain)) as Hskip.
  split; [|vm_compute; reflexivity].
  etrans; [exact Hskip|]. vm_compute. reflexivity.
Defined.

(** ** The distribution of an interleaved deck *)

Lemma cardToDeck_untitled (allDecks : list FlashcardDeck) (k : string) :
  mjoin (cardToDeck allDecks !! k) = None.
Proof.
  unfold cardToDeck.
  assert (Hinv : forall (table : gmap string (option string)) decks,
             (forall k, mjoin (table !! k) = None) ->
             forall k, mjoin (foldl (fun table d =>
                                foldl (fun table c => <[card_id c := title d]> table)
                                      table (cards d)) table decks !! k) = None).
  { intros table decks. revert table. induction decks as [|d ds IH]; intros table Ht; [exact Ht|].
    simpl. apply IH. clear IH. generalize (cards d). intros cs. revert table Ht.
    induction cs as [|c cs IH]; intros table Ht; [exact Ht|]. simpl. apply IH.
    intros k'. destruct (decide (card_id c = k')) as [->|Hne].
    - by rewrite lookup_insert_eq.
    - by rewrite lookup_insert_ne. }
  apply Hinv. intros k'. by rewrite lookup_empty.
Qed.

Lemma countCard_other (allDecks : list FlashcardDeck) (distribution : gmap string float)
    (card : Flashcard) :
  countCard (cardToDeck allDecks) distribution card
  = <["기타" := orElse (distribution !! "기타") 0 + 1]> distribution.
Proof. unfold countCard. by rewrite cardToDeck_untitled. Qed.

(** X24. Since no deck has a [title], [analyzeInterleavedDistribution]
    finds no deck name for a card whose id is a plain key: it counts
    every card of such a deck under ['기타'], whatever the pool of decks
    is, and returns the empty table for a deck without cards. *)
Theorem analyzeInterleavedDistribution_other (deck : FlashcardDeck)
    (allDecks : list FlashcardDeck) :
  Forall (fun card => plainKey (card_id card) = true) (cards deck) ->
  (Z.of_nat (length (cards deck)) < 2 ^ 53)%Z ->
  analyzeInterleavedDistribution deck allDecks
  = if (length (cards deck) =? 0)%nat then ∅
    else {[ "기타" := ofNat (length (cards deck)) ]}.
Proof.
  unfold analyzeInterleavedDistribution.
  assert (Hrun : forall cs (n : nat),
             (0 < n)%nat -> (Z.of_nat (n + length cs) < 2 ^ 53)%Z ->
             foldl (countCard (cardToDeck allDecks)) {[ "기타" := ofNat n ]} cs
             = {[ "기타" := ofNat (n + length cs) ]}).
  { induction cs as [|c cs IH]; intros n Hn Hb; simpl.
    - do 2 f_equal. lia.
    - rewrite countCard_other, lookup_singleton_eq. unfold orElse.
      rewrite (positive_truthy _ (ofNat_positive n Hn ltac:(simpl in Hb; lia))).
      rewrite one_ofNat, ofNat_add by (simpl in Hb; lia).
      rewrite insert_singleton_eq.
      rewrite IH by (simpl in Hb; lia). do 2 f_equal. lia. }
  intros _ Hb. destruct (cards deck) as [|c cs]; [reflexivity|].
  cbn [length Nat.eqb foldl]. rewrite countCard_other, lookup_empty.
  replace (orElse None 0 + 1) with (ofNat 1) by (vm_compute; reflexivity).
  rewrite insert_empty. rewrite Hrun by (simpl in Hb; lia). reflexivity.
Qed.

Lemma analyzeInterleavedDistribution_other_witness :
  analyzeInterleavedDistribution biologyDeck twoDecks = {[ "기타" := 3 ]}.
Proof.
  rewrite (analyzeInterleavedDistribution_other biologyDeck twoDecks).
  - reflexivity.
  - unfold biologyDeck. cbn [cards]. repeat (constructor; [vm_compute; reflexivity|]).
    constructor.
  - vm_compute. reflexivity.
Defined.

(** ** Practice problems *)

Lemma similarFrom_spec (front back : string) (n i left : nat) :
  (Z.of_nat n < 2 ^ 53)%Z -> (Z.of_nat (i + left) < 2 ^ 53)%Z ->
  similarFrom front back (ofNat n) i left
  = similarProblem front back <$> seq i (Nat.min (n - i) left).
Proof.
  intros Hn. revert i. induction left as [|left IH]; intros i Hi; simpl.
  - by rewrite Nat.min_0_r.
  - rewrite ofNat_ltb by lia. destruct (Nat.ltb_spec i n) as [Hlt|Hge].
    + rewrite IH by lia.
      replace (Nat.min (n - i) (S left)) with (S (Nat.min (n - S i) left)) by lia.
      reflexivity.
    + replace (n - i)%nat with 0%nat by lia. reflexivity.
Qed.

(** X25. [generateSimilarProblems] returns as many problems as asked for,
    but never more than the six variations it knows (three when no
    count is given, none for a count that is not positive); every
    problem keeps the back of the card as its answer, and the problems
    are graded easy, medium, then hard. *)
Theorem generateSimilarProblems_count (card : Flashcard) (n : nat) :
  (Z.of_nat n < 2 ^ 53)%Z ->
  let problems := generateSimilarProblems card (Some (ofNat n)) in
  length problems = Nat.min n 6
  /\ Forall (fun p => answer p = back card) problems
  /\ problem_difficulty <$> problems = take n [easy; medium; hard; hard; hard; hard]
  /\ length (generateSimilarProblems card None) = 3%nat
  /\ (forall x, (0 <? x) = false -> generateSimilarProblems card (Some x) = []).
Proof.
  intros Hn problems. unfold problems, generateSimilarProblems, nullish.
  cbn [length variationTypes].
  rewrite (similarFrom_spec _ _ n 0 6 Hn) by (vm_compute; reflexivity).
  rewrite Nat.sub_0_r. split; [|split; [|split; [|split]]].
  - by rewrite length_fmap, length_seq.
  - apply Forall_fmap, Forall_forall. intros i _. reflexivity.
  - rewrite <- list_fmap_compose.
    destruct n as [|[|[|[|[|[|n]]]]]]; try reflexivity.
    rewrite Nat.min_r by lia. rewrite take_ge by (simpl; lia). reflexivity.
  - replace 3 with (ofNat 3) by (vm_compute; reflexivity).
    rewrite (similarFrom_spec _ _ 3 0 6) by (vm_compute; reflexivity). reflexivity.
  - intros x Hx. simpl. replace (ofNat 0) with 0 by (vm_compute; reflexivity).
    by rewrite Hx.
Qed.

Lemma generateSimilarProblems_count_witness :
  length (generateSimilarProblems (mkCard "c1" medium 2.5 6 2 "2026-01-01") (Some (ofNat 10)))
  = 6%nat.
Proof.
  refine (proj1 (generateSimilarProblems_count (mkCard "c1" medium 2.5 6 2 "2026-01-01") 10 _)).
  vm_compute. reflexivity.
Defined.

(** ** Topic statistics, continued *)

Lemma addCard_cards (cs : list Flashcard) (stat : ChapterStat) :
  stat_cards (foldl addCard stat cs) = stat_cards stat ++ (card_id <$> cs).
Proof.
  revert stat. induction cs as [|c cs IH]; intros stat; simpl.
  - by rewrite app_nil_r.
  - rewrite IH. simpl. by rewrite <- app_assoc.
Qed.

Lemma chapterStats_acc (decks : list FlashcardDeck) (table : gmap string ChapterStat)
    (label : string) :
  let labelled :=
    List.filter (fun d => bool_decide (propertyKey (strOr (category d) (title d)) = label))
                decks in
  stat_cards <$> (foldl addDeck table decks !! label)
  = match stat_cards <$> (table !! label), labelled with
    | None, [] => None
    | seen, _ => Some (default [] seen ++ (card_id <$> flat_map cards labelled))
    end.
Proof.
  revert table. induction decks as [|d ds IH]; intros table.
  - simpl. destruct (table !! label) as [stat|]; simpl; [by rewrite app_nil_r | done].
  - cbn [foldl List.filter]. rewrite IH. clear IH.
    set (rest := List.filter _ ds).
    assert (Hd : stat_cards <$> (addDeck table d !! label)
                 = if bool_decide (propertyKey (strOr (category d) (title d)) = label)
                   then Some (default [] (stat_cards <$> (table !! label)) ++ (card_id <$> cards d))
                   else stat_cards <$> (table !! label)).
    { unfold addDeck. case_bool_decide as Hl.
      - rewrite Hl, lookup_insert_eq. cbn [fmap option_fmap option_map].
        rewrite addCard_cards. by destruct (table !! label).
      - by rewrite lookup_insert_ne. }
    rewrite Hd. case_bool_decide as Hl.
    + cbn [flat_map]. rewrite fmap_app.
      destruct (stat_cards <$> table !! label); simpl; by rewrite ?app_assoc.
    + reflexivity.
Qed.

(** X26. For decks whose labels are plain keys, the statistics list
    every card under the label of its deck: the card ids of a label are
    those of the decks that carry it, deck after deck and card after
    card; decks that share a label are pooled, and a label that no deck
    carries has no entry. *)
Theorem chapterStats_cards (decks : list FlashcardDeck) (label : string) :
  Forall (fun k => plainKey k = true) (chapterLabels decks) ->
  let labelled :=
    List.filter (fun d => bool_decide (propertyKey (strOr (category d) (title d)) = label))
                decks in
  stat_cards <$> (chapterStats decks !! label)
  = match labelled with
    | [] => None
    | _ => Some (card_id <$> flat_map cards labelled)
    end.
Proof.
  intros _ labelled. unfold chapterStats.
  pose proof (chapterStats_acc decks ∅ label) as Hacc. cbv zeta in Hacc. fold labelled in Hacc.
  rewrite Hacc, lookup_empty. simpl. by destruct labelled.
Qed.

Lemma twoDecks_plain : Forall (fun k => plainKey k = true) (chapterLabels twoDecks).
Proof. repeat (constructor; [vm_compute; reflexivity|]). constructor. Qed.

Lemma chapterStats_cards_witness :
  stat_cards <$> (chapterStats twoDecks !! "undefined") = Some ["c1"; "c2"; "c3"]
  /\ stat_cards <$> (chapterStats twoDecks !! "Biology") = None.
Proof.
  split.
  - etrans; [exact (chapterStats_cards twoDecks "undefined" twoDecks_plain)|].
    vm_compute. reflexivity.
  - etrans; [exact (chapterStats_cards twoDecks "Biology" twoDecks_plain)|].
    vm_compute. reflexivity.
Defined.

(** ** Strong and weak topics *)

Lemma uniq_spec (l : list string) : NoDup (uniq l) /\ forall x, x ∈ uniq l <-> x ∈ l.
Proof.
  destruct (uniq_acc l [] NoDup_nil_2) as [H1 H2]. split; [exact H1|].
  intros x. unfold uniq. rewrite H2, elem_of_nil. tauto.
Qed.

Lemma insertIndex_perm (k : N * string) (l : list (N * string)) : insertIndex k l ≡ₚ k :: l.
Proof.
  induction l as [|k' l IH]; [reflexivity|]. simpl.
  destruct (k'.1 <? k.1)%N; [|reflexivity]. rewrite IH. apply perm_swap.
Qed.

Lemma filter_split_perm {A} (p : A -> bool) (l : list A) :
  List.filter p l ++ List.filter (fun x => negb (p x)) l ≡ₚ l.
Proof.
  induction l as [|x l IH]; [reflexivity|]. simpl. destruct (p x); simpl.
  - by constructor.
  - rewrite <- Permutation_middle. by constructor.
Qed.

(** [Object.entries] lists every key once. *)
Lemma ownKeys_perm (created : list string) : ownKeys created ≡ₚ uniq created.
Proof.
  unfold ownKeys. generalize (uniq created). intros keys.
  assert (Hs : forall L : list (N * string), foldr insertIndex [] L ≡ₚ L).
  { induction L as [|k L IH]; [reflexivity|]. simpl. by rewrite insertIndex_perm, IH. }
  assert (Hi : snd <$> omap (fun k => (fun n => (n, k)) <$> indexKey k) keys
               = List.filter (fun k => negb (bool_decide (indexKey k = None))) keys).
  { induction keys as [|k keys IH]; [reflexivity|]. cbn [omap list_omap List.filter].
    destruct (indexKey k) as [n|] eqn:Hk; cbn [fmap option_fmap option_map].
    - rewrite bool_decide_eq_false_2 by discriminate. cbn [negb].
      change (list_fmap _ _ snd ((n, k) :: ?l)) with (k :: (snd <$> l)).
      f_equal. exact IH.
    - rewrite bool_decide_eq_true_2 by done. exact IH. }
  etrans; [apply Permutation_app_tail, fmap_Permutation, Hs|].
  rewrite Hi, Permutation_app_comm.
  apply (filter_split_perm (fun k => bool_decide (indexKey k = None))).
Qed.

Lemma chapterStats_labels (decks : list FlashcardDeck) (k : string) :
  is_Some (chapterStats decks !! k) <-> k ∈ chapterLabels decks.
Proof.
  assert (Hl : List.filter (fun d => bool_decide (propertyKey (strOr (category d) (title d)) = k))
                 decks <> [] <-> k ∈ chapterLabels decks).
  { unfold chapterLabels. induction decks as [|d ds IH]; simpl.
    - rewrite elem_of_nil. split; [intros Hn; by destruct Hn | done].
    - rewrite elem_of_cons. case_bool_decide as Hd.
      + split; [by left | discriminate].
      + rewrite <- IH. split; [tauto|]. intros [Heq|Hne]; [congruence | done]. }
  pose proof (chapterStats_acc decks ∅ k) as Hacc. cbv zeta in Hacc.
  rewrite lookup_empty in Hacc. cbn [fmap option_fmap option_map] in Hacc.
  unfold chapterStats.
  rewrite <- Hl. destruct (List.filter _ decks) as [|d l].
  - destruct (foldl addDeck ∅ decks !! k); [discriminate|].
    split; [by intros [? ?] | done].
  - destruct (foldl addDeck ∅ decks !! k); [|discriminate]. split; [done | eauto].
Qed.

Lemma chapterEntries_keys (decks : list FlashcardDeck) :
  fst <$> chapterEntries decks = ownKeys (chapterLabels decks)
  /\ forall k stats, (k, stats) ∈ chapterEntries decks <-> chapterStats decks !! k = Some stats.
Proof.
  unfold chapterEntries.
  assert (Hin : forall k, k ∈ ownKeys (chapterLabels decks) <-> is_Some (chapterStats decks !! k)).
  { intros k. rewrite ownKeys_perm, (proj2 (uniq_spec _)). symmetry. apply chapterStats_labels. }
  revert Hin. generalize (ownKeys (chapterLabels decks)). intros keys Hin. split.
  - assert (Hall : Forall (fun k => is_Some (chapterStats decks !! k)) keys).
    { apply Forall_forall. intros k Hk. by apply Hin. }
    clear Hin. induction Hall as [|k keys [stats Hk] _ IH]; [reflexivity|].
    cbn [omap list_omap]. rewrite Hk. cbn [fmap option_fmap option_map].
    change (list_fmap _ _ fst ((k, stats) :: ?l)) with (k :: (fst <$> l)).
    f_equal. exact IH.
  - intros k stats. rewrite list_elem_of_omap. split.
    + intros (k' & _ & Hk'). destruct (chapterStats decks !! k') as [s|] eqn:Hs; [|discriminate].
      simpl in Hk'. by injection Hk' as <- <-.
    + intros Hk. exists k. split; [apply Hin; eauto|]. by rewrite Hk.
Qed.

(** What the loop adds to the two lists: a chapter with repetitions is
    strong when its accuracy is at least [0.8], weak otherwise. *)
Lemma tallyChapter_lists (entries : list (string * ChapterStat)) (t : Tally) :
  let counted e := negb (total e.2 =? 0) in
  let accurate e := 0.8 <=? correct e.2 / total e.2 in
  strong (foldl tallyChapter t entries)
  = strong t ++ (fst <$> List.filter (fun e => counted e && accurate e) entries)
  /\ weak_chapter <$> weak (foldl tallyChapter t entries)
     = (weak_chapter <$> weak t)
       ++ (fst <$> List.filter (fun e => counted e && negb (accurate e)) entries).
Proof.
  intros counted accurate. revert t.
  induction entries as [|[k stats] entries IH]; intros t.
  - simpl. by rewrite !app_nil_r.
  - cbn [foldl List.filter]. destruct (IH (tallyChapter t (k, stats))) as [-> ->].
    unfold counted, accurate, tallyChapter. cbn [fst snd].
    destruct (total stats =? 0); cbn [negb andb]; [done|].
    destruct (0.8 <=? correct stats / total stats); cbn [negb strong weak].
    + rewrite fmap_cons, <- app_assoc. done.
    + rewrite fmap_app, fmap_cons, <- app_assoc. done.
Qed.

Lemma tallyChapter_priorities (entries : list (string * ChapterStat)) (t : Tally) :
  let graded a :=
    priority a = (if 0.6 <=? errorRate a then Weakness.high
                  else if 0.4 <=? errorRate a then Weakness.medium
                  else Weakness.low)
    /\ recommendedActions a = actionsFor (priority a) in
  Forall graded (weak t) -> Forall graded (weak (foldl tallyChapter t entries)).
Proof.
  intros graded. revert t. induction entries as [|[k stats] entries IH]; intros t Ht; [exact Ht|].
  cbn [foldl]. apply IH. unfold tallyChapter.
  destruct (total stats =? 0); [exact Ht|].
  destruct (0.8 <=? correct stats / total stats); cbn [weak]; [exact Ht|].
  apply Forall_app. split; [exact Ht|]. constructor; [|constructor]. split; reflexivity.
Qed.

Lemma pOrder_keep (a b : WeakArea) :
  (0 <? pOrder (priority a) - pOrder (priority b)) = false ->
  (pOrder (priority a) <=? pOrder (priority b)) = true.
Proof. destruct (priority a), (priority b); vm_compute; congruence. Qed.

Lemma pOrder_move (a b : WeakArea) :
  (0 <? pOrder (priority a) - pOrder (priority b)) = true ->
  (pOrder (priority b) <=? pOrder (priority a)) = true.
Proof. destruct (priority a), (priority b); vm_compute; congruence. Qed.

Lemma pOrder_trans (a b c : WeakArea) :
  (pOrder (priority a) <=? pOrder (priority b)) = true ->
  (pOrder (priority b) <=? pOrder (priority c)) = true ->
  (pOrder (priority a) <=? pOrder (priority c)) = true.
Proof. apply leb_trans. Qed.

(** X27. For decks whose labels are plain keys,
    [analyzeWeaknessPatterns] sorts the topics that have
    repetitions into two lists without overlap and without repetition:
    a topic is a strong area exactly when its accuracy
    [correct / total] is at least [0.8], and a weak area exactly when it
    is not (also when the accuracy is not a number); a topic without
    repetitions is in neither list. *)
Theorem analyzeWeaknessPatterns_partition (decks : list FlashcardDeck) :
  Forall (fun k => plainKey k = true) (chapterLabels decks) ->
  let result := analyzeWeaknessPatterns decks in
  NoDup (strongAreas result ++ (weak_chapter <$> overallWeakAreas result))
  /\ (forall k, k ∈ strongAreas result <->
        exists stats, chapterStats decks !! k = Some stats
                      /\ (total stats =? 0) = false
                      /\ (0.8 <=? correct stats / total stats) = true)
  /\ (forall k, k ∈ weak_chapter <$> overallWeakAreas result <->
        exists stats, chapterStats decks !! k = Some stats
                      /\ (total stats =? 0) = false
                      /\ (0.8 <=? correct stats / total stats) = false).
Proof.
  intros _ result. unfold result, analyzeWeaknessPatterns.
  cbn [strongAreas overallWeakAreas].
  set (t0 := {| strong := []; weak := []; totalCards := 0; totalCorrectCards := 0 |}).
  destruct (tallyChapter_lists (chapterEntries decks) t0) as [Hs Hw].
  cbn [strong weak t0 fmap list_fmap app] in Hs, Hw.
  destruct (chapterEntries_keys decks) as [Hkeys Hentries].
  assert (Hnd : NoDup (fst <$> chapterEntries decks)).
  { rewrite Hkeys, ownKeys_perm. apply uniq_spec. }
  set (entries := chapterEntries decks) in *.
  assert (Hweak : weak_chapter <$> Array_sort
                    (fun a b => pOrder (priority a) - pOrder (priority b))
                    (weak (foldl tallyChapter t0 entries))
                  ≡ₚ fst <$> List.filter
                       (fun e => negb (total e.2 =? 0)
                                 && negb (0.8 <=? correct e.2 / total e.2)) entries).
  { rewrite <- Hw. apply fmap_Permutation, Array_sort_perm. }
  rewrite Hs. clear Hs Hw. split; [|split].
  - rewrite Hweak. clear Hentries Hkeys Hweak. induction entries as [|[k stats] entries IH]; [constructor|].
    cbn [fmap list_fmap] in Hnd. apply NoDup_cons in Hnd as [Hk Hnd].
    specialize (IH Hnd). cbn [List.filter fst snd].
    assert (Hfresh : forall p, k ∉ fst <$> List.filter p entries).
    { intros p Hin. apply Hk. apply list_elem_of_fmap in Hin as ([k' s'] & -> & Hin).
      apply list_elem_of_In, filter_In in Hin as [Hin _].
      apply list_elem_of_fmap. exists (k', s'). split; [done | by apply list_elem_of_In]. }
    destruct (total stats =? 0); cbn [negb andb]; [exact IH|].
    destruct (0.8 <=? correct stats / total stats); cbn [negb].
    + rewrite fmap_cons. cbn [app fst]. constructor; [|exact IH].
      rewrite elem_of_app. intros [Hin|Hin]; by apply Hfresh in Hin.
    + rewrite fmap_cons. cbn [fst].
      rewrite <- Permutation_middle. constructor; [|exact IH].
      rewrite elem_of_app. intros [Hin|Hin]; by apply Hfresh in Hin.
  - intros k. rewrite list_elem_of_fmap. split.
    + intros ([k' stats] & -> & Hin). apply list_elem_of_In, filter_In in Hin as [Hin Hp].
      cbn [snd] in Hp. apply andb_true_iff in Hp as [Ht Ha]. apply negb_true_iff in Ht.
      exists stats. split; [by apply Hentries, list_elem_of_In | done].
    + intros (stats & Hk & Ht & Ha). exists (k, stats). split; [done|].
      apply list_elem_of_In, filter_In. split; [by apply list_elem_of_In, Hentries|].
      cbn [snd]. by rewrite Ht, Ha.
  - intros k. rewrite Hweak, list_elem_of_fmap. split.
    + intros ([k' stats] & -> & Hin). apply list_elem_of_In, filter_In in Hin as [Hin Hp].
      cbn [snd] in Hp. apply andb_true_iff in Hp as [Ht Ha]. apply negb_true_iff in Ht, Ha.
      exists stats. split; [by apply Hentries, list_elem_of_In | done].
    + intros (stats & Hk & Ht & Ha). exists (k, stats). split; [done|].
      apply list_elem_of_In, filter_In. split; [by apply list_elem_of_In, Hentries|].
      cbn [snd]. by rewrite Ht, Ha.
Qed.

Lemma analyzeWeaknessPatterns_partition_witness :
  "undefined" ∈ weak_chapter <$> overallWeakAreas (analyzeWeaknessPatterns twoDecks)
  /\ "undefined" ∉ strongAreas (analyzeWeaknessPatterns twoDecks).
Proof.
  destruct (analyzeWeaknessPatterns_partition twoDecks twoDecks_plain) as (Hnd & _ & Hweak).
  assert (Hin : "undefined" ∈ weak_chapter <$> overallWeakAreas (analyzeWeaknessPatterns twoDecks)).
  { apply Hweak. eexists. split; [vm_compute; reflexivity|]. split; vm_compute; reflexivity. }
  split; [exact Hin|]. intros Hs.
  apply NoDup_app in Hnd as (_ & Hsep & _). exact (Hsep _ Hs Hin).
Defined.

(** X28. For decks whose labels are plain keys, the weak areas are
    reported by priority, high before medium
    before low; the priority of an area follows from its error rate
    (at least [0.6]: high; at least [0.4]: medium; otherwise low) and
    fixes its recommended actions; and the recommendations always end
    with the same two pieces of advice, after at most three others. *)
Theorem analyzeWeaknessPatterns_priorities (decks : list FlashcardDeck) :
  Forall (fun k => plainKey k = true) (chapterLabels decks) ->
  let result := analyzeWeaknessPatterns decks in
  StronglySorted (fun a b => (pOrder (priority a) <=? pOrder (priority b)) = true)
                 (overallWeakAreas result)
  /\ Forall (fun a =>
               priority a = (if 0.6 <=? errorRate a then Weakness.high
                             else if 0.4 <=? errorRate a then Weakness.medium
                             else Weakness.low)
               /\ recommendedActions a = actionsFor (priority a))
            (overallWeakAreas result)
  /\ exists specific,
       recommendations result
       = specific ++ ["매일 약 30분씩 약점 카드를 우선 복습하세요";
                      "강점 과목과 약점 과목을 교대로 학습하여 효과 극대화"]
       /\ (length specific <= 3)%nat.
Proof.
  intros _ result. unfold result, analyzeWeaknessPatterns.
  cbn [overallWeakAreas recommendations].
  set (t0 := {| strong := []; weak := []; totalCards := 0; totalCorrectCards := 0 |}).
  set (tally := foldl tallyChapter t0 (chapterEntries decks)).
  split; [|split].
  - apply (Array_sort_sorted _ (fun _ => True)
             (fun a b => (pOrder (priority a) <=? pOrder (priority b)) = true)).
    + intros x y _ _. apply pOrder_keep.
    + intros x y _ _. apply pOrder_move.
    + intros x y z _ _ _. apply pOrder_trans.
    + by apply Forall_forall.
  - rewrite Array_sort_perm. apply tallyChapter_priorities. constructor.
  - eexists. split.
    + rewrite !app_assoc. reflexivity.
    + rewrite !length_app.
      destruct (Array_sort _ (weak tally)), (strong tally), (_ <? 0.6); simpl; lia.
Qed.

Lemma analyzeWeaknessPatterns_priorities_witness :
  Forall (fun a =>
            priority a = (if 0.6 <=? errorRate a then Weakness.high
                          else if 0.4 <=? errorRate a then Weakness.medium
                          else Weakness.low)
            /\ recommendedActions a = actionsFor (priority a))
         (overallWeakAreas (analyzeWeaknessPatterns twoDecks)).
Proof.
  exact (proj1 (proj2 (analyzeWeaknessPatterns_priorities twoDecks twoDecks_plain))).
Defined.

(** ** The diagnosis of an answer *)

Section diagnosis_levels.
Context `{Text}.

(** X29. A wrong answer is always diagnosed as poor, with confidence [0.2]
    when it came within eight seconds and [0.25] otherwise; a correct
    answer is excellent exactly when it came within eight seconds,
    which is when [getAdaptiveFeedback] eases the card; a poor answer
    receives three recommendations, any other answer two. *)
Theorem diagnoseUnderstanding_levels (card : Flashcard) (responseTimeMs : float)
    (streak : option float) :
  let wrong := diagnoseUnderstanding (Some card) responseTimeMs false in
  let right := diagnoseUnderstanding (Some card) responseTimeMs true in
  understandingLevel wrong = Diagnosis.poor
  /\ confidenceScore wrong = (if responseTimeMs <? 8000 then 0.2 else 0.25)
  /\ length (diagnosis_recommendations wrong) = 3%nat
  /\ understandingLevel right <> Diagnosis.poor
  /\ length (diagnosis_recommendations right) = 2%nat
  /\ (understandingLevel right = Diagnosis.excellent <-> (responseTimeMs <? 8000) = true)
  /\ (understandingLevel right = Diagnosis.excellent <->
      adjustedDifficulty (getAdaptiveFeedback card true (Some responseTimeMs) streak) = easy).
Proof.
  intros wrong right. unfold wrong, right, diagnoseUnderstanding, gauge, getAdaptiveFeedback.
  cbn [nullish andb].
  destruct (responseTimeMs <? 8000) eqn:Hfast; cbn [understandingLevel confidenceScore
    diagnosis_recommendations recommendationsFor length].
  - split; [reflexivity|]. split; [vm_compute; reflexivity|]. split; [reflexivity|].
    split; [discriminate|]. split; [reflexivity|]. split; [done|].
    destruct (2 <=? nullish streak 0); done.
  - split; [reflexivity|]. split; [vm_compute; reflexivity|]. split; [reflexivity|].
    destruct (responseTimeMs <? 15000);
      cbn [understandingLevel diagnosis_recommendations recommendationsFor length adjustedDifficulty].
    all: split; [discriminate|]. all: split; [reflexivity|].
    all: split; split; discriminate.
Qed.

End diagnosis_levels.
